(** * Ephemeral worker job orchestrator (Google Photos import over Fly workers)

    A shallow embedding of [FlyWorkerService] (fly-worker.service.ts) and of
    the Fly-worker half of [GooglePhotosImportService]
    (google-photos-import.service.ts), together with the properties of the
    orchestrator that the specification states about them.

    Conventions of the embedding.
    - JavaScript strings are Rocq strings: sequences of code units below 256
      (HTTP header values, and the text of the payloads considered here).
      Comparison of strings is comparison of code units, as in
      [Array.prototype.sort] without a comparator.
    - JavaScript numbers that count things (progress counters, byte counts,
      sizes in GB) are integers of [Z]; the arithmetic that the code does on
      them is exact on integers below 2^53, and [JSON.stringify] prints them
      as their decimal digits.
    - An [async] method is a computation in the monad [M]: it reads and
      writes the [World] (metadata store, in-memory job map, log of the calls
      made to the collaborators) and either returns a value or throws.  What
      the collaborators answer is given by an environment [Env], which may
      make any call fail.  Reading and writing the metadata store itself
      does not fail.  Calls of the logger are left out.
    - A method that is started without [await] (the cleanup that a terminal
      webhook starts) is not run by its caller: the caller records it in
      [background] and returns.  Its run, to its end before the next request
      or around the next request, is given by [settle] and
      [while_cleanup_runs]. *)

From Stdlib Require Import ZArith String Ascii List.
From stdpp Require Import gmap strings list sorting pretty.

Local Open Scope Z_scope.
Local Open Scope string_scope.

(** ** Strings *)

Definition dquote : ascii := ascii_of_nat 34.
Definition backslash : ascii := ascii_of_nat 92.

Definition str1 (c : ascii) : string := String c EmptyString.

(** [Array.prototype.join]. *)
Fixpoint join (sep : string) (l : list string) : string :=
  match l with
  | [] => EmptyString
  | [x] => x
  | x :: rest => x ++ sep ++ join sep rest
  end.

(** [String.prototype.slice(0, n)]. *)
Fixpoint slice0 (n : nat) (s : string) : string :=
  match n, s with
  | S n', String c s' => String c (slice0 n' s')
  | _, _ => EmptyString
  end.

(** JavaScript truthiness of a string: every string but the empty one. *)
Definition truthy (s : string) : bool :=
  match s with EmptyString => false | _ => true end.

(** ** fly-worker.service.ts: volume sizing *)

(** [Math.ceil(a / b)] for an integer [a] and a positive integer [b]. *)
Definition Math_ceil_div (a b : Z) : Z := - ((- a) / b).

Definition GiB : Z := 1024 * 1024 * 1024.

Definition calculateVolumeSizeGb (fileSizes : list Z) : Z :=
  let totalBytes := fold_left (fun sum size => sum + size) fileSizes 0 in
  let sizeGb := Math_ceil_div totalBytes GiB + 5 in
  Z.max 10 (Z.min 100 sizeGb).

(** The sizing rule in the words of the specification:
    [clamp(ceil(sum(fileSizes)/1GiB) + fixedBufferGB, minGB, maxGB)]. *)
Definition fixedBufferGB : Z := 5.
Definition minGB : Z := 10.
Definition maxGB : Z := 100.

Definition clamp (x lo hi : Z) : Z :=
  if (x <? lo)%Z then lo else if (hi <? x)%Z then hi else x.

Definition sum_sizes (fileSizes : list Z) : Z := foldr Z.add 0 fileSizes.

(** The least integer [c] with [a <= c * b]. *)
Definition is_ceiling (a b c : Z) : Prop := a <= c * b /\ (c - 1) * b < a.

(** ** JSON values and the canonical serialisation *)

#[local] Set Warnings "-register-all".

Inductive json : Type :=
| JNull
| JBool (b : bool)
| JNumber (n : Z)
| JString (s : string)
| JArray (items : list json)
| JObject (props : list (string * json)).

(** An object is the list of its own properties in creation order; a
    JavaScript object has each key once. *)
Fixpoint json_wf (v : json) : Prop :=
  match v with
  | JArray items => foldr (fun x acc => json_wf x /\ acc) True items
  | JObject props =>
      NoDup (map fst props) /\
      foldr (fun p acc => json_wf (snd p) /\ acc) True props
  | _ => True
  end.

(** *** QuoteJSONString *)

Definition hex_digit (n : N) : ascii :=
  match n with
  | 0 => "0" | 1 => "1" | 2 => "2" | 3 => "3" | 4 => "4" | 5 => "5"
  | 6 => "6" | 7 => "7" | 8 => "8" | 9 => "9" | 10 => "a" | 11 => "b"
  | 12 => "c" | 13 => "d" | 14 => "e" | _ => "f"
  end%char%N.

Definition quote_char (c : ascii) : string :=
  let n := N_of_ascii c in
  if (n =? 8)%N then String backslash "b"
  else if (n =? 9)%N then String backslash "t"
  else if (n =? 10)%N then String backslash "n"
  else if (n =? 12)%N then String backslash "f"
  else if (n =? 13)%N then String backslash "r"
  else if (n =? 34)%N then String backslash (str1 dquote)
  else if (n =? 92)%N then String backslash (str1 backslash)
  else if (n <? 32)%N then
    String backslash ("u00" ++ String (hex_digit (n / 16)) (str1 (hex_digit (n mod 16))))
  else str1 c.

Fixpoint quote_body (s : string) : string :=
  match s with
  | EmptyString => EmptyString
  | String c s' => quote_char c ++ quote_body s'
  end.

Definition JSON_quote (s : string) : string :=
  String dquote (quote_body s ++ str1 dquote).

(** *** Property order of an ordinary object

    [OrdinaryOwnPropertyKeys] (ECMA-262, 10.1.11.1), which [Object.keys], the
    [for-in] statement and [JSON.stringify] follow: the keys that are array
    indices (canonical decimal numerals below 2^32 - 1) come first, in
    ascending numeric order; the other string keys follow in the order in
    which they were created.  So [const o = {}; o['b'] = 1; o['10'] = 2;
    o['9'] = 3] has the keys [9], [10], [b], in this order. *)

Definition digit_value (c : ascii) : option N :=
  let n := N_of_ascii c in
  if ((48 <=? n) && (n <=? 57))%N then Some (n - 48)%N else None.

Fixpoint digits_value (acc : N) (s : string) : option N :=
  match s with
  | EmptyString => Some acc
  | String c s' =>
      match digit_value c with
      | Some d => digits_value (10 * acc + d)%N s'
      | None => None
      end
  end.

Definition array_index (k : string) : option N :=
  match k with
  | EmptyString => None
  | _ =>
      match digits_value 0 k with
      | Some n =>
          if bool_decide (pretty n = k) && (n <? 4294967295)%N
          then Some n else None
      | None => None
      end
  end.

Definition is_array_index (k : string) : bool :=
  match array_index k with Some _ => true | None => false end.

Definition own_property_keys (created : list string) : list string :=
  map pretty (merge_sort N.le (omap array_index created))
  ++ filter (fun k => is_array_index k = false) created.

(** [Object.keys(value)]. *)
Definition Object_keys (props : list (string * json)) : list string :=
  own_property_keys (map fst props).

(** [Array.prototype.sort()] on strings: a stable sort by code units. *)
Definition sort_keys (ks : list string) : list string :=
  merge_sort String.le ks.

(** The own keys of the object [sorted] that the replacer of
    [stableStringify] builds from [value]:
    [Object.keys(value).sort().reduce((sorted, k) => { sorted[k] = value[k]; return sorted }, {})].
    The assignment [sorted['__proto__'] = x] runs the setter inherited from
    [Object.prototype] and creates no own property. *)
Definition proto_key : string := "__proto__".

Definition sorted_own_keys (props : list (string * json)) : list string :=
  own_property_keys
    (filter (fun k => k <> proto_key) (sort_keys (Object_keys props))).

(** [rendered[k]] for the serialised property values of an object. *)
Fixpoint lookup_rendered (k : string) (rendered : list (string * string)) : string :=
  match rendered with
  | [] => EmptyString
  | (k', s) :: rest => if bool_decide (k = k') then s else lookup_rendered k rest
  end.

(** [stableStringify(obj)] = [JSON.stringify(obj, replacer)] where the
    replacer turns every object that is not an array into [sorted] above.
    Each property of [sorted] is serialised in own-key order; the value of
    property [k] is [value[k]], whose text is looked up among the texts of
    the properties of [value]. *)
Fixpoint stableStringify (obj : json) : string :=
  match obj with
  | JNull => "null"
  | JBool true => "true"
  | JBool false => "false"
  | JNumber n => pretty n
  | JString s => JSON_quote s
  | JArray items => "[" ++ join "," (map stableStringify items) ++ "]"
  | JObject props =>
      let rendered := map (fun p => (fst p, stableStringify (snd p))) props in
      "{" ++ join ","
               (map (fun k => JSON_quote k ++ ":" ++ lookup_rendered k rendered)
                    (sorted_own_keys props))
          ++ "}"
  end.



(** Two JSON values are the same up to the order of object keys, at any
    depth: arrays agree element by element, and the properties of an object
    are those of the other, in some order, with values that agree. *)
Inductive same_up_to_key_order : json -> json -> Prop :=
| same_null : same_up_to_key_order JNull JNull
| same_bool b : same_up_to_key_order (JBool b) (JBool b)
| same_number n : same_up_to_key_order (JNumber n) (JNumber n)
| same_string s : same_up_to_key_order (JString s) (JString s)
| same_array items items' :
    Forall2 same_up_to_key_order items items' ->
    same_up_to_key_order (JArray items) (JArray items')
| same_object props renamed props' :
    Forall2 (fun p q => fst p = fst q /\ same_up_to_key_order (snd p) (snd q))
            props renamed ->
    Permutation renamed props' ->
    same_up_to_key_order (JObject props) (JObject props').

(** *** The canonical text in the words of the specification

    "Recursively sort object keys lexicographically before serializing;
    arrays preserve order": every value is serialised as JSON, the members of
    an object in the order of their keys, compared by code units. *)

Fixpoint canonicalize (v : json) : string :=
  match v with
  | JNull => "null"
  | JBool true => "true"
  | JBool false => "false"
  | JNumber n => pretty n
  | JString s => JSON_quote s
  | JArray items => "[" ++ join "," (map canonicalize items) ++ "]"
  | JObject props =>
      "{" ++ join ","
               (map (fun member => JSON_quote (fst member) ++ ":" ++ snd member)
                    (merge_sort (fun a b => String.le (fst a) (fst b))
                       (map (fun p => (fst p, canonicalize (snd p))) props)))
          ++ "}"
  end.

(** The keys of the objects that the service serialises are names of
    properties of its DTOs: at no depth is one of them an array index or
    [__proto__]. *)
Fixpoint json_plain (v : json) : Prop :=
  match v with
  | JArray items => foldr (fun x acc => json_plain x /\ acc) True items
  | JObject props =>
      foldr (fun p acc =>
               (is_array_index (fst p) = false /\ fst p <> proto_key
                /\ json_plain (snd p)) /\ acc) True props
  | _ => True
  end.

(** ** Data model (google-photos-import.dto.ts) *)

Inductive ActivityEventType : Type :=
| ev_info | ev_success | ev_error | ev_download | ev_upload | ev_album.

Module ActivityEventDto.
Record t : Type := mk {
  timestamp : string;
  type : ActivityEventType;
  message : string
}.
End ActivityEventDto.

(** ['downloading' | 'processing' | 'complete' | 'failed']. *)
Inductive Phase : Type :=
| ph_downloading | ph_processing | ph_complete | ph_failed.

Inductive FlyWorkerJobStatus : Type :=
| st_pending | st_creating | st_downloading | st_processing
| st_complete | st_failed | st_cleanup.

Module GooglePhotosImportProgressDto.
Record t : Type := mk {
  phase : Phase;
  current : Z;
  total : Z;
  currentFile : option string;
  albumsFound : Z;
  photosImported : Z;
  bytesDownloaded : option Z;
  totalBytes : option Z;
  errors : list string;
  events : list ActivityEventDto.t
}.

Definition set_phase (x : Phase) (p : t) : t :=
  mk x (current p) (total p) (currentFile p) (albumsFound p)
     (photosImported p) (bytesDownloaded p) (totalBytes p) (errors p) (events p).
Definition set_current (x : Z) (p : t) : t :=
  mk (phase p) x (total p) (currentFile p) (albumsFound p)
     (photosImported p) (bytesDownloaded p) (totalBytes p) (errors p) (events p).
Definition set_total (x : Z) (p : t) : t :=
  mk (phase p) (current p) x (currentFile p) (albumsFound p)
     (photosImported p) (bytesDownloaded p) (totalBytes p) (errors p) (events p).
Definition set_currentFile (x : option string) (p : t) : t :=
  mk (phase p) (current p) (total p) x (albumsFound p)
     (photosImported p) (bytesDownloaded p) (totalBytes p) (errors p) (events p).
Definition set_albumsFound (x : Z) (p : t) : t :=
  mk (phase p) (current p) (total p) (currentFile p) x
     (photosImported p) (bytesDownloaded p) (totalBytes p) (errors p) (events p).
Definition set_photosImported (x : Z) (p : t) : t :=
  mk (phase p) (current p) (total p) (currentFile p) (albumsFound p)
     x (bytesDownloaded p) (totalBytes p) (errors p) (events p).
Definition set_bytesDownloaded (x : option Z) (p : t) : t :=
  mk (phase p) (current p) (total p) (currentFile p) (albumsFound p)
     (photosImported p) x (totalBytes p) (errors p) (events p).
Definition set_totalBytes (x : option Z) (p : t) : t :=
  mk (phase p) (current p) (total p) (currentFile p) (albumsFound p)
     (photosImported p) (bytesDownloaded p) x (errors p) (events p).
Definition set_errors (x : list string) (p : t) : t :=
  mk (phase p) (current p) (total p) (currentFile p) (albumsFound p)
     (photosImported p) (bytesDownloaded p) (totalBytes p) x (events p).
Definition set_events (x : list ActivityEventDto.t) (p : t) : t :=
  mk (phase p) (current p) (total p) (currentFile p) (albumsFound p)
     (photosImported p) (bytesDownloaded p) (totalBytes p) (errors p) x.
End GooglePhotosImportProgressDto.

Module WorkerProgressPayloadDto.
Record t : Type := mk {
  current : Z;
  total : Z;
  currentFile : option string
}.
End WorkerProgressPayloadDto.

Module WorkerProgressDto.
Record t : Type := mk {
  jobId : string;
  phase : Phase;
  progress : WorkerProgressPayloadDto.t;
  bytesDownloaded : option Z;
  totalBytes : option Z;
  photosImported : option Z;
  albumsFound : option Z;
  errors : option (list string)
}.
End WorkerProgressDto.

Module FlyWorkerJobMetadata.
Record t : Type := mk {
  jobId : string;
  userId : string;
  machineId : string;
  volumeId : string;
  status : FlyWorkerJobStatus;
  progress : GooglePhotosImportProgressDto.t;
  webhookSecret : string;
  tempApiKeyId : string;
  createdAt : string;
  updatedAt : string
}.

Definition set_machineId (x : string) (j : t) : t :=
  mk (jobId j) (userId j) x (volumeId j) (status j) (progress j)
     (webhookSecret j) (tempApiKeyId j) (createdAt j) (updatedAt j).
Definition set_volumeId (x : string) (j : t) : t :=
  mk (jobId j) (userId j) (machineId j) x (status j) (progress j)
     (webhookSecret j) (tempApiKeyId j) (createdAt j) (updatedAt j).
Definition set_status (x : FlyWorkerJobStatus) (j : t) : t :=
  mk (jobId j) (userId j) (machineId j) (volumeId j) x (progress j)
     (webhookSecret j) (tempApiKeyId j) (createdAt j) (updatedAt j).
Definition set_progress (x : GooglePhotosImportProgressDto.t) (j : t) : t :=
  mk (jobId j) (userId j) (machineId j) (volumeId j) (status j) x
     (webhookSecret j) (tempApiKeyId j) (createdAt j) (updatedAt j).
Definition set_updatedAt (x : string) (j : t) : t :=
  mk (jobId j) (userId j) (machineId j) (volumeId j) (status j) (progress j)
     (webhookSecret j) (tempApiKeyId j) (createdAt j) x.
End FlyWorkerJobMetadata.

(** The in-memory job of the local-upload path ([interface ImportJob]).
    [abortController] holds the [aborted] flag of the controller's signal. *)
Module ImportJob.
Record t : Type := mk {
  id : string;
  userId : string;
  status : FlyWorkerJobStatus;
  progress : GooglePhotosImportProgressDto.t;
  createdAt : string;
  driveFileIds : list string;
  localFiles : list string;
  tempApiKeyId : option string;
  abortController : option bool
}.
End ImportJob.

Module MachineConfig.
Record t : Type := mk {
  name : string;
  region : string;
  env : list (string * string);
  volumeId : string;
  volumePath : string;
  memoryMb : option Z;
  cpus : option Z
}.
End MachineConfig.

(** The argument of [FlyWorkerService.createWorker]. *)
Module CreateWorkerConfig.
Record t : Type := mk {
  jobId : string;
  fileIds : list string;
  fileSizes : list Z;
  accessToken : string;
  refreshToken : option string;
  immichApiKey : string;
  webhookUrl : string;
  webhookSecret : string;
  immichServerUrl : string;
  googleClientId : string;
  googleClientSecret : string;
  region : option string
}.
End CreateWorkerConfig.

Module DriveTokens.
Record t : Type := mk {
  accessToken : string;
  refreshToken : option string;
  expiresAt : option string
}.
End DriveTokens.

(** The part of the system configuration that the service reads:
    [config.oauth] and [config.server.externalDomain]. *)
Module SystemConfig.
Record t : Type := mk {
  oauth_enabled : bool;
  oauth_clientId : string;
  oauth_clientSecret : string;
  server_externalDomain : string
}.
End SystemConfig.

Inductive Permission : Type :=
| UserRead | AssetUpload | AssetRead | AlbumCreate | AlbumRead
| AlbumUpdate | AlbumAssetCreate.

Module FlyWorkerJobResponseDto.
Record t : Type := mk {
  id : string;
  machineId : string;
  volumeId : string
}.
End FlyWorkerJobResponseDto.

(** ** Exceptions *)

Inductive exn : Type :=
| Error (message : string)
| RangeError (message : string)
| TypeError (message : string).

(** [`${error}`]. *)
Definition exn_to_string (e : exn) : string :=
  match e with
  | Error m => "Error: " ++ m
  | RangeError m => "RangeError: " ++ m
  | TypeError m => "TypeError: " ++ m
  end.

Inductive Result (A : Type) : Type :=
| Ok (a : A)
| Throw (e : exn).
Arguments Ok {A} a.
Arguments Throw {A} e.

(** ** The collaborators of the service

    Every request that leaves the two services is a [call]: the endpoints of
    the Fly Machines API behind [FlyWorkerService.request] (the name
    [vol_<time>] that [createVolume] sends along is left out), the API-key
    repository, the crypto repository, the read of the user's Google Drive
    tokens ([getGoogleDriveTokens]), the system configuration, the process
    environment and the file system. *)

Inductive call : Type :=
| FlyCreateVolume (sizeGb : Z) (region : string)
| FlyDeleteVolume (volumeId : string)
| FlyCreateMachine (config : MachineConfig.t)
| FlyStopMachine (machineId : string)
| FlyDeleteMachine (machineId : string)
| ApiKeyCreate (userId key name : string) (permissions : list Permission)
| ApiKeyDelete (userId id : string)
| RandomUUID
| RandomBytesAsText (n : Z)
| HashSha256 (s : string)
| GetGoogleDriveTokens (userId : string)
| GetConfig
| ProcessEnv (name : string)
| RemoveDir (path : string).

(** What each call resolves to when it does not throw. *)
Definition reply (c : call) : Type :=
  match c with
  | FlyCreateVolume _ _ => string
  | FlyDeleteVolume _ => unit
  | FlyCreateMachine _ => string
  | FlyStopMachine _ => unit
  | FlyDeleteMachine _ => unit
  | ApiKeyCreate _ _ _ _ => string
  | ApiKeyDelete _ _ => unit
  | RandomUUID => string
  | RandomBytesAsText _ => string
  | HashSha256 _ => string
  | GetGoogleDriveTokens _ => option DriveTokens.t
  | GetConfig => SystemConfig.t
  | ProcessEnv _ => option string
  | RemoveDir _ => unit
  end.

(** One entry of the log: a call that was made and how it ended. *)
Inductive event : Type :=
| Called (c : call) (r : Result (reply c)).

Definition event_call (e : event) : call :=
  match e with Called c _ => c end.

(** The environment answers each call, possibly depending on everything
    that was called before; it also holds the clock behind [new Date()] (the
    n-th reading) and [createHmac('sha256', key).update(msg).digest('hex')]
    of node:crypto. *)
Record Env : Type := {
  respond : list event -> forall c : call, Result (reply c);
  clock : nat -> string;
  hmac_sha256_hex : string -> string -> string
}.

(** The state that the service reads and writes: the system-metadata store
    (keyed by [FLY_WORKER_JOB_PREFIX + jobId]), the in-memory [jobs] map, the
    log of calls made so far, the number of clock readings, and the job ids
    whose cleanup was started in the background and not awaited. *)
Record World : Type := {
  store : gmap string FlyWorkerJobMetadata.t;
  jobs : gmap string ImportJob.t;
  log : list event;
  ticks : nat;
  background : list string
}.

Definition set_store (f : gmap string FlyWorkerJobMetadata.t -> gmap string FlyWorkerJobMetadata.t)
    (w : World) : World :=
  {| store := f (store w); jobs := jobs w; log := log w; ticks := ticks w;
     background := background w |}.
Definition set_jobs (f : gmap string ImportJob.t -> gmap string ImportJob.t)
    (w : World) : World :=
  {| store := store w; jobs := f (jobs w); log := log w; ticks := ticks w;
     background := background w |}.
Definition add_log (e : event) (w : World) : World :=
  {| store := store w; jobs := jobs w; log := log w ++ [e]; ticks := ticks w;
     background := background w |}.
Definition tick (w : World) : World :=
  {| store := store w; jobs := jobs w; log := log w; ticks := S (ticks w);
     background := background w |}.
Definition add_background (jobId : string) (w : World) : World :=
  {| store := store w; jobs := jobs w; log := log w; ticks := ticks w;
     background := background w ++ [jobId] |}.

(** ** The monad of asynchronous methods *)

Definition M (A : Type) : Type := Env -> World -> Result A * World.

Definition ret {A} (a : A) : M A := fun _ w => (Ok a, w).

Definition bind {A B} (m : M A) (k : A -> M B) : M B :=
  fun env w =>
    match m env w with
    | (Ok a, w') => k a env w'
    | (Throw e, w') => (Throw e, w')
    end.

Definition throw {A} (e : exn) : M A := fun _ w => (Throw e, w).

(** [try { m } catch (error) { h error }]. *)
Definition try_catch {A} (m : M A) (h : exn -> M A) : M A :=
  fun env w =>
    match m env w with
    | (Ok a, w') => (Ok a, w')
    | (Throw e, w') => h e env w'
    end.

Declare Scope monad_scope.
Delimit Scope monad_scope with monad.
Notation "x <- c1 ;; c2" := (bind c1 (fun x => c2))
  (at level 100, c1 at next level, right associativity) : monad_scope.
Notation "c1 ;; c2" := (bind c1 (fun _ => c2))
  (at level 100, right associativity) : monad_scope.
Local Open Scope monad_scope.

(** A [try] whose [catch] only logs. *)
Definition try_ (m : M unit) : M unit := try_catch m (fun _ => ret tt).

Definition perform (c : call) : M (reply c) :=
  fun env w => let r := respond env (log w) c in (r, add_log (Called c r) w).

(** [new Date().toISOString()]. *)
Definition Date_now : M string :=
  fun env w => (Ok (clock env (ticks w)), tick w).

Definition createHmac_sha256_hex (key msg : string) : M string :=
  fun env w => (Ok (hmac_sha256_hex env key msg), w).

(** The collaborators by their names in the source. *)
Definition randomUUID : M string := perform RandomUUID.
Definition randomBytesAsText (n : Z) : M string := perform (RandomBytesAsText n).
Definition hashSha256 (s : string) : M string := perform (HashSha256 s).
Definition apiKeyRepository_create (userId key name : string)
    (permissions : list Permission) : M string :=
  perform (ApiKeyCreate userId key name permissions).
Definition apiKeyRepository_delete (userId id : string) : M unit :=
  perform (ApiKeyDelete userId id).
Definition getGoogleDriveTokens (userId : string) : M (option DriveTokens.t) :=
  perform (GetGoogleDriveTokens userId).
Definition getConfig : M SystemConfig.t := perform GetConfig.
Definition process_env (name : string) : M (option string) :=
  perform (ProcessEnv name).
Definition rm (path : string) : M unit := perform (RemoveDir path).
Definition request_stop (machineId : string) : M unit :=
  perform (FlyStopMachine machineId).
Definition request_delete_machine (machineId : string) : M unit :=
  perform (FlyDeleteMachine machineId).

(** ** FlyWorkerService *)

Definition createVolume (sizeGb : Z) (region : string) : M string :=
  perform (FlyCreateVolume sizeGb region).

Definition deleteVolume (volumeId : string) : M unit :=
  perform (FlyDeleteVolume volumeId).

Definition createMachine (config : MachineConfig.t) : M string :=
  perform (FlyCreateMachine config).

Definition destroyMachine (machineId : string) : M unit :=
  try_ (request_stop machineId);;
  try_catch (request_delete_machine machineId) (fun error => throw error).

(** [JSON.stringify(fileIds)]. *)
Definition JSON_stringify_strings (l : list string) : string :=
  stableStringify (JArray (map JString l)).

Definition or_default (o : option string) (d : string) : string :=
  match o with
  | Some s => if truthy s then s else d
  | None => d
  end.

(** The configuration that [createWorker] passes to [createMachine]. *)
Definition worker_machine_config (config : CreateWorkerConfig.t) (region volumeId : string)
    : MachineConfig.t :=
  {| MachineConfig.name := "import-" ++ slice0 8 (CreateWorkerConfig.jobId config);
     MachineConfig.region := region;
     MachineConfig.volumeId := volumeId;
     MachineConfig.volumePath := "/data";
     MachineConfig.env :=
       [ ("WORKER_JOB_ID", CreateWorkerConfig.jobId config);
         ("WORKER_FILE_IDS", JSON_stringify_strings (CreateWorkerConfig.fileIds config));
         ("WORKER_ACCESS_TOKEN", CreateWorkerConfig.accessToken config);
         ("WORKER_REFRESH_TOKEN",
            or_default (CreateWorkerConfig.refreshToken config) EmptyString);
         ("GOOGLE_CLIENT_ID", CreateWorkerConfig.googleClientId config);
         ("GOOGLE_CLIENT_SECRET", CreateWorkerConfig.googleClientSecret config);
         ("IMMICH_SERVER_URL", CreateWorkerConfig.immichServerUrl config);
         ("IMMICH_API_KEY", CreateWorkerConfig.immichApiKey config);
         ("WEBHOOK_URL", CreateWorkerConfig.webhookUrl config);
         ("WEBHOOK_SECRET", CreateWorkerConfig.webhookSecret config);
         ("VOLUME_PATH", "/data") ];
     MachineConfig.memoryMb := None;
     MachineConfig.cpus := None |}.

(** Create a complete worker setup: volume + machine. *)
Definition createWorker (config : CreateWorkerConfig.t) : M (string * string) :=
  let region := or_default (CreateWorkerConfig.region config) "ord" in
  let volumeSizeGb := calculateVolumeSizeGb (CreateWorkerConfig.fileSizes config) in
  volumeId <- createVolume volumeSizeGb region;;
  try_catch
    (machineId <- createMachine (worker_machine_config config region volumeId);;
     ret (machineId, volumeId))
    (fun error =>
       try_ (deleteVolume volumeId);;
       throw error).

(** The wait of two seconds between the two steps changes nothing in the
    world and is left out. *)
Definition cleanupWorker (machineId volumeId : string) : M unit :=
  try_ (destroyMachine machineId);;
  try_ (deleteVolume volumeId).

(** ** GooglePhotosImportService: persistence helpers *)

Definition FLY_WORKER_JOB_PREFIX : string := "fly-worker-job:".

Definition job_key (jobId : string) : string := FLY_WORKER_JOB_PREFIX ++ jobId.

Definition saveWorkerJob (job : FlyWorkerJobMetadata.t) : M unit :=
  fun _ w =>
    (Ok tt, set_store (insert (job_key (FlyWorkerJobMetadata.jobId job)) job) w).

Definition getWorkerJob (jobId : string) : M (option FlyWorkerJobMetadata.t) :=
  fun _ w => (Ok (store w !! job_key jobId), w).

Definition deleteWorkerJob (jobId : string) : M unit :=
  fun _ w => (Ok tt, set_store (delete (job_key jobId)) w).

(** ** Activity timeline *)

(** [events.slice(-n)]. *)
Definition slice_last {A} (n : nat) (l : list A) : list A :=
  drop (length l - n) l.

Definition push_event (e : ActivityEventDto.t) (events : list ActivityEventDto.t)
    : list ActivityEventDto.t :=
  let events := (events ++ [e])%list in
  if (100 <? length events)%nat then slice_last 100 events else events.

Definition job_events (job : FlyWorkerJobMetadata.t) : list ActivityEventDto.t :=
  GooglePhotosImportProgressDto.events (FlyWorkerJobMetadata.progress job).

Definition job_errors (job : FlyWorkerJobMetadata.t) : list string :=
  GooglePhotosImportProgressDto.errors (FlyWorkerJobMetadata.progress job).

Definition update_progress
    (f : GooglePhotosImportProgressDto.t -> GooglePhotosImportProgressDto.t)
    (job : FlyWorkerJobMetadata.t) : FlyWorkerJobMetadata.t :=
  FlyWorkerJobMetadata.set_progress (f (FlyWorkerJobMetadata.progress job)) job.

Definition addEvent (job : FlyWorkerJobMetadata.t) (type : ActivityEventType)
    (message : string) : M FlyWorkerJobMetadata.t :=
  now <- Date_now;;
  ret (update_progress
         (fun p => GooglePhotosImportProgressDto.set_events
                     (push_event (ActivityEventDto.mk now type message)
                                 (GooglePhotosImportProgressDto.events p)) p)
         job).

(** [for (const x of xs) { job = step(job, x) }]. *)
Fixpoint for_each {A S} (xs : list A) (step : S -> A -> M S) (s : S) : M S :=
  match xs with
  | [] => ret s
  | x :: rest => s' <- step s x;; for_each rest step s'
  end.

(** ** Webhook authentication *)

(** [Buffer.from(s)]: the UTF-8 encoding of a string of code units below 256. *)
Definition utf8_unit (n : N) : list N :=
  if (n <? 128)%N then [n] else [192 + n / 64; 128 + n mod 64]%N.

Fixpoint Buffer_from (s : string) : list N :=
  match s with
  | EmptyString => []
  | String c s' => utf8_unit (N_of_ascii c) ++ Buffer_from s'
  end.

(** [crypto.timingSafeEqual(a, b)] throws when the byte lengths differ. *)
Definition timingSafeEqual (a b : list N) : M bool :=
  if bool_decide (length a = length b)
  then ret (bool_decide (a = b))
  else throw (RangeError "Input buffers must have the same byte length").

Definition phase_name (p : Phase) : string :=
  match p with
  | ph_downloading => "downloading"
  | ph_processing => "processing"
  | ph_complete => "complete"
  | ph_failed => "failed"
  end.

(** A property that is [undefined] is left out by [JSON.stringify]. *)
Definition opt_prop {A} (k : string) (f : A -> json) (o : option A)
    : list (string * json) :=
  match o with Some a => [(k, f a)] | None => [] end.

Definition WorkerProgressPayloadDto_json (p : WorkerProgressPayloadDto.t) : json :=
  JObject ([ ("current", JNumber (WorkerProgressPayloadDto.current p));
             ("total", JNumber (WorkerProgressPayloadDto.total p)) ]
           ++ opt_prop "currentFile" JString (WorkerProgressPayloadDto.currentFile p))%list.

Definition WorkerProgressDto_json (p : WorkerProgressDto.t) : json :=
  JObject ([ ("jobId", JString (WorkerProgressDto.jobId p));
             ("phase", JString (phase_name (WorkerProgressDto.phase p)));
             ("progress", WorkerProgressPayloadDto_json (WorkerProgressDto.progress p)) ]
           ++ opt_prop "bytesDownloaded" JNumber (WorkerProgressDto.bytesDownloaded p)
           ++ opt_prop "totalBytes" JNumber (WorkerProgressDto.totalBytes p)
           ++ opt_prop "photosImported" JNumber (WorkerProgressDto.photosImported p)
           ++ opt_prop "albumsFound" JNumber (WorkerProgressDto.albumsFound p)
           ++ opt_prop "errors" (fun l => JArray (map JString l))
                (WorkerProgressDto.errors p))%list.

(** The signature that [handleWorkerWebhook] expects for a payload. *)
Definition expectedSignature (env : Env) (secret : string) (payload : WorkerProgressDto.t)
    : string :=
  hmac_sha256_hex env secret (stableStringify (WorkerProgressDto_json payload)).

(** ** GooglePhotosImportService: the Fly worker methods *)

Definition status_of_phase (phase : Phase) : FlyWorkerJobStatus :=
  match phase with
  | ph_complete => st_complete
  | ph_failed => st_failed
  | ph_downloading => st_downloading
  | ph_processing => st_processing
  end.

Definition phase_eqb (a b : Phase) : bool :=
  match a, b with
  | ph_downloading, ph_downloading | ph_processing, ph_processing
  | ph_complete, ph_complete | ph_failed, ph_failed => true
  | _, _ => false
  end.

Definition is_terminal_phase (phase : Phase) : bool :=
  phase_eqb phase ph_complete || phase_eqb phase ph_failed.

(** [x || 0] on a number. *)
Definition or_zero (x : Z) : Z := if (x =? 0)%Z then 0 else x.

Definition permissions : list Permission :=
  [UserRead; AssetUpload; AssetRead; AlbumCreate; AlbumRead; AlbumUpdate;
   AlbumAssetCreate].

Definition createTemporaryApiKey (userId : string) : M (string * string) :=
  token <- randomBytesAsText 32;;
  tokenHashed <- hashSha256 token;;
  id <- apiKeyRepository_create userId tokenHashed
          "Google Photos Import (temporary)" permissions;;
  ret (id, token).

(** Clean up Fly worker resources. *)
Definition cleanupWorkerJob (jobId : string) : M unit :=
  found <- getWorkerJob jobId;;
  match found with
  | None => ret tt
  | Some job =>
      now <- Date_now;;
      let job := FlyWorkerJobMetadata.set_updatedAt now
                   (FlyWorkerJobMetadata.set_status st_cleanup job) in
      saveWorkerJob job;;
      (if truthy (FlyWorkerJobMetadata.tempApiKeyId job)
       then try_ (apiKeyRepository_delete (FlyWorkerJobMetadata.userId job)
                    (FlyWorkerJobMetadata.tempApiKeyId job))
       else ret tt);;
      (if truthy (FlyWorkerJobMetadata.machineId job)
          && truthy (FlyWorkerJobMetadata.volumeId job)
       then try_ (cleanupWorker (FlyWorkerJobMetadata.machineId job)
                    (FlyWorkerJobMetadata.volumeId job))
       else ret tt);;
      now <- Date_now;;
      saveWorkerJob (FlyWorkerJobMetadata.set_updatedAt now job)
  end.

(** [this.cleanupWorkerJob(jobId).catch(...)] without [await]: the cleanup is
    started and the caller goes on.  This is the state at the return of the
    handler; the job id waits in [background] for the run of the cleanup,
    which [settle] and [while_cleanup_runs] below give: it writes the record
    that it read, also after other requests have been handled. *)
Definition dispatch_cleanup (jobId : string) : M unit :=
  fun _ w => (Ok tt, add_background jobId w).

(** Handle webhook progress updates from Fly worker.

    The method is given in four parts, in the order of the source:
    [mergeProgress] (the assignments under "Update job progress", up to
    [job.progress.errors.push(...errors)]), [recordEvents] (every call of
    [addEvent]), [applyWorkerWebhook] (all that follows the signature check)
    and [handleWorkerWebhook] itself. *)

Definition mergeProgress (payload : WorkerProgressDto.t) (job : FlyWorkerJobMetadata.t)
    : FlyWorkerJobMetadata.t :=
  let phase := WorkerProgressDto.phase payload in
  let progress := WorkerProgressDto.progress payload in
  let job := FlyWorkerJobMetadata.set_status (status_of_phase phase) job in
  let job := update_progress (GooglePhotosImportProgressDto.set_phase phase) job in
  let job := update_progress
               (GooglePhotosImportProgressDto.set_current
                  (WorkerProgressPayloadDto.current progress)) job in
  let job := update_progress
               (GooglePhotosImportProgressDto.set_total
                  (WorkerProgressPayloadDto.total progress)) job in
  let job := update_progress
               (GooglePhotosImportProgressDto.set_currentFile
                  (WorkerProgressPayloadDto.currentFile progress)) job in
  let job := update_progress
               (GooglePhotosImportProgressDto.set_bytesDownloaded
                  (WorkerProgressDto.bytesDownloaded payload)) job in
  let job := update_progress
               (GooglePhotosImportProgressDto.set_totalBytes
                  (WorkerProgressDto.totalBytes payload)) job in
  let job := match WorkerProgressDto.photosImported payload with
             | Some n =>
                 update_progress (GooglePhotosImportProgressDto.set_photosImported n) job
             | None => job
             end in
  let job := match WorkerProgressDto.albumsFound payload with
             | Some n =>
                 update_progress (GooglePhotosImportProgressDto.set_albumsFound n) job
             | None => job
             end in
  match WorkerProgressDto.errors payload with
  | Some (e :: es) =>
      update_progress
        (fun p => GooglePhotosImportProgressDto.set_errors
                    ((GooglePhotosImportProgressDto.errors p ++ e :: es)%list) p)
        job
  | _ => job
  end.

Definition recordEvents (prevPhase : Phase) (prevCurrent : Z)
    (payload : WorkerProgressDto.t) (job : FlyWorkerJobMetadata.t)
    : M FlyWorkerJobMetadata.t :=
  let phase := WorkerProgressDto.phase payload in
  let progress := WorkerProgressDto.progress payload in
  let albumsFound := WorkerProgressDto.albumsFound payload in
  job <- match WorkerProgressDto.errors payload with
         | Some (e :: es) =>
             for_each (e :: es) (fun job error => addEvent job ev_error error) job
         | _ => ret job
         end;;
  job <- (if negb (phase_eqb phase prevPhase) then
            match phase with
            | ph_downloading =>
                addEvent job ev_info "Starting file downloads from Google Drive..."
            | ph_processing =>
                job <- addEvent job ev_success
                         ("Downloaded "
                          ++ pretty (WorkerProgressPayloadDto.total progress)
                          ++ " files");;
                addEvent job ev_info "Processing with immich-go..."
            | ph_complete =>
                addEvent job ev_success
                  ("Import complete! "
                   ++ pretty (GooglePhotosImportProgressDto.photosImported
                                (FlyWorkerJobMetadata.progress job))
                   ++ " photos imported.")
            | ph_failed => addEvent job ev_error "Import failed"
            end
          else ret job);;
  job <- (match WorkerProgressPayloadDto.currentFile progress with
          | Some file =>
              if phase_eqb phase ph_downloading && truthy file
                 && negb (WorkerProgressPayloadDto.current progress =? prevCurrent)%Z
              then addEvent job ev_download ("Downloading " ++ file)
              else ret job
          | None => ret job
          end);;
  match albumsFound with
  | Some n =>
      if (or_zero (GooglePhotosImportProgressDto.albumsFound
                     (FlyWorkerJobMetadata.progress job)) <? n)%Z
      then addEvent job ev_album ("Found " ++ pretty n ++ " albums")
      else ret job
  | None => ret job
  end.

Definition applyWorkerWebhook (payload : WorkerProgressDto.t)
    (job : FlyWorkerJobMetadata.t) : M unit :=
  now <- Date_now;;
  let prevPhase :=
    GooglePhotosImportProgressDto.phase (FlyWorkerJobMetadata.progress job) in
  let prevCurrent :=
    GooglePhotosImportProgressDto.current (FlyWorkerJobMetadata.progress job) in
  let job := mergeProgress payload job in
  job <- recordEvents prevPhase prevCurrent payload job;;
  let job := FlyWorkerJobMetadata.set_updatedAt now job in
  saveWorkerJob job;;
  if is_terminal_phase (WorkerProgressDto.phase payload)
  then dispatch_cleanup (WorkerProgressDto.jobId payload)
  else ret tt.

Definition handleWorkerWebhook (signature : string) (payload : WorkerProgressDto.t)
    (rawBody : string) : M unit :=
  found <- getWorkerJob (WorkerProgressDto.jobId payload);;
  match found with
  | None => throw (Error "Job not found")
  | Some job =>
      let payloadString := stableStringify (WorkerProgressDto_json payload) in
      expected <- createHmac_sha256_hex (FlyWorkerJobMetadata.webhookSecret job)
                    payloadString;;
      same <- timingSafeEqual (Buffer_from signature) (Buffer_from expected);;
      if negb same then throw (Error "Invalid signature")
      else applyWorkerWebhook payload job
  end.

(** A keyed digest as [digest('hex')] of SHA-256 yields it: 64 characters
    among [0-9a-f]. *)
Definition is_hex_char (c : ascii) : bool :=
  let n := N_of_ascii c in
  (((48 <=? n) && (n <=? 57)) || ((97 <=? n) && (n <=? 102)))%N.

Fixpoint all_hex (s : string) : bool :=
  match s with
  | EmptyString => true
  | String c s' => is_hex_char c && all_hex s'
  end.

Definition is_hex_digest (s : string) : bool :=
  (String.length s =? 64)%nat && all_hex s.

(** Get progress for a Fly worker job. *)
Definition getJobProgress (jobId : string) : M (option GooglePhotosImportProgressDto.t) :=
  fun _ w => (Ok (ImportJob.progress <$> jobs w !! jobId), w).

Definition getWorkerJobProgress (jobId : string)
    : M (option GooglePhotosImportProgressDto.t) :=
  found <- getWorkerJob jobId;;
  match found with
  | None => getJobProgress jobId
  | Some job => ret (Some (FlyWorkerJobMetadata.progress job))
  end.

(** *** The cleanup that a webhook starts, and the requests handled meanwhile

    [this.cleanupWorkerJob(jobId).catch(...)] is not awaited: the handler
    returns, and the cleanup goes on while the server handles other
    requests.  [cleanupWorkerJob] gives the event loop back at each [await];
    its steps, for the record [job] that it read at its start, are: mark the
    record and save it; release the key, the machine and the volume (with
    the wait of two seconds); save the record that it holds once more.  The
    last save writes the record as the cleanup read it, not as the store has
    it by then. *)

Definition cleanup_mark (job : FlyWorkerJobMetadata.t) : M FlyWorkerJobMetadata.t :=
  now <- Date_now;;
  let job := FlyWorkerJobMetadata.set_updatedAt now
               (FlyWorkerJobMetadata.set_status st_cleanup job) in
  saveWorkerJob job;;
  ret job.

Definition cleanup_release (job : FlyWorkerJobMetadata.t) : M unit :=
  (if truthy (FlyWorkerJobMetadata.tempApiKeyId job)
   then try_ (apiKeyRepository_delete (FlyWorkerJobMetadata.userId job)
                (FlyWorkerJobMetadata.tempApiKeyId job))
   else ret tt);;
  (if truthy (FlyWorkerJobMetadata.machineId job)
      && truthy (FlyWorkerJobMetadata.volumeId job)
   then try_ (cleanupWorker (FlyWorkerJobMetadata.machineId job)
                (FlyWorkerJobMetadata.volumeId job))
   else ret tt).

Definition cleanup_finish (job : FlyWorkerJobMetadata.t) : M unit :=
  now <- Date_now;;
  saveWorkerJob (FlyWorkerJobMetadata.set_updatedAt now job).

(** A request that the server handles: what it returns or throws goes to
    its own caller. *)
Definition handled {A} (request : M A) : M (Result A) :=
  fun env w => let (r, w') := request env w in (Ok r, w').

Definition set_background (started : list string) (w : World) : World :=
  {| store := store w; jobs := jobs w; log := log w; ticks := ticks w;
     background := started |}.

(** The cleanup that was started first and has not run yet. *)
Definition next_background : M (option string) :=
  fun _ w =>
    match background w with
    | [] => (Ok None, w)
    | jobId :: rest => (Ok (Some jobId), set_background rest w)
    end.

(** The cleanup that was started runs to its end before anything else is
    handled; what it throws is only logged. *)
Definition settle : M unit :=
  started <- next_background;;
  match started with
  | Some jobId => try_ (cleanupWorkerJob jobId)
  | None => ret tt
  end.

(** The cleanup that was started runs, and [request] is handled while the
    cleanup waits, after its first save. *)
Definition while_cleanup_runs {A} (request : M A) : M (Result A) :=
  started <- next_background;;
  match started with
  | None => handled request
  | Some jobId =>
      found <- getWorkerJob jobId;;
      match found with
      | None => handled request
      | Some job =>
          job <- cleanup_mark job;;
          r <- handled request;;
          cleanup_release job;;
          cleanup_finish job;;
          ret r
      end
  end.


Definition overlapping (first second : M unit) : M (Result unit * Result unit) :=
  r1 <- handled first;;
  r2 <- while_cleanup_runs second;;
  settle;;
  ret (r1, r2).

(** *** Cancelling *)

Definition tempDir : string := "/tmp/immich-google-photos-import".

(** [path.join(dir, name)] for a plain file name. *)
Definition path_join (dir name : string) : string := dir ++ "/" ++ name.

Definition cleanupJob (job : ImportJob.t) : M unit :=
  (match ImportJob.tempApiKeyId job with
   | Some keyId =>
       if truthy keyId
       then try_ (apiKeyRepository_delete (ImportJob.userId job) keyId)
       else ret tt
   | None => ret tt
   end);;
  try_ (rm (path_join tempDir (ImportJob.id job))).

Definition jobs_get (jobId : string) : M (option ImportJob.t) :=
  fun _ w => (Ok (jobs w !! jobId), w).

(** The jobs of the map are objects that are changed in place: a change to
    [job] is a change to the entry of the map. *)
Definition jobs_update (jobId : string) (job : ImportJob.t) : M unit :=
  fun _ w => (Ok tt, set_jobs (insert jobId job) w).

Definition cancelled (job : ImportJob.t) : ImportJob.t :=
  {| ImportJob.id := ImportJob.id job;
     ImportJob.userId := ImportJob.userId job;
     ImportJob.status := st_failed;
     ImportJob.progress :=
       GooglePhotosImportProgressDto.set_errors
         (GooglePhotosImportProgressDto.errors (ImportJob.progress job)
          ++ ["Cancelled by user"])%list
         (ImportJob.progress job);
     ImportJob.createdAt := ImportJob.createdAt job;
     ImportJob.driveFileIds := ImportJob.driveFileIds job;
     ImportJob.localFiles := ImportJob.localFiles job;
     ImportJob.tempApiKeyId := ImportJob.tempApiKeyId job;
     ImportJob.abortController :=
       match ImportJob.abortController job with
       | Some _ => Some true
       | None => None
       end |}.

Definition cancelJob (jobId : string) : M unit :=
  found <- jobs_get jobId;;
  match found with
  | Some job =>
      let job := cancelled job in
      jobs_update jobId job;;
      cleanupJob job
  | None => ret tt
  end.

(** Cancel a Fly worker job. *)
Definition cancelWorkerJob (jobId : string) : M unit :=
  found <- getWorkerJob jobId;;
  match found with
  | None => cancelJob jobId
  | Some job =>
      let job := FlyWorkerJobMetadata.set_status st_failed job in
      let job := update_progress
                   (fun p => GooglePhotosImportProgressDto.set_errors
                      (GooglePhotosImportProgressDto.errors p
                       ++ ["Cancelled by user"])%list p) job in
      now <- Date_now;;
      let job := FlyWorkerJobMetadata.set_updatedAt now job in
      saveWorkerJob job;;
      cleanupWorkerJob jobId
  end.

(** *** Starting a job *)

(** Create an import job using an ephemeral Fly worker.  Inside the [try]
    only [createWorker] can throw, so the [catch] sees [jobMetadata] as it
    was saved before the [try]. *)
Definition createImportJobWithFlyWorker (userId : string) (fileIds : list string)
    (fileSizes : list Z) : M FlyWorkerJobResponseDto.t :=
  jobId <- randomUUID;;
  webhookSecret <- randomBytesAsText 32;;
  tokens <- getGoogleDriveTokens userId;;
  match tokens with
  | None => throw (Error "Google Drive not connected")
  | Some tokens =>
      config <- getConfig;;
      if negb (SystemConfig.oauth_enabled config
               && truthy (SystemConfig.oauth_clientId config)
               && truthy (SystemConfig.oauth_clientSecret config))
      then throw (Error
             "OAuth not configured. Please set up OAuth in Administration > Settings.")
      else
        apiKey <- createTemporaryApiKey userId;;
        serverUrl <- (if truthy (SystemConfig.server_externalDomain config)
                      then ret (Some (SystemConfig.server_externalDomain config))
                      else process_env "IMMICH_URL");;
        if negb (truthy (or_default serverUrl EmptyString))
        then throw (Error "IMMICH_URL not configured")
        else
          let serverUrl := or_default serverUrl EmptyString in
          let webhookUrl := serverUrl ++ "/api/google-photos/worker-webhook" in
          now <- Date_now;;
          let jobMetadata :=
            {| FlyWorkerJobMetadata.jobId := jobId;
               FlyWorkerJobMetadata.userId := userId;
               FlyWorkerJobMetadata.machineId := EmptyString;
               FlyWorkerJobMetadata.volumeId := EmptyString;
               FlyWorkerJobMetadata.status := st_creating;
               FlyWorkerJobMetadata.progress :=
                 {| GooglePhotosImportProgressDto.phase := ph_downloading;
                    GooglePhotosImportProgressDto.current := 0;
                    GooglePhotosImportProgressDto.total := Z.of_nat (length fileIds);
                    GooglePhotosImportProgressDto.currentFile := None;
                    GooglePhotosImportProgressDto.albumsFound := 0;
                    GooglePhotosImportProgressDto.photosImported := 0;
                    GooglePhotosImportProgressDto.bytesDownloaded := None;
                    GooglePhotosImportProgressDto.totalBytes := None;
                    GooglePhotosImportProgressDto.errors := [];
                    GooglePhotosImportProgressDto.events :=
                      [ ActivityEventDto.mk now ev_info "Starting import job..." ] |};
               FlyWorkerJobMetadata.webhookSecret := webhookSecret;
               FlyWorkerJobMetadata.tempApiKeyId := fst apiKey;
               FlyWorkerJobMetadata.createdAt := now;
               FlyWorkerJobMetadata.updatedAt := now |} in
          saveWorkerJob jobMetadata;;
          try_catch
            (created <- createWorker
               {| CreateWorkerConfig.jobId := jobId;
                  CreateWorkerConfig.fileIds := fileIds;
                  CreateWorkerConfig.fileSizes := fileSizes;
                  CreateWorkerConfig.accessToken := DriveTokens.accessToken tokens;
                  CreateWorkerConfig.refreshToken := DriveTokens.refreshToken tokens;
                  CreateWorkerConfig.immichApiKey := snd apiKey;
                  CreateWorkerConfig.webhookUrl := webhookUrl;
                  CreateWorkerConfig.webhookSecret := webhookSecret;
                  CreateWorkerConfig.immichServerUrl := serverUrl;
                  CreateWorkerConfig.googleClientId := SystemConfig.oauth_clientId config;
                  CreateWorkerConfig.googleClientSecret :=
                    SystemConfig.oauth_clientSecret config;
                  CreateWorkerConfig.region := None |};;
             let machineId := fst created in
             let volumeId := snd created in
             let jobMetadata := FlyWorkerJobMetadata.set_machineId machineId jobMetadata in
             let jobMetadata := FlyWorkerJobMetadata.set_volumeId volumeId jobMetadata in
             let jobMetadata := FlyWorkerJobMetadata.set_status st_downloading jobMetadata in
             now <- Date_now;;
             let jobMetadata := FlyWorkerJobMetadata.set_updatedAt now jobMetadata in
             jobMetadata <- addEvent jobMetadata ev_success "Worker started successfully";;
             jobMetadata <- addEvent jobMetadata ev_info
                              ("Preparing to download "
                               ++ pretty (length fileIds) ++ " files...");;
             saveWorkerJob jobMetadata;;
             ret (FlyWorkerJobResponseDto.mk jobId machineId volumeId))
            (fun error =>
               let jobMetadata := FlyWorkerJobMetadata.set_status st_failed jobMetadata in
               let jobMetadata :=
                 update_progress
                   (fun p => GooglePhotosImportProgressDto.set_errors
                      (GooglePhotosImportProgressDto.errors p
                       ++ [("Failed to create worker: " ++ exn_to_string error)%string])%list
                      p)
                   jobMetadata in
               now <- Date_now;;
               let jobMetadata := FlyWorkerJobMetadata.set_updatedAt now jobMetadata in
               saveWorkerJob jobMetadata;;
               try_ (apiKeyRepository_delete userId (fst apiKey));;
               throw error)
  end.

(** ** Auxiliary definitions for the statements *)

(** The events inserted by a run of [addEvent] calls. *)
Definition addEvents (inserts : list (ActivityEventType * string))
    (job : FlyWorkerJobMetadata.t) : M FlyWorkerJobMetadata.t :=
  for_each inserts (fun job i => addEvent job (fst i) (snd i)) job.

(** The k-th insertion is stamped with the k-th reading of the clock. *)
Fixpoint stamped (env : Env) (t : nat) (inserts : list (ActivityEventType * string))
    : list ActivityEventDto.t :=
  match inserts with
  | [] => []
  | i :: rest => ActivityEventDto.mk (clock env t) (fst i) (snd i) :: stamped env (S t) rest
  end.

Definition with_events (evs : list ActivityEventDto.t) (job : FlyWorkerJobMetadata.t)
    : FlyWorkerJobMetadata.t :=
  update_progress (GooglePhotosImportProgressDto.set_events evs) job.

(** Pushing a run of events, one after the other. *)
Definition push_events (added evs : list ActivityEventDto.t) : list ActivityEventDto.t :=
  fold_left (fun evs e => push_event e evs) added evs.

(** A computation on a job that only inserts events into its timeline (and
    reads the clock). *)
Definition only_adds_events (job : FlyWorkerJobMetadata.t)
    (m : M FlyWorkerJobMetadata.t) : Prop :=
  forall env w, exists added n,
    m env w = (Ok (with_events (push_events added (job_events job)) job),
               Nat.iter n tick w).

(** The record that a verified webhook leaves in the store: the merged
    progress, a timeline that was only pushed to, and a new [updatedAt]. *)
Definition webhook_result (env : Env) (w : World) (payload : WorkerProgressDto.t)
    (job : FlyWorkerJobMetadata.t) (added : list ActivityEventDto.t)
    : FlyWorkerJobMetadata.t :=
  FlyWorkerJobMetadata.set_updatedAt (clock env (ticks w))
    (with_events (push_events added (job_events job)) (mergeProgress payload job)).

(** A log entry that is a revocation of a credential. *)
Definition is_revocation (userId keyId : string) (e : event) : Prop :=
  event_call e = ApiKeyDelete userId keyId.

(** The record that a cleanup leaves in the store. *)
Definition cleaned (env : Env) (w : World) (job : FlyWorkerJobMetadata.t)
    : FlyWorkerJobMetadata.t :=
  FlyWorkerJobMetadata.set_updatedAt (clock env (S (ticks w)))
    (FlyWorkerJobMetadata.set_updatedAt (clock env (ticks w))
       (FlyWorkerJobMetadata.set_status st_cleanup job)).

(** The record that [cancelWorkerJob] persists before it cleans up. *)
Definition cancelled_worker (now : string) (job : FlyWorkerJobMetadata.t)
    : FlyWorkerJobMetadata.t :=
  FlyWorkerJobMetadata.set_updatedAt now
    (update_progress
       (fun p => GooglePhotosImportProgressDto.set_errors
                   (GooglePhotosImportProgressDto.errors p ++ ["Cancelled by user"])%list p)
       (FlyWorkerJobMetadata.set_status st_failed job)).

(** The volume id that a log entry reports as created, if it is a
    successful volume creation. *)
Definition created_volume (e : event) : option string :=
  match e with
  | Called c r =>
      match c as c0 return Result (reply c0) -> option string with
      | FlyCreateVolume _ _ => fun r => match r with Ok v => Some v | Throw _ => None end
      | _ => fun _ => None
      end r
  end.

(** The error of a log entry that is a failed machine creation. *)
Definition machine_failure (e : event) : option exn :=
  match e with
  | Called c r =>
      match c as c0 return Result (reply c0) -> option exn with
      | FlyCreateMachine _ => fun r => match r with Ok _ => None | Throw e => Some e end
      | _ => fun _ => None
      end r
  end.



(** ** Statements about cancelling and cleaning up

    The readings of the specification that the properties below compare
    with the code. *)

(** The calls logged between two worlds. *)
Definition calls_between (w w' : World) : list event :=
  drop (length (log w)) (log w').

Definition is_terminal_status (s : FlyWorkerJobStatus) : bool :=
  match s with
  | st_complete | st_failed | st_cleanup => true
  | _ => false
  end.

Definition persisted_status (w : World) (jobId : string) : option FlyWorkerJobStatus :=
  FlyWorkerJobMetadata.status <$> store w !! job_key jobId.

(** "Calling Cleanup twice in sequence produces the same final persisted
    status as calling it once, the second call raises no error, and the
    second call does not invoke credential revocation again if the first
    call's revocation already reported success." *)
Definition cleanup_never_revokes_twice (env : Env) (w : World) (jobId : string) : Prop :=
  forall r1 w1 r2 w2,
    cleanupWorkerJob jobId env w = (r1, w1) ->
    cleanupWorkerJob jobId env w1 = (r2, w2) ->
    persisted_status w2 jobId = persisted_status w1 jobId
    /\ r2 = Ok tt
    /\ (forall userId keyId,
          Called (ApiKeyDelete userId keyId) (Ok tt) ∈ calls_between w w1 ->
          forall r, Called (ApiKeyDelete userId keyId) r ∉ calls_between w1 w2).

(** "For every authenticated webhook whose payload omits bytesDownloaded
    (respectively totalBytes, photosImported, albumsFound), the job's
    corresponding stored progress field is left unchanged." *)
Definition omitted_fields_unchanged (env : Env) (w : World)
    (payload : WorkerProgressDto.t) (rawBody : string) : Prop :=
  forall job w' job',
    store w !! job_key (WorkerProgressDto.jobId payload) = Some job ->
    handleWorkerWebhook
      (expectedSignature env (FlyWorkerJobMetadata.webhookSecret job) payload)
      payload rawBody env w = (Ok tt, w') ->
    store w' !! job_key (WorkerProgressDto.jobId payload) = Some job' ->
    let old := FlyWorkerJobMetadata.progress job in
    let new := FlyWorkerJobMetadata.progress job' in
    (WorkerProgressDto.bytesDownloaded payload = None ->
     GooglePhotosImportProgressDto.bytesDownloaded new
     = GooglePhotosImportProgressDto.bytesDownloaded old)
    /\ (WorkerProgressDto.totalBytes payload = None ->
        GooglePhotosImportProgressDto.totalBytes new
        = GooglePhotosImportProgressDto.totalBytes old)
    /\ (WorkerProgressDto.photosImported payload = None ->
        GooglePhotosImportProgressDto.photosImported new
        = GooglePhotosImportProgressDto.photosImported old)
    /\ (WorkerProgressDto.albumsFound payload = None ->
        GooglePhotosImportProgressDto.albumsFound new
        = GooglePhotosImportProgressDto.albumsFound old).

(** "Cancelling a job that is unknown or already in a terminal status is a
    no-op that returns success without modifying any state", and "calling
    cancel twice is equivalent to calling it once". *)
Definition cancel_is_idempotent (env : Env) (w : World) (jobId : string) : Prop :=
  (forall job,
      store w !! job_key jobId = Some job ->
      is_terminal_status (FlyWorkerJobMetadata.status job) = true ->
      cancelWorkerJob jobId env w = (Ok tt, w))
  /\ (forall r1 w1 r2 w2,
        cancelWorkerJob jobId env w = (r1, w1) ->
        cancelWorkerJob jobId env w1 = (r2, w2) ->
        store w2 = store w1 /\ jobs w2 = jobs w1).


(** An object whose keys are array indices, given in lexicographic order. *)
Definition index_keys_example : json :=
  JObject [("10", JNumber 1); ("9", JNumber 2)].

(** ** An example environment and example records

    Used to run the definitions on concrete inputs. *)

(** A stand-in for the keyed digest of node:crypto with the shape of its
    output: 64 hexadecimal characters. *)
Fixpoint hex_of (digits : nat) (n : N) : string :=
  match digits with
  | O => EmptyString
  | S d => hex_of d (n / 16) ++ str1 (hex_digit (n mod 16))
  end.

Fixpoint mix (s : string) (acc : N) : N :=
  match s with
  | EmptyString => acc
  | String c s' => mix s' ((acc * 1000003 + N_of_ascii c + 1) mod 2 ^ 256)%N
  end.

Definition example_hmac (key msg : string) : string :=
  hex_of 64 (mix msg (mix key 0%N)).

Definition example_tokens : DriveTokens.t :=
  DriveTokens.mk "access-token" (Some "refresh-token") None.

Definition example_config : SystemConfig.t :=
  SystemConfig.mk true "client-id" "client-secret" "https://photos.example.org".

(** Every collaborator answers; the Fly API hands out the ids [vol_1] and
    [machine_1]. *)
Definition respond_ok (history : list event) (c : call) : Result (reply c) :=
  match c return Result (reply c) with
  | FlyCreateVolume _ _ => Ok "vol_1"
  | FlyDeleteVolume _ => Ok tt
  | FlyCreateMachine _ => Ok "machine_1"
  | FlyStopMachine _ => Ok tt
  | FlyDeleteMachine _ => Ok tt
  | ApiKeyCreate _ _ _ _ => Ok "key-1"
  | ApiKeyDelete _ _ => Ok tt
  | RandomUUID => Ok "8f14e45f-ceea-467f-a9d5-0123456789ab"
  | RandomBytesAsText _ => Ok "c2VjcmV0"
  | HashSha256 _ => Ok "hashed"
  | GetGoogleDriveTokens _ => Ok (Some example_tokens)
  | GetConfig => Ok example_config
  | ProcessEnv _ => Ok None
  | RemoveDir _ => Ok tt
  end.

(** As [respond_ok], but the Fly API refuses to create machines. *)
Definition respond_no_machine (history : list event) (c : call) : Result (reply c) :=
  match c return Result (reply c) with
  | FlyCreateMachine _ => Throw (Error "Fly API error: 422 insufficient capacity")
  | other => respond_ok history other
  end.

Definition example_clock (n : nat) : string := "2025-01-01T00:00:" ++ pretty n.

Definition env_ok : Env :=
  {| respond := respond_ok; clock := example_clock; hmac_sha256_hex := example_hmac |}.

Definition env_no_machine : Env :=
  {| respond := respond_no_machine; clock := example_clock;
     hmac_sha256_hex := example_hmac |}.

Definition example_jobId : string := "8f14e45f-ceea-467f-a9d5-0123456789ab".

Definition example_progress : GooglePhotosImportProgressDto.t :=
  {| GooglePhotosImportProgressDto.phase := ph_downloading;
     GooglePhotosImportProgressDto.current := 1;
     GooglePhotosImportProgressDto.total := 10;
     GooglePhotosImportProgressDto.currentFile := None;
     GooglePhotosImportProgressDto.albumsFound := 2;
     GooglePhotosImportProgressDto.photosImported := 7;
     GooglePhotosImportProgressDto.bytesDownloaded := Some 4096;
     GooglePhotosImportProgressDto.totalBytes := Some 65536;
     GooglePhotosImportProgressDto.errors := [];
     GooglePhotosImportProgressDto.events :=
       [ActivityEventDto.mk "2025-01-01T00:00:00" ev_info "Starting import job..."] |}.

Definition example_job (status : FlyWorkerJobStatus) : FlyWorkerJobMetadata.t :=
  {| FlyWorkerJobMetadata.jobId := example_jobId;
     FlyWorkerJobMetadata.userId := "user-1";
     FlyWorkerJobMetadata.machineId := "machine_1";
     FlyWorkerJobMetadata.volumeId := "vol_1";
     FlyWorkerJobMetadata.status := status;
     FlyWorkerJobMetadata.progress := example_progress;
     FlyWorkerJobMetadata.webhookSecret := "c2VjcmV0";
     FlyWorkerJobMetadata.tempApiKeyId := "key-1";
     FlyWorkerJobMetadata.createdAt := "2025-01-01T00:00:00";
     FlyWorkerJobMetadata.updatedAt := "2025-01-01T00:00:00" |}.

Definition empty_world : World :=
  {| store := ∅; jobs := ∅; log := []; ticks := 0; background := [] |}.

(** A world whose store holds [example_job] in the given status. *)
Definition example_world (status : FlyWorkerJobStatus) : World :=
  set_store (insert (job_key example_jobId) (example_job status)) empty_world.

Definition example_payload (current total : Z) : WorkerProgressDto.t :=
  {| WorkerProgressDto.jobId := example_jobId;
     WorkerProgressDto.phase := ph_downloading;
     WorkerProgressDto.progress := WorkerProgressPayloadDto.mk current total None;
     WorkerProgressDto.bytesDownloaded := None;
     WorkerProgressDto.totalBytes := None;
     WorkerProgressDto.photosImported := None;
     WorkerProgressDto.albumsFound := None;
     WorkerProgressDto.errors := None |}.

(** The machine configuration of the worker that [env_ok] leads to for the
    user [user-1] and the one file [file-1]. *)
Definition example_machine_config : MachineConfig.t :=
  worker_machine_config
    {| CreateWorkerConfig.jobId := example_jobId;
       CreateWorkerConfig.fileIds := ["file-1"];
       CreateWorkerConfig.fileSizes := [GiB];
       CreateWorkerConfig.accessToken := "access-token";
       CreateWorkerConfig.refreshToken := Some "refresh-token";
       CreateWorkerConfig.immichApiKey := "c2VjcmV0";
       CreateWorkerConfig.webhookUrl :=
         "https://photos.example.org/api/google-photos/worker-webhook";
       CreateWorkerConfig.webhookSecret := "c2VjcmV0";
       CreateWorkerConfig.immichServerUrl := "https://photos.example.org";
       CreateWorkerConfig.googleClientId := "client-id";
       CreateWorkerConfig.googleClientSecret := "client-secret";
       CreateWorkerConfig.region := None |}
    "ord" "vol_1".

(** The last update of a worker that is at 5 of 10: the import is
    complete. *)
Definition example_complete_payload : WorkerProgressDto.t :=
  {| WorkerProgressDto.jobId := example_jobId;
     WorkerProgressDto.phase := ph_complete;
     WorkerProgressDto.progress := WorkerProgressPayloadDto.mk 5 10 None;
     WorkerProgressDto.bytesDownloaded := None;
     WorkerProgressDto.totalBytes := None;
     WorkerProgressDto.photosImported := None;
     WorkerProgressDto.albumsFound := None;
     WorkerProgressDto.errors := None |}.

(** An update of the same worker that was sent before the last one and is
    received after it. *)
Definition example_late_payload : WorkerProgressDto.t :=
  {| WorkerProgressDto.jobId := example_jobId;
     WorkerProgressDto.phase := ph_processing;
     WorkerProgressDto.progress := WorkerProgressPayloadDto.mk 3 10 None;
     WorkerProgressDto.bytesDownloaded := None;
     WorkerProgressDto.totalBytes := None;
     WorkerProgressDto.photosImported := None;
     WorkerProgressDto.albumsFound := None;
     WorkerProgressDto.errors := Some ["one file skipped"] |}.

(** ** GooglePhotosImportService: the local path

    Of the path that runs immich-go on the server itself: the URL that
    immich-go is given and the reading of its output. *)

(** *** [getServerUrl] *)

Definition getServerUrl : M string :=
  config <- getConfig;;
  ret (or_default (Some (SystemConfig.server_externalDomain config))
         "http://localhost:2283").

(** A line feed. *)
Definition newline : string := String (ascii_of_nat 10) EmptyString.

(** *** The output of immich-go ([parseImmichGoOutput])

    The regular expressions of the method are given by the matchers below,
    for lines of code units below 256.  There the white space of [\s] and of
    [String.prototype.trim] is made of the code units 9 to 13, 32 and 160,
    the line terminators that [.] does not match are 10 and 13, and the
    flag [i] identifies the ASCII letters of the patterns with their other
    case only. *)

Definition is_digit (c : ascii) : bool :=
  let n := N_of_ascii c in ((48 <=? n) && (n <=? 57))%N.

Definition is_white_space (c : ascii) : bool :=
  let n := N_of_ascii c in
  (((9 <=? n) && (n <=? 13)) || (n =? 32) || (n =? 160))%N.

Definition is_line_terminator (c : ascii) : bool :=
  let n := N_of_ascii c in ((n =? 10) || (n =? 13))%N.

(** The lower case of a code unit below 256. *)
Definition lower (c : ascii) : ascii :=
  let n := N_of_ascii c in
  if (((65 <=? n) && (n <=? 90))
      || ((192 <=? n) && (n <=? 222) && negb (n =? 215)))%N
  then ascii_of_N (n + 32) else c.

(** [String.prototype.toLowerCase]. *)
Fixpoint toLowerCase (s : string) : string :=
  match s with
  | EmptyString => EmptyString
  | String c s' => String (lower c) (toLowerCase s')
  end.

(** The longest prefix whose code units satisfy [p], and what follows it. *)
Fixpoint span (p : ascii -> bool) (s : string) : string * string :=
  match s with
  | EmptyString => (EmptyString, EmptyString)
  | String c s' =>
      if p c then let (taken, rest) := span p s' in (String c taken, rest)
      else (EmptyString, s)
  end.

(** [s] starts with [pattern]: what follows it in [s]. *)
Fixpoint starts_with (pattern s : string) : option string :=
  match pattern, s with
  | EmptyString, _ => Some s
  | String p pattern', String c s' =>
      if Ascii.eqb p c then starts_with pattern' s' else None
  | String _ _, EmptyString => None
  end.

(** [s] starts with a lower-case [pattern], ASCII case ignored: what follows
    it in [s]. *)
Fixpoint starts_with_i (pattern s : string) : option string :=
  match pattern, s with
  | EmptyString, _ => Some s
  | String p pattern', String c s' =>
      if Ascii.eqb p (lower c) then starts_with_i pattern' s' else None
  | String _ _, EmptyString => None
  end.

(** The first alternative that matches at the start of [s]. *)
Fixpoint first_alternative (alternatives : list string) (s : string) : option string :=
  match alternatives with
  | [] => None
  | a :: rest =>
      match starts_with_i a s with
      | Some after => Some after
      | None => first_alternative rest s
      end
  end.

(** The leftmost place of [s] at which one of the alternatives matches:
    what follows the match. *)
Fixpoint search_i (alternatives : list string) (s : string) : option string :=
  match first_alternative alternatives s with
  | Some after => Some after
  | None =>
      match s with
      | EmptyString => None
      | String _ s' => search_i alternatives s'
      end
  end.

(** [String.prototype.includes]. *)
Fixpoint includes (pattern s : string) : bool :=
  match starts_with pattern s with
  | Some _ => true
  | None =>
      match s with
      | EmptyString => false
      | String _ s' => includes pattern s'
      end
  end.

(** [String.prototype.trim]. *)
Fixpoint trim_end (s : string) : string :=
  match s with
  | EmptyString => EmptyString
  | String c s' =>
      match trim_end s' with
      | EmptyString => if is_white_space c then EmptyString else String c EmptyString
      | kept => String c kept
      end
  end.

Definition trim (s : string) : string := trim_end (snd (span is_white_space s)).

(** [output.split('\n')]. *)
Definition push_char (c : ascii) (lines : list string) : list string :=
  match lines with
  | line :: rest => String c line :: rest
  | [] => [String c EmptyString]
  end.

Fixpoint split_lines (output : string) : list string :=
  match output with
  | EmptyString => [EmptyString]
  | String c output' =>
      if (N_of_ascii c =? 10)%N then EmptyString :: split_lines output'
      else push_char c (split_lines output')
  end.

(** [parseInt(digits, 10)] on a string of decimal digits (exact below
    2^53). *)
Definition parseInt (digits : string) : Z :=
  match digits_value 0 digits with
  | Some n => Z.of_N n
  | None => 0
  end.

(** [s.match(/(\d+)\/(\d+)/)]: the two groups of the leftmost match.  A
    match that starts at a given place takes all the digits that follow,
    then the slash, then all the digits that follow it. *)
Definition fraction_at (s : string) : option (string * string) :=
  let (numerator, rest) := span is_digit s in
  match numerator, rest with
  | String _ _, String c rest' =>
      if (N_of_ascii c =? 47)%N then
        match fst (span is_digit rest') with
        | EmptyString => None
        | denominator => Some (numerator, denominator)
        end
      else None
  | _, _ => None
  end.

Fixpoint match_fraction (s : string) : option (string * string) :=
  match fraction_at s with
  | Some groups => Some groups
  | None =>
      match s with
      | EmptyString => None
      | String _ s' => match_fraction s'
      end
  end.

(** The last code unit of [s] that is no line terminator. *)
Fixpoint last_in_line (s : string) : option ascii :=
  match s with
  | EmptyString => None
  | String c s' =>
      match last_in_line s' with
      | Some c' => Some c'
      | None => if is_line_terminator c then None else Some c
      end
  end.

(** [line.match(/(?:Uploading|Processing):\s*(.+)/i)]: the group of the
    match.  After the colon [\s*] takes all the white space; the group is
    what follows up to the next line terminator.  When nothing but white
    space follows the colon, [\s*] gives back its last code unit that is no
    line terminator, and the group is that code unit. *)
Definition match_file (line : string) : option string :=
  match search_i ["uploading:"; "processing:"] line with
  | None => None
  | Some after =>
      let (spaces, rest) := span is_white_space after in
      match rest with
      | String _ _ => Some (fst (span (fun c => negb (is_line_terminator c)) rest))
      | EmptyString =>
          match last_in_line spaces with
          | Some c => Some (String c EmptyString)
          | None => None
          end
      end
  end.

(** [line.match(/(?:Created|Found) album/i)] is not [null]. *)
Definition match_album (line : string) : bool :=
  match search_i ["created album"; "found album"] line with
  | Some _ => true
  | None => false
  end.

(** The body of the loop over the lines. *)
Definition parse_line (progress : GooglePhotosImportProgressDto.t) (line : string)
    : GooglePhotosImportProgressDto.t :=
  let progress :=
    match match_fraction line with
    | Some (current, total) =>
        GooglePhotosImportProgressDto.set_total (parseInt total)
          (GooglePhotosImportProgressDto.set_current (parseInt current) progress)
    | None => progress
    end in
  let progress :=
    match match_file line with
    | Some file => GooglePhotosImportProgressDto.set_currentFile (Some (trim file)) progress
    | None => progress
    end in
  let progress :=
    if match_album line
    then GooglePhotosImportProgressDto.set_albumsFound
           (GooglePhotosImportProgressDto.albumsFound progress + 1) progress
    else progress in
  if includes "error" (toLowerCase line)
  then GooglePhotosImportProgressDto.set_errors
         (GooglePhotosImportProgressDto.errors progress ++ [trim line])%list progress
  else progress.

Definition set_job_progress (progress : GooglePhotosImportProgressDto.t)
    (job : ImportJob.t) : ImportJob.t :=
  {| ImportJob.id := ImportJob.id job;
     ImportJob.userId := ImportJob.userId job;
     ImportJob.status := ImportJob.status job;
     ImportJob.progress := progress;
     ImportJob.createdAt := ImportJob.createdAt job;
     ImportJob.driveFileIds := ImportJob.driveFileIds job;
     ImportJob.localFiles := ImportJob.localFiles job;
     ImportJob.tempApiKeyId := ImportJob.tempApiKeyId job;
     ImportJob.abortController := ImportJob.abortController job |}.

Definition parseImmichGoOutput (job : ImportJob.t) (output : string) : ImportJob.t :=
  set_job_progress
    (fold_left parse_line (split_lines output) (ImportJob.progress job)) job.

(** ** Further auxiliary definitions for the statements *)

(** The requests that a cleanup makes for a record, in their order. *)
Definition cleanup_calls (job : FlyWorkerJobMetadata.t) : list call :=
  ((if truthy (FlyWorkerJobMetadata.tempApiKeyId job)
    then [ApiKeyDelete (FlyWorkerJobMetadata.userId job)
            (FlyWorkerJobMetadata.tempApiKeyId job)]
    else [])
   ++ (if truthy (FlyWorkerJobMetadata.machineId job)
          && truthy (FlyWorkerJobMetadata.volumeId job)
       then [FlyStopMachine (FlyWorkerJobMetadata.machineId job);
             FlyDeleteMachine (FlyWorkerJobMetadata.machineId job);
             FlyDeleteVolume (FlyWorkerJobMetadata.volumeId job)]
       else []))%list.

(** The insertions into the timeline that [handleWorkerWebhook] makes for a
    payload, in their order, for a job that was in phase [prevPhase] at
    [prevCurrent] and whose count of imported photos is [photosImported]
    once the payload is merged: one per reported error, then those of a
    change of phase, then the one of a new file being downloaded. *)
Definition error_inserts (payload : WorkerProgressDto.t)
    : list (ActivityEventType * string) :=
  map (pair ev_error) (default [] (WorkerProgressDto.errors payload)).

Definition transition_inserts (prevPhase : Phase) (photosImported : Z)
    (payload : WorkerProgressDto.t) : list (ActivityEventType * string) :=
  if negb (phase_eqb (WorkerProgressDto.phase payload) prevPhase) then
    match WorkerProgressDto.phase payload with
    | ph_downloading => [(ev_info, "Starting file downloads from Google Drive...")]
    | ph_processing =>
        [(ev_success,
          "Downloaded "
          ++ pretty (WorkerProgressPayloadDto.total (WorkerProgressDto.progress payload))
          ++ " files");
         (ev_info, "Processing with immich-go...")]
    | ph_complete =>
        [(ev_success, "Import complete! " ++ pretty photosImported ++ " photos imported.")]
    | ph_failed => [(ev_error, "Import failed")]
    end
  else [].

Definition download_inserts (prevCurrent : Z) (payload : WorkerProgressDto.t)
    : list (ActivityEventType * string) :=
  match WorkerProgressPayloadDto.currentFile (WorkerProgressDto.progress payload) with
  | Some file =>
      if phase_eqb (WorkerProgressDto.phase payload) ph_downloading && truthy file
         && negb (WorkerProgressPayloadDto.current (WorkerProgressDto.progress payload)
                  =? prevCurrent)%Z
      then [(ev_download, "Downloading " ++ file)]
      else []
  | None => []
  end.

Definition webhook_inserts (prevPhase : Phase) (prevCurrent photosImported : Z)
    (payload : WorkerProgressDto.t) : list (ActivityEventType * string) :=
  (error_inserts payload
   ++ transition_inserts prevPhase photosImported payload
   ++ download_inserts prevCurrent payload)%list.

(** Kinds of calls. *)
Definition is_fly_call (c : call) : bool :=
  match c with
  | FlyCreateVolume _ _ | FlyDeleteVolume _ | FlyCreateMachine _
  | FlyStopMachine _ | FlyDeleteMachine _ => true
  | _ => false
  end.

(** The calls that give something back: the revocation of a key and the
    requests that stop or delete a machine or delete a volume. *)
Definition is_release (c : call) : bool :=
  match c with
  | ApiKeyDelete _ _ | FlyDeleteVolume _ | FlyStopMachine _ | FlyDeleteMachine _ => true
  | _ => false
  end.

(** What a log entry reports as the answer of the token lookup, of the
    configuration and of the process environment. *)
Definition tokens_answer (e : event) : option (option DriveTokens.t) :=
  match e with
  | Called c r =>
      match c as c0 return Result (reply c0) -> option (option DriveTokens.t) with
      | GetGoogleDriveTokens _ =>
          fun r => match r with Ok t => Some t | Throw _ => None end
      | _ => fun _ => None
      end r
  end.

Definition config_answer (e : event) : option SystemConfig.t :=
  match e with
  | Called c r =>
      match c as c0 return Result (reply c0) -> option SystemConfig.t with
      | GetConfig => fun r => match r with Ok t => Some t | Throw _ => None end
      | _ => fun _ => None
      end r
  end.

Definition process_env_answer (e : event) : option (option string) :=
  match e with
  | Called c r =>
      match c as c0 return Result (reply c0) -> option (option string) with
      | ProcessEnv _ => fun r => match r with Ok t => Some t | Throw _ => None end
      | _ => fun _ => None
      end r
  end.

(** [!oauth.enabled || !oauth.clientId || !oauth.clientSecret]. *)
Definition oauth_configured (config : SystemConfig.t) : bool :=
  SystemConfig.oauth_enabled config
  && truthy (SystemConfig.oauth_clientId config)
  && truthy (SystemConfig.oauth_clientSecret config).

(** ** Further example environments and records *)

(** The argument of [createWorker] that [env_ok] leads to for the user
    [user-1] and the one file [file-1]. *)
Definition example_worker_config : CreateWorkerConfig.t :=
  {| CreateWorkerConfig.jobId := example_jobId;
     CreateWorkerConfig.fileIds := ["file-1"];
     CreateWorkerConfig.fileSizes := [GiB];
     CreateWorkerConfig.accessToken := "access-token";
     CreateWorkerConfig.refreshToken := Some "refresh-token";
     CreateWorkerConfig.immichApiKey := "c2VjcmV0";
     CreateWorkerConfig.webhookUrl :=
       "https://photos.example.org/api/google-photos/worker-webhook";
     CreateWorkerConfig.webhookSecret := "c2VjcmV0";
     CreateWorkerConfig.immichServerUrl := "https://photos.example.org";
     CreateWorkerConfig.googleClientId := "client-id";
     CreateWorkerConfig.googleClientSecret := "client-secret";
     CreateWorkerConfig.region := None |}.

(** The last update of a worker: the import is complete, with one error
    reported. *)
Definition example_update : WorkerProgressDto.t :=
  {| WorkerProgressDto.jobId := example_jobId;
     WorkerProgressDto.phase := ph_complete;
     WorkerProgressDto.progress := WorkerProgressPayloadDto.mk 10 10 None;
     WorkerProgressDto.bytesDownloaded := Some 65536;
     WorkerProgressDto.totalBytes := Some 65536;
     WorkerProgressDto.photosImported := Some 120;
     WorkerProgressDto.albumsFound := Some 3;
     WorkerProgressDto.errors := Some ["one file skipped"] |}.

(** Environments in which the import cannot start: the user has no Google
    Drive tokens; the server knows no URL of its own. *)
Definition respond_no_tokens (history : list event) (c : call) : Result (reply c) :=
  match c return Result (reply c) with
  | GetGoogleDriveTokens _ => Ok None
  | other => respond_ok history other
  end.

Definition respond_no_url (history : list event) (c : call) : Result (reply c) :=
  match c return Result (reply c) with
  | GetConfig => Ok (SystemConfig.mk true "client-id" "client-secret" EmptyString)
  | other => respond_ok history other
  end.

Definition env_no_tokens : Env :=
  {| respond := respond_no_tokens; clock := example_clock;
     hmac_sha256_hex := example_hmac |}.

Definition env_no_url : Env :=
  {| respond := respond_no_url; clock := example_clock;
     hmac_sha256_hex := example_hmac |}.

(** A job of the in-memory map, while immich-go runs. *)
Definition example_import_job : ImportJob.t :=
  {| ImportJob.id := example_jobId;
     ImportJob.userId := "user-1";
     ImportJob.status := st_processing;
     ImportJob.progress :=
       {| GooglePhotosImportProgressDto.phase := ph_processing;
          GooglePhotosImportProgressDto.current := 0;
          GooglePhotosImportProgressDto.total := 0;
          GooglePhotosImportProgressDto.currentFile := None;
          GooglePhotosImportProgressDto.albumsFound := 0;
          GooglePhotosImportProgressDto.photosImported := 0;
          GooglePhotosImportProgressDto.bytesDownloaded := None;
          GooglePhotosImportProgressDto.totalBytes := None;
          GooglePhotosImportProgressDto.errors := [];
          GooglePhotosImportProgressDto.events := [] |};
     ImportJob.createdAt := "2025-01-01T00:00:00";
     ImportJob.driveFileIds := [];
     ImportJob.localFiles := ["/tmp/immich-google-photos-import/takeout.zip"];
     ImportJob.tempApiKeyId := Some "key-1";
     ImportJob.abortController := Some false |}.

(** Some output of immich-go. *)
Definition example_output : string :=
  "Uploading: IMG_0001.jpg" ++ newline ++ "Uploaded 3/10 assets" ++ newline
  ++ "Created album: Summer" ++ newline ++ "ERROR: upload failed  ".

(** A world whose in-memory map holds [example_import_job]. *)
Definition example_local_world : World :=
  set_jobs (insert example_jobId example_import_job) empty_world.

(** * Properties *)

(** ** Volume sizing *)

Lemma fold_left_sum (l : list Z) (a : Z) :
  fold_left (fun sum size => sum + size) l a = a + sum_sizes l.
Proof.
  revert a. induction l as [|x l IH]; intros a; simpl.
  - lia.
  - rewrite IH. unfold sum_sizes. simpl. lia.
Qed.

Lemma Math_ceil_div_is_ceiling (a b : Z) :
  0 < b -> is_ceiling a b (Math_ceil_div a b).
Proof.
  intros Hb. unfold is_ceiling, Math_ceil_div.
  pose proof (Z.div_mod (- a) b ltac:(lia)) as Hdm.
  pose proof (Z.mod_pos_bound (- a) b Hb) as Hm.
  split; nia.
Qed.

Lemma is_ceiling_unique (a b c c' : Z) :
  0 < b -> is_ceiling a b c -> is_ceiling a b c' -> c = c'.
Proof. unfold is_ceiling. intros Hb [H1 H2] [H3 H4]. nia. Qed.

Lemma calculateVolumeSizeGb_unfold (fileSizes : list Z) :
  calculateVolumeSizeGb fileSizes
  = Z.max 10 (Z.min 100 (Math_ceil_div (sum_sizes fileSizes) GiB + 5)).
Proof. unfold calculateVolumeSizeGb. rewrite fold_left_sum. reflexivity. Qed.

(** C9. [calculateVolumeSizeGb] is
    [clamp(ceil(sum(fileSizes)/1GiB) + fixedBufferGB, minGB, maxGB)], where
    the ceiling [c] is the least integer with [sum <= c * 1GiB]; the result
    always lies in [minGB, maxGB], it is [minGB] for the empty list, it is
    [maxGB] as soon as the total exceeds [(maxGB - fixedBufferGB - 1)] GiB,
    and both bounds are reached. *)
Theorem calculateVolumeSizeGb_clamp (fileSizes : list Z) (c : Z) :
  is_ceiling (sum_sizes fileSizes) GiB c ->
  calculateVolumeSizeGb fileSizes = clamp (c + fixedBufferGB) minGB maxGB
  /\ minGB <= calculateVolumeSizeGb fileSizes <= maxGB
  /\ calculateVolumeSizeGb [] = minGB
  /\ ((maxGB - fixedBufferGB - 1) * GiB < sum_sizes fileSizes ->
      calculateVolumeSizeGb fileSizes = maxGB)
  /\ (exists sizes, calculateVolumeSizeGb sizes = minGB)
  /\ (exists sizes, calculateVolumeSizeGb sizes = maxGB).
Proof.
  intros Hc.
  assert (HG : 0 < GiB) by (unfold GiB; lia).
  pose proof (Math_ceil_div_is_ceiling (sum_sizes fileSizes) GiB HG) as Hm.
  assert (Math_ceil_div (sum_sizes fileSizes) GiB = c) as Heq
    by (eapply is_ceiling_unique; eauto).
  rewrite calculateVolumeSizeGb_unfold, Heq.
  unfold clamp, fixedBufferGB, minGB, maxGB.
  repeat split.
  - destruct (Z.ltb_spec (c + 5) 10); [lia|].
    destruct (Z.ltb_spec 100 (c + 5)); lia.
  - lia.
  - lia.
  - intros Hbig. destruct Hc as [Hc1 Hc2].
    assert (95 <= c) by nia. lia.
  - exists []. reflexivity.
  - exists [95 * GiB]. reflexivity.
Qed.

Lemma calculateVolumeSizeGb_clamp_witness :
  is_ceiling (sum_sizes [20 * GiB; 1]) GiB 21
  /\ calculateVolumeSizeGb [20 * GiB; 1] = 26.
Proof.
  assert (H : is_ceiling (sum_sizes [20 * GiB; 1]) GiB 21)
    by (unfold is_ceiling; vm_compute; split; [discriminate | reflexivity]).
  split; [exact H|].
  destruct (calculateVolumeSizeGb_clamp [20 * GiB; 1] 21 H) as [-> _].
  reflexivity.
Defined.

(** ** Activity timeline *)

Lemma slice_last_length {A} (n : nat) (l : list A) :
  length (slice_last n l) = Nat.min n (length l).
Proof. unfold slice_last. rewrite length_drop. lia. Qed.

Lemma slice_last_all {A} (n : nat) (l : list A) :
  (length l <= n)%nat -> slice_last n l = l.
Proof.
  intros H. unfold slice_last.
  replace (length l - n)%nat with 0%nat by lia. reflexivity.
Qed.

Lemma slice_last_app {A} (n : nat) (l1 l2 : list A) :
  (n <= length l2)%nat -> slice_last n (l1 ++ l2) = slice_last n l2.
Proof.
  intros H. unfold slice_last. rewrite length_app, drop_app.
  replace (length l1 + length l2 - n - length l1)%nat with (length l2 - n)%nat by lia.
  rewrite drop_ge by lia. reflexivity.
Qed.

Lemma slice_last_snoc {A} (n : nat) (l : list A) (x : A) :
  slice_last (S n) (l ++ [x]) = (slice_last n l ++ [x])%list.
Proof.
  unfold slice_last. rewrite length_app. simpl.
  replace (length l + 1 - S n)%nat with (length l - n)%nat by lia.
  rewrite drop_app.
  replace (length l - n - length l)%nat with 0%nat by lia. reflexivity.
Qed.

Lemma slice_last_idem_snoc {A} (n : nat) (l : list A) (x : A) :
  slice_last (S n) (slice_last (S n) l ++ [x]) = slice_last (S n) (l ++ [x]).
Proof.
  rewrite !slice_last_snoc. f_equal.
  unfold slice_last. rewrite length_drop, drop_drop. f_equal. lia.
Qed.

Lemma push_event_slice (e : ActivityEventDto.t) (evs : list ActivityEventDto.t) :
  push_event e evs = slice_last 100 (evs ++ [e]).
Proof.
  unfold push_event.
  destruct (Nat.ltb_spec 100 (length (evs ++ [e]))) as [H|H]; [reflexivity|].
  symmetry. apply slice_last_all. exact H.
Qed.

Lemma push_event_length (e : ActivityEventDto.t) (evs : list ActivityEventDto.t) :
  length (push_event e evs) = Nat.min 100 (S (length evs)).
Proof.
  rewrite push_event_slice, slice_last_length, length_app.
  change (length [e]) with 1%nat. lia.
Qed.

Lemma addEvent_run (env : Env) (w : World) (job : FlyWorkerJobMetadata.t)
    (type : ActivityEventType) (message : string) :
  addEvent job type message env w
  = (Ok (with_events
           (push_event (ActivityEventDto.mk (clock env (ticks w)) type message)
                       (job_events job)) job),
     tick w).
Proof. reflexivity. Qed.

Lemma job_events_with_events evs job : job_events (with_events evs job) = evs.
Proof. reflexivity. Qed.

Lemma with_events_with_events evs evs' job :
  with_events evs (with_events evs' job) = with_events evs job.
Proof. reflexivity. Qed.

Lemma with_events_same job : with_events (job_events job) job = job.
Proof. destruct job as [? ? ? ? ? [] ? ? ? ?]. reflexivity. Qed.

Lemma push_events_slice (added evs : list ActivityEventDto.t) :
  added <> [] \/ (length evs <= 100)%nat ->
  push_events added evs = slice_last 100 (evs ++ added).
Proof.
  revert evs. induction added as [|e added IH]; intros evs H; simpl.
  - destruct H as [H|H]; [congruence|].
    rewrite app_nil_r. symmetry. apply slice_last_all. exact H.
  - unfold push_events in *. simpl. rewrite IH.
    + rewrite push_event_slice.
      replace (evs ++ e :: added)%list with ((evs ++ [e]) ++ added)%list
        by (rewrite <- app_assoc; reflexivity).
      generalize (evs ++ [e])%list. intros l.
      unfold slice_last. rewrite !length_app, length_drop.
      destruct (Nat.le_gt_cases (length l) 100) as [Hl|Hl].
      * replace (length l - 100)%nat with 0%nat by lia. simpl.
        f_equal. lia.
      * rewrite !drop_app, length_drop.
        rewrite drop_drop.
        replace (length l - 100 + (length l - (length l - 100) + length added - 100))%nat
          with (length l + length added - 100)%nat by lia.
        f_equal. f_equal. lia.
    + right. rewrite push_event_length. lia.
Qed.


Lemma addEvents_run (env : Env) (inserts : list (ActivityEventType * string))
    (w : World) (job : FlyWorkerJobMetadata.t) :
  addEvents inserts job env w
  = (Ok (with_events (push_events (stamped env (ticks w) inserts) (job_events job)) job),
     Nat.iter (length inserts) tick w).
Proof.
  revert w job. induction inserts as [|i inserts IH]; intros w job.
  - simpl. unfold push_events. simpl. rewrite with_events_same. reflexivity.
  - unfold addEvents in *. simpl for_each. unfold bind at 1.
    rewrite addEvent_run. rewrite IH.
    rewrite job_events_with_events, with_events_with_events.
    simpl. f_equal. clear. 
    induction (length inserts) as [|n IHn]; simpl; [reflexivity|].
    rewrite IHn. reflexivity.
Qed.

(** C5. Whatever the job and the insertions made through [addEvent] (at
    least one): every insertion succeeds and changes nothing but the
    timeline, the timeline has at most 100 entries afterwards, it is the last
    100 entries of the old timeline followed by the inserted events, and
    after more than 100 insertions it is exactly the last 100 inserted
    events in the order of insertion. *)
Theorem addEvent_sliding_window (env : Env) (w : World)
    (job : FlyWorkerJobMetadata.t) (inserts : list (ActivityEventType * string)) :
  inserts <> [] ->
  exists job' w',
    addEvents inserts job env w = (Ok job', w')
    /\ (length (job_events job') <= 100)%nat
    /\ job_events job'
       = slice_last 100 (job_events job ++ stamped env (ticks w) inserts)
    /\ with_events (job_events job) job' = job
    /\ ((100 < length inserts)%nat ->
        job_events job' = slice_last 100 (stamped env (ticks w) inserts)
        /\ length (job_events job') = 100%nat).
Proof.
  intros Hne.
  assert (Hlen : forall t l, length (stamped env t l) = length l).
  { intros t l. revert t. induction l; intros t; simpl; [reflexivity|].
    rewrite IHl. reflexivity. }
  assert (Hst : stamped env (ticks w) inserts <> []).
  { destruct inserts; [congruence|]. simpl. discriminate. }
  eexists _, _. split; [apply addEvents_run|].
  rewrite job_events_with_events, with_events_with_events, with_events_same.
  rewrite push_events_slice by (left; exact Hst).
  split; [|split; [|split]].
  - rewrite slice_last_length. lia.
  - reflexivity.
  - reflexivity.
  - intros HN. split.
    + apply slice_last_app. rewrite Hlen. lia.
    + rewrite slice_last_length, length_app, Hlen. lia.
Qed.

Lemma addEvent_sliding_window_witness :
  exists job' w',
    addEvents (repeat (ev_info, "tick") 101) (example_job st_downloading) env_ok empty_world
    = (Ok job', w')
    /\ length (job_events job') = 100%nat.
Proof.
  destruct (addEvent_sliding_window env_ok empty_world (example_job st_downloading)
              (repeat (ev_info, "tick") 101) ltac:(discriminate))
    as (job' & w' & Hrun & _ & _ & _ & Hmany).
  exists job', w'. split; [exact Hrun|].
  apply Hmany. vm_compute. lia.
Defined.

(** ** Canonical serialisation *)

Lemma json_induction (P : json -> Prop) :
  P JNull ->
  (forall b, P (JBool b)) ->
  (forall n, P (JNumber n)) ->
  (forall s, P (JString s)) ->
  (forall items, Forall P items -> P (JArray items)) ->
  (forall props, Forall (fun p => P (snd p)) props -> P (JObject props)) ->
  forall v, P v.
Proof.
  intros Hnull Hbool Hnum Hstr Harr Hobj.
  fix IH 1. intros [ | b | n | s | items | props].
  - exact Hnull.
  - apply Hbool.
  - apply Hnum.
  - apply Hstr.
  - apply Harr. revert items. fix IHl 1. intros [|x items].
    + constructor.
    + constructor; [apply IH | apply IHl].
  - apply Hobj. revert props. fix IHl 1. intros [|[k x] props].
    + constructor.
    + constructor; [apply IH | apply IHl].
Qed.

Lemma json_wf_array items :
  json_wf (JArray items) <-> Forall json_wf items.
Proof.
  simpl. induction items as [|x items IH]; simpl.
  - split; [constructor | trivial].
  - rewrite Forall_cons, IH. reflexivity.
Qed.

Lemma json_wf_object props :
  json_wf (JObject props)
  <-> NoDup (map fst props) /\ Forall (fun p => json_wf (snd p)) props.
Proof.
  simpl. apply and_iff_compat_l.
  induction props as [|x props IH]; simpl.
  - split; [constructor | trivial].
  - rewrite Forall_cons, IH. reflexivity.
Qed.

Lemma array_index_pretty (k : string) (n : N) :
  array_index k = Some n -> pretty n = k.
Proof.
  unfold array_index. destruct k as [|c k]; [discriminate|].
  destruct (digits_value 0 (String c k)) as [m|]; [|discriminate].
  destruct (bool_decide (pretty m = String c k)) eqn:Hd; simpl; [|discriminate].
  destruct (m <? 4294967295)%N; [|discriminate].
  intros [= <-]. apply bool_decide_eq_true in Hd. exact Hd.
Qed.

Lemma index_keys_filter (ks : list string) :
  map pretty (omap array_index ks)
  = filter (fun k => ~ is_array_index k = false) ks.
Proof.
  induction ks as [|k ks IH]; [reflexivity|].
  rewrite filter_cons. simpl.
  assert (Hi : is_array_index k
               = match array_index k with Some _ => true | None => false end)
    by reflexivity.
  destruct (array_index k) as [n|] eqn:Hk.
  - rewrite decide_True by (rewrite Hi; discriminate). simpl.
    rewrite (array_index_pretty _ _ Hk). f_equal. exact IH.
  - rewrite decide_False by (intros H; apply H; exact Hi). exact IH.
Qed.

Lemma own_property_keys_Permutation (ks : list string) :
  own_property_keys ks ≡ₚ ks.
Proof.
  unfold own_property_keys.
  assert (map pretty (merge_sort N.le (omap array_index ks))
          ≡ₚ map pretty (omap array_index ks)) as ->.
  { apply Permutation_map, merge_sort_Permutation. }
  rewrite index_keys_filter.
  rewrite Permutation_app_comm. apply filter_app_complement.
Qed.

Lemma merge_sort_unique {A} (R : relation A) `{!forall x y, Decision (R x y)}
    `{!Transitive R, !AntiSymm (=) R, !Total R} (l l' : list A) :
  l ≡ₚ l' -> merge_sort R l = merge_sort R l'.
Proof.
  intros Hp. apply (Sorted_unique R).
  - apply Sorted_merge_sort; assumption.
  - apply Sorted_merge_sort; assumption.
  - rewrite !merge_sort_Permutation. exact Hp.
Qed.

Lemma own_property_keys_proper (ks ks' : list string) :
  ks ≡ₚ ks' ->
  sort_keys (own_property_keys ks) = sort_keys (own_property_keys ks').
Proof.
  intros Hp. unfold sort_keys. apply merge_sort_unique; [apply _ ..|].
  rewrite !own_property_keys_Permutation. exact Hp.
Qed.

Lemma sorted_own_keys_proper (props props' : list (string * json)) :
  map fst props ≡ₚ map fst props' ->
  sorted_own_keys props = sorted_own_keys props'.
Proof.
  intros Hp. unfold sorted_own_keys, Object_keys.
  rewrite (own_property_keys_proper _ _ Hp). reflexivity.
Qed.

Lemma sorted_own_keys_elem (props : list (string * json)) (k : string) :
  k ∈ sorted_own_keys props -> k ∈ map fst props.
Proof.
  unfold sorted_own_keys, Object_keys, sort_keys.
  rewrite own_property_keys_Permutation. rewrite list_elem_of_filter.
  intros [_ H]. rewrite merge_sort_Permutation, own_property_keys_Permutation in H.
  exact H.
Qed.

Lemma lookup_rendered_elem (f : json -> string) (props : list (string * json))
    (k : string) (v : json) :
  NoDup (map fst props) -> (k, v) ∈ props ->
  lookup_rendered k (map (fun p => (fst p, f (snd p))) props) = f v.
Proof.
  induction props as [|[k' v'] props IH]; intros Hnd Hin.
  - inversion Hin.
  - simpl in *. apply NoDup_cons in Hnd as [Hk Hnd].
    apply elem_of_cons in Hin as [Heq|Hin].
    + inversion Heq; subst. rewrite bool_decide_eq_true_2 by reflexivity. reflexivity.
    + rewrite bool_decide_eq_false_2.
      * apply IH; assumption.
      * intros ->. apply Hk. apply list_elem_of_fmap. exists (k', v). auto.
Qed.

Lemma map_ext_elem {A B} (f g : A -> B) (l : list A) :
  (forall x, x ∈ l -> f x = g x) -> map f l = map g l.
Proof.
  induction l as [|x l IH]; intros H; simpl; [reflexivity|].
  rewrite (H x) by (apply elem_of_cons; auto).
  rewrite IH; [reflexivity|]. intros y Hy. apply H. apply elem_of_cons; auto.
Qed.

Lemma Forall2_same_keys {A B} (R : A -> B -> Prop)
    (l : list (string * A)) (l' : list (string * B)) :
  Forall2 (fun p q => fst p = fst q /\ R (snd p) (snd q)) l l' ->
  map fst l = map fst l'.
Proof. induction 1 as [|? ? ? ? [H _]]; simpl; congruence. Qed.

(** The serialisation does not depend on the order in which the keys of
    any object were created. *)
Lemma stableStringify_key_order (a b : json) :
  json_wf a -> same_up_to_key_order a b -> stableStringify a = stableStringify b.
Proof.
  revert b. induction a as [ | | | | items IH | props IH ] using json_induction;
    intros b' Hwf Hsame; inversion Hsame; subst; try reflexivity.
  - (* arrays *)
    simpl. do 2 f_equal. f_equal.
    apply json_wf_array in Hwf.
    match goal with H : Forall2 _ items _ |- _ => rename H into H2 end.
    clear Hsame. induction H2 as [|x y l l' Hxy H2 IH2]; [reflexivity|].
    apply Forall_cons in IH as [IHx IH]. apply Forall_cons in Hwf as [Hx Hwf].
    simpl. f_equal; [apply IHx; assumption | apply IH2; assumption].
  - (* objects *)
    match goal with H : Forall2 _ props _ |- _ => rename H into H2 end.
    match goal with H : Permutation _ _ |- _ => rename H into Hperm end.
    apply json_wf_object in Hwf as [Hnd Hwf].
    assert (Hkeys : map fst props ≡ₚ map fst props').
    { rewrite (Forall2_same_keys _ _ _ H2).
      change (fst <$> renamed ≡ₚ fst <$> props'). rewrite Hperm. reflexivity. }
    assert (Hnd' : NoDup (map fst props')) by (rewrite <- Hkeys; exact Hnd).
    cbn [stableStringify].
    rewrite <- (sorted_own_keys_proper _ _ Hkeys).
    do 2 f_equal. f_equal.
    apply map_ext_elem. intros k Hk. do 2 f_equal.
    apply sorted_own_keys_elem in Hk.
    apply list_elem_of_fmap in Hk as [[k' v] [-> Hin]]. simpl.
    assert (exists v', (k', v') ∈ renamed /\ stableStringify v = stableStringify v')
      as (v' & Hin' & Heq).
    { clear Hkeys Hnd Hnd' Hsame Hperm.
      induction H2 as [|p q l l' [Hpq1 Hpq2] H2 IH2].
      - inversion Hin.
      - apply Forall_cons in IH as [IHp IH]. apply Forall_cons in Hwf as [Hp Hwf].
        apply elem_of_cons in Hin as [Heq|Hin].
        + subst p. destruct q as [kq vq]. simpl in *. subst kq.
          exists vq. split; [apply elem_of_cons; auto|].
          apply IHp; assumption.
        + destruct (IH2 IH Hwf Hin) as (v' & Hv' & Heq).
          exists v'. split; [apply elem_of_cons; auto | exact Heq]. }
    rewrite Hperm in Hin'.
    rewrite (lookup_rendered_elem stableStringify props k' v Hnd Hin).
    rewrite (lookup_rendered_elem stableStringify props' k' v' Hnd' Hin').
    exact Heq.
Qed.

(** Outside the payloads of the service, keys that are array indices come
    out in the order of their numbers.  The object [{"10": 1, "9": 2}] has
    its keys in lexicographic order already (the string [10] is below the
    string [9]) and [Object.keys(value).sort()] keeps them so, but the
    object [sorted] that the replacer returns lists array-index keys in
    ascending numeric order, and the text is [{"9":2,"10":1}].  No payload
    has such a key: [stableStringify] is private and is called on the
    [WorkerProgressDto] of a webhook only, whose keys are the names of its
    properties. *)
Example stableStringify_index_keys_numeric_order :
  stableStringify index_keys_example
  = "{" ++ JSON_quote "9" ++ ":2," ++ JSON_quote "10" ++ ":1}"
  /\ sort_keys (Object_keys [("10", JNumber 1); ("9", JNumber 2)]) = ["10"; "9"]
  /\ sorted_own_keys [("10", JNumber 1); ("9", JNumber 2)] = ["9"; "10"]
  /\ String.ltb "10" "9" = true.
Proof. vm_compute. repeat split. Qed.

(** ** Examples of the canonical text *)

(** The text that is signed for a progress update. *)
Example stableStringify_payload :
  stableStringify (WorkerProgressDto_json (example_payload 5 10))
  = "{" ++ JSON_quote "jobId" ++ ":" ++ JSON_quote example_jobId ++ ","
    ++ JSON_quote "phase" ++ ":" ++ JSON_quote "downloading" ++ ","
    ++ JSON_quote "progress" ++ ":{" ++ JSON_quote "current" ++ ":5,"
    ++ JSON_quote "total" ++ ":10}}".
Proof. vm_compute. reflexivity. Qed.

(** [canonicalize({a:1,b:2}) == canonicalize({b:2,a:1})]. *)
Example stableStringify_a_b :
  stableStringify (JObject [("a", JNumber 1); ("b", JNumber 2)])
  = stableStringify (JObject [("b", JNumber 2); ("a", JNumber 1)]).
Proof.
  apply stableStringify_key_order.
  - apply json_wf_object. split.
    + apply NoDup_cons. split; [|apply NoDup_singleton].
      intros H. apply list_elem_of_singleton in H. discriminate H.
    + repeat constructor.
  - apply (same_object _ [("a", JNumber 1); ("b", JNumber 2)]).
    + repeat constructor.
    + apply perm_swap.
Qed.

(** A key named [__proto__] does not reach the text. *)
Example stableStringify_proto :
  stableStringify (JObject [("__proto__", JNumber 1); ("a", JNumber 2)])
  = stableStringify (JObject [("a", JNumber 2)]).
Proof. vm_compute. reflexivity. Qed.

(** ** Where the keys do come out in lexicographic order *)

Lemma own_property_keys_plain (ks : list string) :
  Forall (fun k => is_array_index k = false) ks -> own_property_keys ks = ks.
Proof.
  intros Hplain. unfold own_property_keys.
  assert (omap array_index ks = []) as ->.
  { induction Hplain as [|k ks Hk _ IH]; [reflexivity|].
    cbn. unfold is_array_index in Hk.
    destruct (array_index k); [discriminate|]. exact IH. }
  cbn. induction Hplain as [|k ks Hk _ IH]; [reflexivity|].
  rewrite filter_cons, decide_True by exact Hk. f_equal. exact IH.
Qed.

(** For an object none of whose keys is an array index or [__proto__], the
    properties are serialised in the lexicographic order of their keys. *)
Lemma sorted_own_keys_lexicographic (props : list (string * json)) :
  Forall (fun k => is_array_index k = false /\ k <> proto_key) (map fst props) ->
  sorted_own_keys props = sort_keys (map fst props)
  /\ Sorted String.le (sorted_own_keys props)
  /\ sorted_own_keys props ≡ₚ map fst props.
Proof.
  intros Hplain.
  assert (Hidx : Forall (fun k => is_array_index k = false) (map fst props))
    by (eapply Forall_impl; [exact Hplain | intros k [H _]; exact H]).
  assert (Hsorted : Forall (fun k => is_array_index k = false /\ k <> proto_key)
                      (sort_keys (map fst props))).
  { unfold sort_keys. rewrite merge_sort_Permutation. exact Hplain. }
  assert (Heq : sorted_own_keys props = sort_keys (map fst props)).
  { unfold sorted_own_keys, Object_keys.
    rewrite (own_property_keys_plain _ Hidx).
    assert (filter (fun k => k <> proto_key) (sort_keys (map fst props))
            = sort_keys (map fst props)) as ->.
    { induction Hsorted as [|k ks [_ Hk] _ IH]; [reflexivity|].
      rewrite filter_cons, decide_True by exact Hk. f_equal. exact IH. }
    apply own_property_keys_plain.
    eapply Forall_impl; [exact Hsorted | intros k [H _]; exact H]. }
  rewrite Heq. split; [reflexivity|]. split.
  - apply Sorted_merge_sort. apply _.
  - apply merge_sort_Permutation.
Qed.

(** ** The webhook handler *)

Lemma iter_tick_store n w : store (Nat.iter n tick w) = store w.
Proof. induction n; simpl; [reflexivity | exact IHn]. Qed.

Lemma iter_tick_jobs n w : jobs (Nat.iter n tick w) = jobs w.
Proof. induction n; simpl; [reflexivity | exact IHn]. Qed.

Lemma iter_tick_log n w : log (Nat.iter n tick w) = log w.
Proof. induction n; simpl; [reflexivity | exact IHn]. Qed.

Lemma iter_tick_background n w : background (Nat.iter n tick w) = background w.
Proof. induction n; simpl; [reflexivity | exact IHn]. Qed.

Lemma only_adds_ret job : only_adds_events job (ret job).
Proof.
  intros env w. exists [], 0%nat. unfold push_events. simpl.
  rewrite with_events_same. reflexivity.
Qed.

Lemma only_adds_addEvent job type message :
  only_adds_events job (addEvent job type message).
Proof.
  intros env w.
  exists [ActivityEventDto.mk (clock env (ticks w)) type message], 1%nat.
  apply addEvent_run.
Qed.

Lemma only_adds_bind job m k :
  only_adds_events job m ->
  (forall job', only_adds_events job' (k job')) ->
  only_adds_events job (bind m k).
Proof.
  intros Hm Hk env w. unfold bind.
  destruct (Hm env w) as (a1 & n1 & ->).
  destruct (Hk (with_events (push_events a1 (job_events job)) job) env
              (Nat.iter n1 tick w)) as (a2 & n2 & ->).
  exists (a1 ++ a2)%list, (n2 + n1)%nat.
  rewrite job_events_with_events, with_events_with_events.
  unfold push_events. rewrite fold_left_app, Nat.iter_add. reflexivity.
Qed.

Lemma only_adds_for_each type (l : list string) job :
  only_adds_events job (for_each l (fun job error => addEvent job type error) job).
Proof.
  revert job. induction l as [|x l IH]; intros job; simpl.
  - apply only_adds_ret.
  - apply only_adds_bind; [apply only_adds_addEvent | exact IH].
Qed.

Ltac only_adds :=
  repeat first
    [ apply only_adds_ret
    | apply only_adds_addEvent
    | apply only_adds_for_each
    | apply only_adds_bind; [|intros ?]
    | match goal with
      | |- only_adds_events _ (match ?x with _ => _ end) => destruct x
      | |- only_adds_events _ (if ?x then _ else _) => destruct x
      end ].

Lemma recordEvents_only_adds prevPhase prevCurrent payload job :
  only_adds_events job (recordEvents prevPhase prevCurrent payload job).
Proof. unfold recordEvents. only_adds. Qed.

Lemma mergeProgress_events payload job :
  job_events (mergeProgress payload job) = job_events job.
Proof.
  unfold mergeProgress.
  destruct (WorkerProgressDto.photosImported payload),
    (WorkerProgressDto.albumsFound payload),
    (WorkerProgressDto.errors payload) as [[|]|]; reflexivity.
Qed.

Lemma mergeProgress_jobId payload job :
  FlyWorkerJobMetadata.jobId (mergeProgress payload job)
  = FlyWorkerJobMetadata.jobId job.
Proof.
  unfold mergeProgress.
  destruct (WorkerProgressDto.photosImported payload),
    (WorkerProgressDto.albumsFound payload),
    (WorkerProgressDto.errors payload) as [[|]|]; reflexivity.
Qed.

Lemma applyWorkerWebhook_run env w payload job :
  exists added n,
    applyWorkerWebhook payload job env w
    = (Ok tt,
       (if is_terminal_phase (WorkerProgressDto.phase payload)
        then add_background (WorkerProgressDto.jobId payload) else id)
         (set_store
            (insert (job_key (FlyWorkerJobMetadata.jobId job))
                    (webhook_result env w payload job added))
            (Nat.iter n tick (tick w)))).
Proof.
  unfold applyWorkerWebhook, bind at 1. unfold Date_now.
  unfold bind at 1.
  destruct (recordEvents_only_adds
              (GooglePhotosImportProgressDto.phase (FlyWorkerJobMetadata.progress job))
              (GooglePhotosImportProgressDto.current (FlyWorkerJobMetadata.progress job))
              payload (mergeProgress payload job) env (tick w)) as (added & n & ->).
  exists added, n. rewrite mergeProgress_events.
  unfold bind, saveWorkerJob, webhook_result.
  cbn [FlyWorkerJobMetadata.jobId FlyWorkerJobMetadata.set_updatedAt with_events
       update_progress FlyWorkerJobMetadata.set_progress].
  rewrite mergeProgress_jobId.
  destruct (is_terminal_phase (WorkerProgressDto.phase payload)); reflexivity.
Qed.

Lemma handleWorkerWebhook_unknown env w signature payload rawBody :
  store w !! job_key (WorkerProgressDto.jobId payload) = None ->
  handleWorkerWebhook signature payload rawBody env w
  = (Throw (Error "Job not found"), w).
Proof.
  intros H. unfold handleWorkerWebhook, bind, getWorkerJob. rewrite H. reflexivity.
Qed.

Lemma handleWorkerWebhook_known env w signature payload rawBody job :
  store w !! job_key (WorkerProgressDto.jobId payload) = Some job ->
  let expected :=
    expectedSignature env (FlyWorkerJobMetadata.webhookSecret job) payload in
  handleWorkerWebhook signature payload rawBody env w
  = if bool_decide (length (Buffer_from signature) = length (Buffer_from expected))
    then if bool_decide (Buffer_from signature = Buffer_from expected)
         then applyWorkerWebhook payload job env w
         else (Throw (Error "Invalid signature"), w)
    else (Throw (RangeError "Input buffers must have the same byte length"), w).
Proof.
  intros H expected. unfold handleWorkerWebhook, bind, getWorkerJob. rewrite H.
  unfold createHmac_sha256_hex, timingSafeEqual. fold expected.
  unfold expectedSignature in expected. fold expected.
  destruct (bool_decide (length (Buffer_from signature) = length (Buffer_from expected)));
    [|reflexivity].
  unfold ret.
  destruct (bool_decide (Buffer_from signature = Buffer_from expected)); reflexivity.
Qed.

Lemma utf8_unit_inj (n m : N) (l l' : list N) :
  (n < 256)%N -> (m < 256)%N ->
  (utf8_unit n ++ l = utf8_unit m ++ l')%list -> n = m /\ l = l'.
Proof.
  intros Hn Hm. unfold utf8_unit.
  destruct (N.ltb_spec n 128), (N.ltb_spec m 128); cbn [app]; intros Heq.
  - injection Heq as -> ->. auto.
  - injection Heq as H1 H2. exfalso.
    pose proof (N.le_add_r 192 (m / 64)). lia.
  - injection Heq as H1 H2. exfalso.
    pose proof (N.le_add_r 192 (n / 64)). lia.
  - injection Heq as H1 H2 H3. split; [|exact H3].
    pose proof (N.div_mod n 64 ltac:(lia)).
    pose proof (N.div_mod m 64 ltac:(lia)). lia.
Qed.

Lemma N_of_ascii_bound (c : ascii) : (N_of_ascii c < 256)%N.
Proof. destruct c as [[|] [|] [|] [|] [|] [|] [|] [|]]; vm_compute; reflexivity. Qed.

Lemma Buffer_from_inj (s s' : string) : Buffer_from s = Buffer_from s' -> s = s'.
Proof.
  revert s'. induction s as [|c s IH]; intros [|c' s']; simpl; intros H.
  - reflexivity.
  - exfalso. unfold utf8_unit in H. destruct (N_of_ascii c' <? 128)%N; discriminate.
  - exfalso. unfold utf8_unit in H. destruct (N_of_ascii c <? 128)%N; discriminate.
  - apply utf8_unit_inj in H as [Hc Hs]; try apply N_of_ascii_bound.
    f_equal; [|apply IH; exact Hs].
    rewrite <- (ascii_N_embedding c), <- (ascii_N_embedding c'), Hc. reflexivity.
Qed.

Lemma hex_digest_bytes (s : string) :
  is_hex_digest s = true -> length (Buffer_from s) = 64%nat.
Proof.
  unfold is_hex_digest. intros H. apply andb_true_iff in H as [Hlen Hhex].
  apply Nat.eqb_eq in Hlen. rewrite <- Hlen. clear Hlen.
  induction s as [|c s IH]; [reflexivity|].
  simpl in Hhex. apply andb_true_iff in Hhex as [Hc Hs].
  simpl. rewrite length_app, (IH Hs).
  unfold utf8_unit. unfold is_hex_char in Hc.
  destruct (N.ltb_spec (N_of_ascii c) 128) as [|Hbig]; [reflexivity|].
  exfalso. apply orb_true_iff in Hc as [Hc|Hc]; apply andb_true_iff in Hc as [H1 H2];
    apply N.leb_le in H1, H2; lia.
Qed.

Ltac merge_cases payload :=
  unfold mergeProgress;
  destruct (WorkerProgressDto.photosImported payload),
    (WorkerProgressDto.albumsFound payload),
    (WorkerProgressDto.errors payload) as [[|]|];
  cbn; rewrite ?app_nil_r; try reflexivity.


Lemma mergeProgress_status payload job :
  FlyWorkerJobMetadata.status (mergeProgress payload job)
  = status_of_phase (WorkerProgressDto.phase payload).
Proof. merge_cases payload. Qed.

Lemma mergeProgress_current payload job :
  GooglePhotosImportProgressDto.current
    (FlyWorkerJobMetadata.progress (mergeProgress payload job))
  = WorkerProgressPayloadDto.current (WorkerProgressDto.progress payload).
Proof. merge_cases payload. Qed.

Lemma mergeProgress_total payload job :
  GooglePhotosImportProgressDto.total
    (FlyWorkerJobMetadata.progress (mergeProgress payload job))
  = WorkerProgressPayloadDto.total (WorkerProgressDto.progress payload).
Proof. merge_cases payload. Qed.

Lemma mergeProgress_bytesDownloaded payload job :
  GooglePhotosImportProgressDto.bytesDownloaded
    (FlyWorkerJobMetadata.progress (mergeProgress payload job))
  = WorkerProgressDto.bytesDownloaded payload.
Proof. merge_cases payload. Qed.

Lemma mergeProgress_totalBytes payload job :
  GooglePhotosImportProgressDto.totalBytes
    (FlyWorkerJobMetadata.progress (mergeProgress payload job))
  = WorkerProgressDto.totalBytes payload.
Proof. merge_cases payload. Qed.

Lemma mergeProgress_photosImported payload job :
  GooglePhotosImportProgressDto.photosImported
    (FlyWorkerJobMetadata.progress (mergeProgress payload job))
  = default (GooglePhotosImportProgressDto.photosImported
               (FlyWorkerJobMetadata.progress job))
            (WorkerProgressDto.photosImported payload).
Proof. merge_cases payload. Qed.

Lemma mergeProgress_albumsFound payload job :
  GooglePhotosImportProgressDto.albumsFound
    (FlyWorkerJobMetadata.progress (mergeProgress payload job))
  = default (GooglePhotosImportProgressDto.albumsFound
               (FlyWorkerJobMetadata.progress job))
            (WorkerProgressDto.albumsFound payload).
Proof. merge_cases payload. Qed.

Lemma mergeProgress_errors payload job :
  job_errors (mergeProgress payload job)
  = (job_errors job ++ default [] (WorkerProgressDto.errors payload))%list.
Proof. unfold job_errors. merge_cases payload. Qed.

(** What a webhook with the expected signature does to a known job. *)
Lemma handleWorkerWebhook_accepts env w payload rawBody job :
  store w !! job_key (WorkerProgressDto.jobId payload) = Some job ->
  FlyWorkerJobMetadata.jobId job = WorkerProgressDto.jobId payload ->
  exists added w',
    handleWorkerWebhook
      (expectedSignature env (FlyWorkerJobMetadata.webhookSecret job) payload)
      payload rawBody env w = (Ok tt, w')
    /\ store w' = <[job_key (WorkerProgressDto.jobId payload) :=
                     webhook_result env w payload job added]> (store w)
    /\ jobs w' = jobs w /\ log w' = log w.
Proof.
  intros Hjob Hid.
  rewrite (handleWorkerWebhook_known _ _ _ _ _ _ Hjob). cbv zeta.
  rewrite !bool_decide_eq_true_2 by reflexivity.
  destruct (applyWorkerWebhook_run env w payload job) as (added & n & ->).
  exists added. eexists. split; [reflexivity|].
  rewrite Hid.
  destruct (is_terminal_phase (WorkerProgressDto.phase payload)); cbn;
    rewrite ?iter_tick_store, ?iter_tick_jobs, ?iter_tick_log; auto.
Qed.

(** C3. For a job in the store with webhook secret [s] and a payload [p], the
    handler accepts a signature exactly when it is the hex HMAC-SHA256 of the
    canonical text of [p] under [s]; a different signature of the same byte
    length is rejected with the error [Invalid signature]; and every
    rejection, like a webhook for an unknown job id, leaves the world, hence
    the persisted record, as it was. *)
Theorem webhook_signature_verification (env : Env) (w : World) (signature : string)
    (payload : WorkerProgressDto.t) (rawBody : string) (job : FlyWorkerJobMetadata.t) :
  store w !! job_key (WorkerProgressDto.jobId payload) = Some job ->
  let expected :=
    hmac_sha256_hex env (FlyWorkerJobMetadata.webhookSecret job)
      (stableStringify (WorkerProgressDto_json payload)) in
  ((exists w', handleWorkerWebhook signature payload rawBody env w = (Ok tt, w'))
   <-> signature = expected)
  /\ (signature <> expected ->
      length (Buffer_from signature) = length (Buffer_from expected) ->
      handleWorkerWebhook signature payload rawBody env w
      = (Throw (Error "Invalid signature"), w))
  /\ (forall e w', handleWorkerWebhook signature payload rawBody env w = (Throw e, w') ->
      w' = w)
  /\ (forall w0 : World,
        store w0 !! job_key (WorkerProgressDto.jobId payload) = None ->
        handleWorkerWebhook signature payload rawBody env w0
        = (Throw (Error "Job not found"), w0)).
Proof.
  intros Hjob expected.
  pose proof (handleWorkerWebhook_known env w signature payload rawBody job Hjob) as Hrun.
  cbv zeta in Hrun. unfold expectedSignature in Hrun. fold expected in Hrun.
  destruct (applyWorkerWebhook_run env w payload job) as (added & n & Happly).
  repeat split.
  - intros [w' Hok]. rewrite Hrun in Hok.
    destruct (bool_decide (length (Buffer_from signature) = length (Buffer_from expected)));
      [|discriminate].
    destruct (bool_decide (Buffer_from signature = Buffer_from expected)) eqn:Hb;
      [|discriminate].
    apply bool_decide_eq_true in Hb. apply Buffer_from_inj. exact Hb.
  - intros ->. rewrite Hrun, !bool_decide_eq_true_2 by reflexivity.
    rewrite Happly. eexists. reflexivity.
  - intros Hne Hlen. rewrite Hrun.
    rewrite bool_decide_eq_true_2 by exact Hlen.
    rewrite bool_decide_eq_false_2; [reflexivity|].
    intros Hb. apply Hne, Buffer_from_inj, Hb.
  - intros e w' Hthrow. rewrite Hrun in Hthrow.
    destruct (bool_decide (length (Buffer_from signature) = length (Buffer_from expected)));
      [|congruence].
    destruct (bool_decide (Buffer_from signature = Buffer_from expected));
      [|congruence].
    rewrite Happly in Hthrow. discriminate.
  - intros w0 Hnone. apply handleWorkerWebhook_unknown. exact Hnone.
Qed.

(** C10. For a job in the store whose expected signature is a hex digest of
    64 characters, a claimed signature whose byte length is not 64 makes the
    constant-time comparison throw [RangeError] (input buffers must have the
    same byte length) instead of the error [Invalid signature]; the world,
    hence the persisted record, is left as it was. *)
Theorem webhook_signature_length_mismatch (env : Env) (w : World) (signature : string)
    (payload : WorkerProgressDto.t) (rawBody : string) (job : FlyWorkerJobMetadata.t) :
  store w !! job_key (WorkerProgressDto.jobId payload) = Some job ->
  is_hex_digest
    (hmac_sha256_hex env (FlyWorkerJobMetadata.webhookSecret job)
       (stableStringify (WorkerProgressDto_json payload))) = true ->
  length (Buffer_from signature) <> 64%nat ->
  handleWorkerWebhook signature payload rawBody env w
  = (Throw (RangeError "Input buffers must have the same byte length"), w)
  /\ handleWorkerWebhook signature payload rawBody env w
     <> (Throw (Error "Invalid signature"), w).
Proof.
  intros Hjob Hhex Hlen.
  rewrite (handleWorkerWebhook_known env w signature payload rawBody job Hjob).
  cbv zeta. unfold expectedSignature.
  rewrite (hex_digest_bytes _ Hhex).
  rewrite bool_decide_eq_false_2 by exact Hlen.
  split; [reflexivity | discriminate].
Qed.

Lemma example_world_lookup status :
  store (example_world status) !! job_key example_jobId = Some (example_job status).
Proof. vm_compute. reflexivity. Qed.

Lemma webhook_signature_verification_witness :
  exists w',
    handleWorkerWebhook
      (expectedSignature env_ok "c2VjcmV0" (example_payload 5 10))
      (example_payload 5 10) EmptyString env_ok (example_world st_downloading)
    = (Ok tt, w').
Proof.
  destruct (webhook_signature_verification env_ok (example_world st_downloading)
              (expectedSignature env_ok "c2VjcmV0" (example_payload 5 10))
              (example_payload 5 10) EmptyString (example_job st_downloading)
              ltac:(vm_compute; reflexivity)) as [Hacc _].
  apply Hacc. reflexivity.
Defined.

Lemma webhook_signature_length_mismatch_witness :
  handleWorkerWebhook "deadbeef" (example_payload 5 10) EmptyString env_ok
    (example_world st_downloading)
  = (Throw (RangeError "Input buffers must have the same byte length"),
     example_world st_downloading).
Proof.
  apply (webhook_signature_length_mismatch env_ok (example_world st_downloading)
           "deadbeef" (example_payload 5 10) EmptyString (example_job st_downloading)).
  - vm_compute. reflexivity.
  - vm_compute. reflexivity.
  - vm_compute. discriminate.
Defined.

Lemma webhook_result_progress env w payload job added :
  FlyWorkerJobMetadata.progress (webhook_result env w payload job added)
  = GooglePhotosImportProgressDto.set_events (push_events added (job_events job))
      (FlyWorkerJobMetadata.progress (mergeProgress payload job)).
Proof. reflexivity. Qed.

Lemma webhook_result_events env w payload job added :
  job_events (webhook_result env w payload job added)
  = push_events added (job_events job).
Proof. reflexivity. Qed.

Lemma webhook_result_errors env w payload job added :
  job_errors (webhook_result env w payload job added)
  = (job_errors job ++ default [] (WorkerProgressDto.errors payload))%list.
Proof. rewrite <- mergeProgress_errors. reflexivity. Qed.


Lemma webhook_result_jobId env w payload job added :
  FlyWorkerJobMetadata.jobId (webhook_result env w payload job added)
  = FlyWorkerJobMetadata.jobId job.
Proof. rewrite <- (mergeProgress_jobId payload job). reflexivity. Qed.

(** C7, as the code has it. A webhook with the expected signature for a
    persisted job is accepted, and in the record it persists:
    [progress.current] and [progress.total] are the reported values;
    [photosImported] and [albumsFound] are the reported values when the
    payload has them and are left as they were when it omits them;
    [bytesDownloaded] and [totalBytes] are whatever the payload has, so they
    are cleared when the payload omits them; and the payload's errors are
    appended to the stored errors. *)
Theorem webhook_merges_progress (env : Env) (w : World)
    (payload : WorkerProgressDto.t) (rawBody : string) (job : FlyWorkerJobMetadata.t) :
  store w !! job_key (WorkerProgressDto.jobId payload) = Some job ->
  FlyWorkerJobMetadata.jobId job = WorkerProgressDto.jobId payload ->
  exists w' job',
    handleWorkerWebhook
      (hmac_sha256_hex env (FlyWorkerJobMetadata.webhookSecret job)
         (stableStringify (WorkerProgressDto_json payload)))
      payload rawBody env w = (Ok tt, w')
    /\ store w' !! job_key (WorkerProgressDto.jobId payload) = Some job'
    /\ let old := FlyWorkerJobMetadata.progress job in
       let new := FlyWorkerJobMetadata.progress job' in
       GooglePhotosImportProgressDto.current new
       = WorkerProgressPayloadDto.current (WorkerProgressDto.progress payload)
       /\ GooglePhotosImportProgressDto.total new
          = WorkerProgressPayloadDto.total (WorkerProgressDto.progress payload)
       /\ GooglePhotosImportProgressDto.photosImported new
          = default (GooglePhotosImportProgressDto.photosImported old)
                    (WorkerProgressDto.photosImported payload)
       /\ GooglePhotosImportProgressDto.albumsFound new
          = default (GooglePhotosImportProgressDto.albumsFound old)
                    (WorkerProgressDto.albumsFound payload)
       /\ GooglePhotosImportProgressDto.bytesDownloaded new
          = WorkerProgressDto.bytesDownloaded payload
       /\ GooglePhotosImportProgressDto.totalBytes new
          = WorkerProgressDto.totalBytes payload
       /\ GooglePhotosImportProgressDto.errors new
          = (GooglePhotosImportProgressDto.errors old
             ++ default [] (WorkerProgressDto.errors payload))%list.
Proof.
  intros Hjob Hid.
  destruct (handleWorkerWebhook_accepts env w payload rawBody job Hjob Hid)
    as (added & w' & Hrun & Hstore & _ & _).
  exists w', (webhook_result env w payload job added).
  split; [exact Hrun|].
  split; [rewrite Hstore; apply lookup_insert_eq|].
  cbv zeta. rewrite webhook_result_progress.
  split; [apply mergeProgress_current|].
  split; [apply mergeProgress_total|].
  split; [apply mergeProgress_photosImported|].
  split; [apply mergeProgress_albumsFound|].
  split; [apply mergeProgress_bytesDownloaded|].
  split; [apply mergeProgress_totalBytes|].
  apply (mergeProgress_errors payload job).
Qed.

Lemma webhook_merges_progress_witness :
  exists w' job',
    handleWorkerWebhook
      (hmac_sha256_hex env_ok
         (FlyWorkerJobMetadata.webhookSecret (example_job st_downloading))
         (stableStringify (WorkerProgressDto_json (example_payload 5 10))))
      (example_payload 5 10) EmptyString env_ok (example_world st_downloading)
    = (Ok tt, w')
    /\ store w' !! job_key (WorkerProgressDto.jobId (example_payload 5 10)) = Some job'
    /\ GooglePhotosImportProgressDto.photosImported (FlyWorkerJobMetadata.progress job') = 7
    /\ GooglePhotosImportProgressDto.bytesDownloaded (FlyWorkerJobMetadata.progress job')
       = None.
Proof.
  destruct (webhook_merges_progress env_ok (example_world st_downloading)
              (example_payload 5 10) EmptyString (example_job st_downloading)
              ltac:(vm_compute; reflexivity) ltac:(reflexivity))
    as (w' & job' & Hrun & Hstore & _ & _ & Hphotos & _ & Hbytes & _).
  exists w', job'.
  exact (conj Hrun (conj Hstore (conj Hphotos Hbytes))).
Defined.

(** The stored byte counter of [example_job] is [4096]; a webhook that omits
    [bytesDownloaded] clears it. *)
Lemma omitted_bytesDownloaded_is_cleared :
  ~ omitted_fields_unchanged env_ok (example_world st_downloading)
      (example_payload 5 10) EmptyString.
Proof.
  intros H.
  destruct (handleWorkerWebhook_accepts env_ok (example_world st_downloading)
              (example_payload 5 10) EmptyString (example_job st_downloading)
              (example_world_lookup _) eq_refl)
    as (added & w' & Hrun & Hstore & _ & _).
  destruct (H (example_job st_downloading) w'
              (webhook_result env_ok (example_world st_downloading)
                 (example_payload 5 10) (example_job st_downloading) added)
              (example_world_lookup _) Hrun
              ltac:(rewrite Hstore; apply lookup_insert_eq)) as [Hbytes _].
  specialize (Hbytes eq_refl). discriminate Hbytes.
Qed.

(** ** Cleaning up and cancelling *)

Lemma try_apiKeyRepository_delete env w userId keyId :
  try_ (apiKeyRepository_delete userId keyId) env w
  = (Ok tt, add_log (Called (ApiKeyDelete userId keyId)
                       (respond env (log w) (ApiKeyDelete userId keyId))) w).
Proof.
  unfold try_, try_catch, apiKeyRepository_delete, perform. cbv zeta.
  destruct (respond env (log w) (ApiKeyDelete userId keyId)) as [[]|e]; reflexivity.
Qed.

Lemma try_deleteVolume env w volumeId :
  try_ (deleteVolume volumeId) env w
  = (Ok tt, add_log (Called (FlyDeleteVolume volumeId)
                       (respond env (log w) (FlyDeleteVolume volumeId))) w).
Proof.
  unfold try_, try_catch, deleteVolume, perform. cbv zeta.
  destruct (respond env (log w) (FlyDeleteVolume volumeId)) as [[]|e]; reflexivity.
Qed.

Lemma try_rm env w path :
  try_ (rm path) env w
  = (Ok tt, add_log (Called (RemoveDir path) (respond env (log w) (RemoveDir path))) w).
Proof.
  unfold try_, try_catch, rm, perform. cbv zeta.
  destruct (respond env (log w) (RemoveDir path)) as [[]|e]; reflexivity.
Qed.

Lemma try_request_stop env w machineId :
  try_ (request_stop machineId) env w
  = (Ok tt, add_log (Called (FlyStopMachine machineId)
                       (respond env (log w) (FlyStopMachine machineId))) w).
Proof.
  unfold try_, try_catch, request_stop, perform. cbv zeta.
  destruct (respond env (log w) (FlyStopMachine machineId)) as [[]|e]; reflexivity.
Qed.

Lemma try_destroyMachine env w machineId :
  exists r1 r2,
    try_ (destroyMachine machineId) env w
    = (Ok tt, add_log (Called (FlyDeleteMachine machineId) r2)
                (add_log (Called (FlyStopMachine machineId) r1) w)).
Proof.
  unfold try_ at 1, try_catch at 1, destroyMachine, bind.
  rewrite try_request_stop.
  set (w1 := add_log _ w).
  exists (respond env (log w) (FlyStopMachine machineId)),
         (respond env (log w1) (FlyDeleteMachine machineId)).
  unfold try_catch, request_delete_machine, perform. cbv zeta.
  destruct (respond env (log w1) (FlyDeleteMachine machineId)) as [[]|e]; reflexivity.
Qed.

Lemma try_cleanupWorker env w machineId volumeId :
  exists r1 r2 r3,
    try_ (cleanupWorker machineId volumeId) env w
    = (Ok tt, add_log (Called (FlyDeleteVolume volumeId) r3)
                (add_log (Called (FlyDeleteMachine machineId) r2)
                   (add_log (Called (FlyStopMachine machineId) r1) w))).
Proof.
  destruct (try_destroyMachine env w machineId) as (r1 & r2 & H1).
  exists r1, r2. eexists.
  unfold try_ at 1, try_catch, cleanupWorker, bind. rewrite H1.
  rewrite try_deleteVolume. reflexivity.
Qed.

Lemma cleanupWorkerJob_unknown env w jobId :
  store w !! job_key jobId = None -> cleanupWorkerJob jobId env w = (Ok tt, w).
Proof. intros H. unfold cleanupWorkerJob, bind, getWorkerJob. rewrite H. reflexivity. Qed.

Lemma cleanupWorkerJob_run env w jobId job :
  store w !! job_key jobId = Some job ->
  FlyWorkerJobMetadata.jobId job = jobId ->
  exists new w',
    cleanupWorkerJob jobId env w = (Ok tt, w')
    /\ store w' = <[job_key jobId := cleaned env w job]> (store w)
    /\ jobs w' = jobs w
    /\ log w' = (log w ++ new)%list
    /\ background w' = background w
    /\ (if truthy (FlyWorkerJobMetadata.tempApiKeyId job)
        then exists r rest,
               new = Called (ApiKeyDelete (FlyWorkerJobMetadata.userId job)
                               (FlyWorkerJobMetadata.tempApiKeyId job)) r :: rest
        else forall e userId keyId, e ∈ new -> ~ is_revocation userId keyId e).
Proof.
  intros Hjob Hid.
  unfold cleanupWorkerJob, bind at 1, getWorkerJob. rewrite Hjob.
  unfold bind at 1, Date_now. unfold bind at 1, saveWorkerJob at 1.
  cbn [FlyWorkerJobMetadata.jobId FlyWorkerJobMetadata.set_updatedAt
       FlyWorkerJobMetadata.set_status FlyWorkerJobMetadata.tempApiKeyId
       FlyWorkerJobMetadata.userId FlyWorkerJobMetadata.machineId
       FlyWorkerJobMetadata.volumeId].
  rewrite Hid.
  set (w0 := set_store _ (tick w)).
  assert (Hstore0 : forall x, <[job_key jobId := x]> (store w0)
                              = <[job_key jobId := x]> (store w))
    by (intros x; unfold w0; cbn; apply insert_insert_eq).
  destruct (truthy (FlyWorkerJobMetadata.tempApiKeyId job)) eqn:Hkey.
  - unfold bind at 1. rewrite try_apiKeyRepository_delete.
    set (rev := Called _ _).
    destruct (truthy (FlyWorkerJobMetadata.machineId job)
              && truthy (FlyWorkerJobMetadata.volumeId job)).
    + unfold bind at 1.
      destruct (try_cleanupWorker env (add_log rev w0)
                  (FlyWorkerJobMetadata.machineId job)
                  (FlyWorkerJobMetadata.volumeId job)) as (r1 & r2 & r3 & ->).
      exists [rev; Called _ r1; Called _ r2; Called _ r3]. eexists.
      split; [reflexivity|]. cbn. rewrite Hid, Hstore0, <- !app_assoc.
      repeat split. eexists _, _. reflexivity.
    + unfold bind at 1, ret at 1.
      exists [rev]. eexists.
      split; [reflexivity|]. cbn. rewrite Hid, Hstore0.
      repeat split. eexists _, _. reflexivity.
  - unfold bind at 1, ret at 1.
    destruct (truthy (FlyWorkerJobMetadata.machineId job)
              && truthy (FlyWorkerJobMetadata.volumeId job)).
    + unfold bind at 1.
      destruct (try_cleanupWorker env w0
                  (FlyWorkerJobMetadata.machineId job)
                  (FlyWorkerJobMetadata.volumeId job)) as (r1 & r2 & r3 & ->).
      exists [Called _ r1; Called _ r2; Called _ r3]. eexists.
      split; [reflexivity|]. cbn. rewrite Hid, Hstore0, <- !app_assoc.
      repeat split.
      intros e userId keyId He Hrev. unfold is_revocation in Hrev.
      repeat (apply elem_of_cons in He as [->|He]; [discriminate Hrev|]).
      inversion He.
    + unfold bind at 1, ret at 1.
      exists []. eexists.
      split; [reflexivity|]. cbn. rewrite Hid, Hstore0, app_nil_r.
      repeat split. intros e userId keyId He. inversion He.
Qed.

Lemma calls_between_app w w' new :
  log w' = (log w ++ new)%list -> calls_between w w' = new.
Proof. intros H. unfold calls_between. rewrite H. apply drop_app_length. Qed.

(** C2, as the code has it. For a persisted job, two cleanups in sequence
    both return without an error and both leave the persisted status
    [cleanup]; the second cleanup revokes the credential again whenever the
    record holds a temporary key id, whatever the first revocation reported
    (a failure of a revocation is swallowed); with no key id neither cleanup
    revokes anything. *)
Theorem cleanup_twice (env : Env) (w : World) (jobId : string)
    (job : FlyWorkerJobMetadata.t) :
  store w !! job_key jobId = Some job ->
  FlyWorkerJobMetadata.jobId job = jobId ->
  exists w1 w2,
    cleanupWorkerJob jobId env w = (Ok tt, w1)
    /\ cleanupWorkerJob jobId env w1 = (Ok tt, w2)
    /\ persisted_status w1 jobId = Some st_cleanup
    /\ persisted_status w2 jobId = Some st_cleanup
    /\ (if truthy (FlyWorkerJobMetadata.tempApiKeyId job)
        then
          (exists r rest,
              calls_between w w1
              = Called (ApiKeyDelete (FlyWorkerJobMetadata.userId job)
                          (FlyWorkerJobMetadata.tempApiKeyId job)) r :: rest)
          /\ (exists r rest,
                 calls_between w1 w2
                 = Called (ApiKeyDelete (FlyWorkerJobMetadata.userId job)
                             (FlyWorkerJobMetadata.tempApiKeyId job)) r :: rest)
        else
          forall e userId keyId,
            e ∈ (calls_between w w1 ++ calls_between w1 w2)%list ->
            ~ is_revocation userId keyId e).
Proof.
  intros Hjob Hid.
  destruct (cleanupWorkerJob_run env w jobId job Hjob Hid)
    as (new1 & w1 & Hrun1 & Hstore1 & _ & Hlog1 & _ & Hrev1).
  assert (Hjob1 : store w1 !! job_key jobId = Some (cleaned env w job))
    by (rewrite Hstore1; apply lookup_insert_eq).
  destruct (cleanupWorkerJob_run env w1 jobId (cleaned env w job) Hjob1 Hid)
    as (new2 & w2 & Hrun2 & Hstore2 & _ & Hlog2 & _ & Hrev2).
  exists w1, w2.
  split; [exact Hrun1|]. split; [exact Hrun2|].
  split; [unfold persisted_status; rewrite Hjob1; reflexivity|].
  split; [unfold persisted_status; rewrite Hstore2, lookup_insert_eq; reflexivity|].
  rewrite (calls_between_app _ _ _ Hlog1), (calls_between_app _ _ _ Hlog2).
  change (FlyWorkerJobMetadata.tempApiKeyId (cleaned env w job))
    with (FlyWorkerJobMetadata.tempApiKeyId job) in Hrev2.
  change (FlyWorkerJobMetadata.userId (cleaned env w job))
    with (FlyWorkerJobMetadata.userId job) in Hrev2.
  destruct (truthy (FlyWorkerJobMetadata.tempApiKeyId job)).
  - split; assumption.
  - intros e userId keyId He. apply elem_of_app in He as [He|He]; eauto.
Qed.

Lemma cleanup_twice_witness :
  exists w1 w2 r rest,
    cleanupWorkerJob example_jobId env_ok (example_world st_complete) = (Ok tt, w1)
    /\ cleanupWorkerJob example_jobId env_ok w1 = (Ok tt, w2)
    /\ persisted_status w2 example_jobId = Some st_cleanup
    /\ calls_between w1 w2 = Called (ApiKeyDelete "user-1" "key-1") r :: rest.
Proof.
  destruct (cleanup_twice env_ok (example_world st_complete) example_jobId
              (example_job st_complete) ltac:(vm_compute; reflexivity)
              ltac:(reflexivity))
    as (w1 & w2 & H1 & H2 & _ & Hs & _ & (r & rest & Hrev)).
  exists w1, w2, r, rest. repeat split; assumption.
Defined.

(** The first cleanup of [example_job] revokes the key and is told that it
    succeeded; the second cleanup revokes it again. *)
Lemma cleanup_revokes_again :
  ~ cleanup_never_revokes_twice env_ok (example_world st_complete) example_jobId.
Proof.
  intros H.
  set (first := cleanupWorkerJob example_jobId env_ok (example_world st_complete)).
  set (second := cleanupWorkerJob example_jobId env_ok (snd first)).
  destruct (H (fst first) (snd first) (fst second) (snd second)
              (surjective_pairing _) (surjective_pairing _)) as (_ & _ & Hno).
  apply (Hno "user-1" "key-1"
           ltac:(apply list_elem_of_In; vm_compute; auto) (Ok tt)).
  apply list_elem_of_In. vm_compute. auto.
Qed.

Lemma cancelWorkerJob_known env w jobId job :
  store w !! job_key jobId = Some job ->
  cancelWorkerJob jobId env w
  = cleanupWorkerJob jobId env
      (set_store (insert (job_key (FlyWorkerJobMetadata.jobId job))
                    (cancelled_worker (clock env (ticks w)) job)) (tick w)).
Proof.
  intros Hjob. unfold cancelWorkerJob, bind at 1, getWorkerJob. rewrite Hjob.
  reflexivity.
Qed.

Lemma cancelWorkerJob_run env w jobId job :
  store w !! job_key jobId = Some job ->
  FlyWorkerJobMetadata.jobId job = jobId ->
  exists w' job',
    cancelWorkerJob jobId env w = (Ok tt, w')
    /\ store w' !! job_key jobId = Some job'
    /\ FlyWorkerJobMetadata.jobId job' = jobId
    /\ FlyWorkerJobMetadata.status job' = st_cleanup
    /\ job_errors job' = (job_errors job ++ ["Cancelled by user"])%list.
Proof.
  intros Hjob Hid. rewrite (cancelWorkerJob_known _ _ _ _ Hjob), Hid.
  set (w0 := set_store _ (tick w)).
  destruct (cleanupWorkerJob_run env w0 jobId (cancelled_worker (clock env (ticks w)) job))
    as (new & w' & Hrun & Hstore & _); [apply lookup_insert_eq | exact Hid |].
  exists w'. eexists. split; [exact Hrun|].
  split; [rewrite Hstore; apply lookup_insert_eq|].
  split; [exact Hid|]. split; reflexivity.
Qed.

Lemma cancelJob_unknown env w jobId :
  jobs w !! jobId = None -> cancelJob jobId env w = (Ok tt, w).
Proof. intros H. unfold cancelJob, bind, jobs_get. rewrite H. reflexivity. Qed.

Lemma cleanupJob_run env w job :
  exists w', cleanupJob job env w = (Ok tt, w')
             /\ store w' = store w /\ jobs w' = jobs w.
Proof.
  unfold cleanupJob, bind.
  destruct (ImportJob.tempApiKeyId job) as [keyId|]; [destruct (truthy keyId)|].
  - rewrite try_apiKeyRepository_delete, try_rm. eexists. repeat split.
  - unfold ret at 1. rewrite try_rm. eexists. repeat split.
  - unfold ret at 1. rewrite try_rm. eexists. repeat split.
Qed.

(** C8, as the code has it. For a persisted job, whatever its status, the
    cancel is: persist the record with status [failed] and the error
    [Cancelled by user] appended, then clean up; it returns without an error
    and leaves the status [cleanup]; a second cancel does the same again, so
    the error is then recorded twice. A job id that neither the store nor the
    in-memory map knows is a no-op; a job of the in-memory map is marked
    [failed] with the same error appended on every cancel. *)
Theorem cancelWorkerJob_appends_each_time (env : Env) (w : World) (jobId : string)
    (job : FlyWorkerJobMetadata.t) :
  store w !! job_key jobId = Some job ->
  FlyWorkerJobMetadata.jobId job = jobId ->
  let failed := cancelled_worker (clock env (ticks w)) job in
  (cancelWorkerJob jobId env w
   = cleanupWorkerJob jobId env
       (set_store (insert (job_key jobId) failed) (tick w))
   /\ FlyWorkerJobMetadata.status failed = st_failed
   /\ job_errors failed = (job_errors job ++ ["Cancelled by user"])%list)
  /\ (exists w1 job1 w2 job2,
         cancelWorkerJob jobId env w = (Ok tt, w1)
         /\ store w1 !! job_key jobId = Some job1
         /\ FlyWorkerJobMetadata.status job1 = st_cleanup
         /\ job_errors job1 = (job_errors job ++ ["Cancelled by user"])%list
         /\ cancelWorkerJob jobId env w1 = (Ok tt, w2)
         /\ store w2 !! job_key jobId = Some job2
         /\ FlyWorkerJobMetadata.status job2 = st_cleanup
         /\ job_errors job2
            = (job_errors job ++ ["Cancelled by user"; "Cancelled by user"])%list)
  /\ (forall w0 : World,
         store w0 !! job_key jobId = None ->
         match jobs w0 !! jobId with
         | None => cancelWorkerJob jobId env w0 = (Ok tt, w0)
         | Some local =>
             exists w', cancelWorkerJob jobId env w0 = (Ok tt, w')
                        /\ store w' = store w0
                        /\ jobs w' = <[jobId := cancelled local]> (jobs w0)
         end).
Proof.
  intros Hjob Hid failed. split; [|split].
  - split; [|split; reflexivity].
    rewrite (cancelWorkerJob_known _ _ _ _ Hjob), Hid. reflexivity.
  - destruct (cancelWorkerJob_run env w jobId job Hjob Hid)
      as (w1 & job1 & Hrun1 & Hjob1 & Hid1 & Hst1 & Herr1).
    destruct (cancelWorkerJob_run env w1 jobId job1 Hjob1 Hid1)
      as (w2 & job2 & Hrun2 & Hjob2 & _ & Hst2 & Herr2).
    exists w1, job1, w2, job2. repeat split; try assumption.
    rewrite Herr2, Herr1, <- app_assoc. reflexivity.
  - intros w0 Hnone.
    assert (cancelWorkerJob jobId env w0 = cancelJob jobId env w0) as ->
      by (unfold cancelWorkerJob, bind at 1, getWorkerJob; rewrite Hnone; reflexivity).
    destruct (jobs w0 !! jobId) as [local|] eqn:Hlocal.
    + destruct (cleanupJob_run env (set_jobs (insert jobId (cancelled local)) w0)
                  (cancelled local)) as (w' & Hrun & Hs & Hj).
      exists w'. split; [|split; assumption].
      rewrite <- Hrun. unfold cancelJob, bind at 1, jobs_get. rewrite Hlocal.
      reflexivity.
    + apply cancelJob_unknown. exact Hlocal.
Qed.

Lemma cancelWorkerJob_appends_each_time_witness :
  exists w1 w2 job2,
    cancelWorkerJob example_jobId env_ok (example_world st_complete) = (Ok tt, w1)
    /\ cancelWorkerJob example_jobId env_ok w1 = (Ok tt, w2)
    /\ store w2 !! job_key example_jobId = Some job2
    /\ job_errors job2 = ["Cancelled by user"; "Cancelled by user"].
Proof.
  destruct (cancelWorkerJob_appends_each_time env_ok (example_world st_complete)
              example_jobId (example_job st_complete)
              ltac:(vm_compute; reflexivity) ltac:(reflexivity))
    as (_ & (w1 & job1 & w2 & job2 & H1 & _ & _ & _ & H2 & Hs & _ & He) & _).
  exists w1, w2, job2. repeat split; assumption.
Defined.

(** [example_job] in status [complete] is terminal, yet cancelling it changes
    the persisted record. *)
Lemma cancel_of_terminal_job_changes_state :
  ~ cancel_is_idempotent env_ok (example_world st_complete) example_jobId.
Proof.
  intros [Hnoop _].
  specialize (Hnoop (example_job st_complete) (example_world_lookup _) eq_refl).
  apply (f_equal (fun r => persisted_status (snd r) example_jobId)) in Hnoop.
  vm_compute in Hnoop. discriminate Hnoop.
Qed.

(** ** Starting a job *)

Lemma bind_perform {B} c (k : reply c -> M B) env w :
  bind (perform c) k env w
  = match respond env (log w) c with
    | Ok a => k a env (add_log (Called c (Ok a)) w)
    | Throw e => (Throw e, add_log (Called c (Throw e)) w)
    end.
Proof. unfold bind, perform. cbv zeta. destruct (respond env (log w) c); reflexivity. Qed.

Lemma bind_ret {A B} (a : A) (k : A -> M B) env w : bind (ret a) k env w = k a env w.
Proof. reflexivity. Qed.

Lemma bind_Date_now {B} (k : string -> M B) env w :
  bind Date_now k env w = k (clock env (ticks w)) env (tick w).
Proof. reflexivity. Qed.

Lemma bind_saveWorkerJob {B} job (k : unit -> M B) env w :
  bind (saveWorkerJob job) k env w
  = k tt env (set_store (insert (job_key (FlyWorkerJobMetadata.jobId job)) job) w).
Proof. reflexivity. Qed.

Lemma bind_bind {A B C} (m : M A) (k : A -> M B) (k' : B -> M C) env w :
  bind (bind m k) k' env w = bind m (fun a => bind (k a) k') env w.
Proof. unfold bind. destruct (m env w) as [[a|e] w']; reflexivity. Qed.

Lemma try_catch_bind {A B} (m : M A) (k : A -> M B) (h : exn -> M B) env w :
  try_catch (bind m k) h env w
  = match m env w with
    | (Ok a, w') => try_catch (k a) h env w'
    | (Throw e, w') => h e env w'
    end.
Proof. unfold try_catch, bind. destruct (m env w) as [[a|e] w']; reflexivity. Qed.

Lemma createWorker_run env w config :
  let region := or_default (CreateWorkerConfig.region config) "ord" in
  let size := calculateVolumeSizeGb (CreateWorkerConfig.fileSizes config) in
  createWorker config env w
  = match respond env (log w) (FlyCreateVolume size region) with
    | Throw e => (Throw e, add_log (Called (FlyCreateVolume size region) (Throw e)) w)
    | Ok v =>
        let w1 := add_log (Called (FlyCreateVolume size region) (Ok v)) w in
        let mc := worker_machine_config config region v in
        match respond env (log w1) (FlyCreateMachine mc) with
        | Ok m => (Ok (m, v), add_log (Called (FlyCreateMachine mc) (Ok m)) w1)
        | Throw e =>
            let w2 := add_log (Called (FlyCreateMachine mc) (Throw e)) w1 in
            (Throw e,
             add_log (Called (FlyDeleteVolume v)
                        (respond env (log w2) (FlyDeleteVolume v))) w2)
        end
    end.
Proof.
  cbv zeta. unfold createWorker, createVolume. cbv zeta.
  rewrite (bind_perform (FlyCreateVolume _ _)).
  destruct (respond env (log w) (FlyCreateVolume _ _)) as [v|e]; [|reflexivity].
  unfold createMachine. rewrite try_catch_bind.
  unfold perform at 1. cbv zeta.
  destruct (respond env _ (FlyCreateMachine _)) as [m|e]; [reflexivity|].
  unfold bind at 1. rewrite try_deleteVolume. reflexivity.
Qed.


Ltac calls_of H :=
  unfold calls_between in H;
  cbn [log add_log tick set_store store jobs ticks background] in H;
  rewrite <- ?app_assoc in H; rewrite drop_app_length in H; cbn [app] in H.

(** Closes a goal whose hypothesis [H] says that an event with a projection
    [proj] is among calls none of which has one. *)
Ltac no_such proj H :=
  exfalso; calls_of H;
  repeat (apply elem_of_cons in H as [H|H];
          [apply (f_equal proj) in H; cbn [proj] in H; discriminate H|]);
  inversion H.

Lemma bind_try_apiKeyRepository_delete {B} userId keyId (k : unit -> M B) env w :
  bind (try_ (apiKeyRepository_delete userId keyId)) k env w
  = k tt env (add_log (Called (ApiKeyDelete userId keyId)
                         (respond env (log w) (ApiKeyDelete userId keyId))) w).
Proof. unfold bind. rewrite try_apiKeyRepository_delete. reflexivity. Qed.

Ltac early Hrun Hvol := injection Hrun as <- <-; no_such created_volume Hvol.

(** C1. In every run of [createImportJobWithFlyWorker] in which the call
    that creates the volume succeeds with volume id [volumeId] and the call
    that creates the machine fails with [error]: the run ends by throwing
    [error] to the caller; before that, and after the failed machine call,
    the volume-delete call is made with [volumeId], and with no other id;
    and the record of the job of this run (the one whose id was drawn in
    the run) is left in the store with status [failed] and the one error
    [Failed to create worker: <error>]. *)
Theorem start_rolls_back_volume (env : Env) (w : World) (userId : string)
    (fileIds : list string) (fileSizes : list Z)
    (r : Result FlyWorkerJobResponseDto.t) (w' : World)
    (sizeGb : Z) (region volumeId : string) (config : MachineConfig.t) (error : exn) :
  createImportJobWithFlyWorker userId fileIds fileSizes env w = (r, w') ->
  Called (FlyCreateVolume sizeGb region) (Ok volumeId) ∈ calls_between w w' ->
  Called (FlyCreateMachine config) (Throw error) ∈ calls_between w w' ->
  r = Throw error
  /\ (exists before outcome after,
         calls_between w w'
         = (before ++ Called (FlyDeleteVolume volumeId) outcome :: after)%list
         /\ Called (FlyCreateMachine config) (Throw error) ∈ before)
  /\ (forall v outcome, Called (FlyDeleteVolume v) outcome ∈ calls_between w w' ->
        v = volumeId)
  /\ (exists job,
         Called RandomUUID (Ok (FlyWorkerJobMetadata.jobId job)) ∈ calls_between w w'
         /\ FlyWorkerJobMetadata.userId job = userId
         /\ store w' !! job_key (FlyWorkerJobMetadata.jobId job) = Some job
         /\ FlyWorkerJobMetadata.status job = st_failed
         /\ job_errors job = ["Failed to create worker: " ++ exn_to_string error]).
Proof.
  intros Hrun Hvol Hmach.
  unfold createImportJobWithFlyWorker, createTemporaryApiKey, randomUUID,
    randomBytesAsText, getGoogleDriveTokens, getConfig, hashSha256,
    apiKeyRepository_create, process_env in Hrun.
  rewrite (bind_perform RandomUUID) in Hrun.
  destruct (respond env _ RandomUUID) as [jobId|e0]; [|early Hrun Hvol].
  rewrite (bind_perform (RandomBytesAsText _)) in Hrun.
  destruct (respond env _ (RandomBytesAsText 32)) as [secret|e0]; [|early Hrun Hvol].
  rewrite (bind_perform (GetGoogleDriveTokens _)) in Hrun.
  destruct (respond env _ (GetGoogleDriveTokens userId)) as [[tokens|]|e0];
    [| early Hrun Hvol | early Hrun Hvol].
  rewrite (bind_perform GetConfig) in Hrun.
  destruct (respond env _ GetConfig) as [cfg|e0]; [|early Hrun Hvol].
  destruct (negb _) eqn:Hoauth; [early Hrun Hvol|].
  rewrite !bind_bind, (bind_perform (RandomBytesAsText _)) in Hrun.
  destruct (respond env _ (RandomBytesAsText 32)) as [token|e0]; [|early Hrun Hvol].
  rewrite !bind_bind, (bind_perform (HashSha256 _)) in Hrun.
  destruct (respond env _ (HashSha256 token)) as [hashed|e0]; [|early Hrun Hvol].
  rewrite !bind_bind, (bind_perform (ApiKeyCreate _ _ _ _)) in Hrun.
  destruct (respond env _ (ApiKeyCreate _ _ _ _)) as [keyId|e0]; [|early Hrun Hvol].
  rewrite bind_ret in Hrun.
  match type of Hrun with
  | bind _ ?k _ _ = _ =>
      assert (Hrest : exists (serverUrl : option string) (w0 : World) (pre : list event),
                 log w0 = (log w ++ pre)%list
                 /\ Called RandomUUID (Ok jobId) ∈ pre
                 /\ (forall e, e ∈ pre ->
                       created_volume e = None /\ machine_failure e = None
                       /\ forall v, event_call e <> FlyDeleteVolume v)
                 /\ k serverUrl env w0 = (r, w'))
  end.
  { destruct (truthy (SystemConfig.server_externalDomain cfg)).
    - eexists _, _, _. split; [|split; [|split; [|exact Hrun]]].
      + cbn [log add_log]. rewrite <- !app_assoc. cbn [app]. reflexivity.
      + apply elem_of_cons. left. reflexivity.
      + intros e He.
        repeat (apply elem_of_cons in He as [->|He]; [repeat split; discriminate|]).
        inversion He.
    - rewrite (bind_perform (ProcessEnv _)) in Hrun.
      destruct (respond env _ (ProcessEnv _)) as [serverUrl|e0]; [|early Hrun Hvol].
      eexists serverUrl, _, _. split; [|split; [|split; [|exact Hrun]]].
      + cbn [log add_log]. rewrite <- !app_assoc. cbn [app]. reflexivity.
      + apply elem_of_cons. left. reflexivity.
      + intros e He.
        repeat (apply elem_of_cons in He as [->|He]; [repeat split; discriminate|]).
        inversion He. }
  clear Hrun. destruct Hrest as (serverUrl & w0 & pre & Hlog0 & Huuid & Hpre & Hrun).
  assert (Hcalls : forall w1 more,
             log w1 = (log w0 ++ more)%list -> calls_between w w1 = (pre ++ more)%list).
  { intros w1 more Hl. apply calls_between_app. rewrite Hl, Hlog0, app_assoc.
    reflexivity. }
  destruct (negb (truthy (or_default serverUrl EmptyString))).
  { injection Hrun as <- <-. exfalso.
    rewrite (Hcalls w0 []), app_nil_r in Hvol by (rewrite app_nil_r; reflexivity).
    apply Hpre in Hvol as [Hvol _]. discriminate Hvol. }
  rewrite bind_Date_now in Hrun.
  match type of Hrun with
  | context [saveWorkerJob ?j] => set (job0 := j) in Hrun
  end.
  match type of Hrun with
  | context [createWorker ?c] => set (cwc := c) in Hrun
  end.
  rewrite bind_saveWorkerJob, try_catch_bind, createWorker_run in Hrun.
  cbv zeta in Hrun.
  set (w1 := set_store _ (tick w0)) in Hrun.
  set (size := calculateVolumeSizeGb _) in Hrun.
  set (reg := or_default _ "ord") in Hrun.
  assert (Hlog1 : log w1 = log w0) by reflexivity.
  destruct (respond env (log w1) (FlyCreateVolume size reg)) as [v0|e0].
  2: { (* the volume was not created *)
    rewrite bind_Date_now, bind_saveWorkerJob, bind_try_apiKeyRepository_delete in Hrun.
    injection Hrun as <- <-. exfalso.
    erewrite Hcalls in Hvol
      by (cbn [log add_log tick set_store]; rewrite Hlog1, <- ?app_assoc; cbn [app];
          reflexivity).
    apply elem_of_app in Hvol as [Hvol|Hvol];
      [apply Hpre in Hvol as [Hvol _]; discriminate Hvol|].
    repeat (apply elem_of_cons in Hvol as [Hvol|Hvol];
            [apply (f_equal created_volume) in Hvol; discriminate Hvol|]).
    inversion Hvol. }
  set (w2 := add_log _ w1) in Hrun.
  assert (Hlog2 : log w2 = (log w0 ++ [Called (FlyCreateVolume size reg) (Ok v0)])%list)
    by reflexivity.
  set (mc := worker_machine_config cwc reg v0) in *.
  destruct (respond env (log w2) (FlyCreateMachine mc)) as [m0|e1].
  { (* the machine was created *)
    cbv beta iota zeta delta [try_catch bind Date_now addEvent saveWorkerJob ret] in Hrun.
    injection Hrun as <- <-. exfalso.
    erewrite Hcalls in Hmach
      by (cbn [log add_log tick set_store]; rewrite Hlog2, <- ?app_assoc; cbn [app];
          reflexivity).
    apply elem_of_app in Hmach as [Hmach|Hmach];
      [apply Hpre in Hmach as (_ & Hmach & _); discriminate Hmach|].
    repeat (apply elem_of_cons in Hmach as [Hmach|Hmach];
            [apply (f_equal machine_failure) in Hmach; discriminate Hmach|]).
    inversion Hmach. }
  (* the volume was created and the machine was not *)
  rewrite bind_Date_now, bind_saveWorkerJob, bind_try_apiKeyRepository_delete in Hrun.
  match type of Hrun with
  | throw _ _ ?x = _ => set (wf := x) in Hrun
  end.
  injection Hrun as <- <-.
  assert (Hall : exists deleted revoked,
             calls_between w wf
             = (pre ++ [Called (FlyCreateVolume size reg) (Ok v0);
                        Called (FlyCreateMachine mc) (Throw e1);
                        Called (FlyDeleteVolume v0) deleted;
                        Called (ApiKeyDelete userId keyId) revoked])%list).
  { eexists _, _. apply Hcalls. unfold wf. cbn [log add_log tick set_store].
    rewrite Hlog2, <- ?app_assoc. reflexivity. }
  destruct Hall as (deleted & revoked & Hall). rewrite Hall in Hvol, Hmach |- *.
  apply elem_of_app in Hvol as [Hvol|Hvol];
    [apply Hpre in Hvol as [Hvol _]; discriminate Hvol|].
  repeat (apply elem_of_cons in Hvol as [Hvol|Hvol];
          [try (apply (f_equal created_volume) in Hvol; discriminate Hvol)|]);
    try solve [inversion Hvol].
  apply (f_equal created_volume) in Hvol. injection Hvol as ->.
  apply elem_of_app in Hmach as [Hmach|Hmach];
    [apply Hpre in Hmach as (_ & Hmach & _); discriminate Hmach|].
  repeat (apply elem_of_cons in Hmach as [Hmach|Hmach];
          [try (apply (f_equal machine_failure) in Hmach; discriminate Hmach)|]);
    try solve [inversion Hmach].
  pose proof (f_equal machine_failure Hmach) as Herr. injection Herr as ->.
  split; [reflexivity|]. split; [|split].
  - exists (pre ++ [Called (FlyCreateVolume size reg) (Ok v0);
                    Called (FlyCreateMachine mc) (Throw e1)])%list,
           deleted, [Called (ApiKeyDelete userId keyId) revoked].
    split; [rewrite <- app_assoc; reflexivity|].
    rewrite Hmach. apply elem_of_app. right.
    apply elem_of_cons. right. apply elem_of_cons. left. reflexivity.
  - intros v outcome Hdel.
    apply elem_of_app in Hdel as [Hdel|Hdel];
      [apply Hpre in Hdel as (_ & _ & Hdel); exfalso; apply (Hdel v); reflexivity|].
    repeat (apply elem_of_cons in Hdel as [Hdel|Hdel];
            [apply (f_equal event_call) in Hdel; cbn [event_call] in Hdel;
             try discriminate Hdel|]);
      try solve [inversion Hdel].
    injection Hdel as ->. reflexivity.
  - eexists. split; [|split; [|split; [unfold wf; cbn [store add_log set_store tick];
                                        apply lookup_insert_eq|]]].
    + apply elem_of_app. left. exact Huuid.
    + reflexivity.
    + split; reflexivity.
Qed.

Lemma start_rolls_back_volume_witness :
  exists w' job,
    createImportJobWithFlyWorker "user-1" ["file-1"] [GiB] env_no_machine empty_world
    = (Throw (Error "Fly API error: 422 insufficient capacity"), w')
    /\ (forall v outcome, Called (FlyDeleteVolume v) outcome ∈ calls_between empty_world w' ->
          v = "vol_1")
    /\ store w' !! job_key (FlyWorkerJobMetadata.jobId job) = Some job
    /\ FlyWorkerJobMetadata.status job = st_failed.
Proof.
  set (run := createImportJobWithFlyWorker "user-1" ["file-1"] [GiB] env_no_machine
                empty_world).
  destruct (start_rolls_back_volume env_no_machine empty_world "user-1" ["file-1"] [GiB]
              (fst run) (snd run) 10 "ord" "vol_1" example_machine_config
              (Error "Fly API error: 422 insufficient capacity")
              ltac:(vm_compute; reflexivity)
              ltac:(apply list_elem_of_In; vm_compute; auto 20)
              ltac:(apply list_elem_of_In; vm_compute; auto 20))
    as (Hr & _ & Hdel & job & _ & _ & Hstore & Hstatus & _).
  exists (snd run), job.
  split; [rewrite <- Hr; apply surjective_pairing|].
  split; [exact Hdel|]. split; assumption.
Defined.

(** * Further properties of the code *)

(** ** Volume sizing (calculateVolumeSizeGb) *)

Lemma Math_ceil_div_monotone (a a' b : Z) :
  0 < b -> a <= a' -> Math_ceil_div a b <= Math_ceil_div a' b.
Proof.
  intros Hb H. unfold Math_ceil_div.
  pose proof (Z.div_le_mono (- a') (- a) b Hb ltac:(lia)). lia.
Qed.

(** X1. The size of the volume depends on the file sizes only through their
    total, and it never shrinks when the total grows. *)
Theorem calculateVolumeSizeGb_monotone (fileSizes fileSizes' : list Z) :
  sum_sizes fileSizes <= sum_sizes fileSizes' ->
  calculateVolumeSizeGb fileSizes <= calculateVolumeSizeGb fileSizes'.
Proof.
  intros H. rewrite !calculateVolumeSizeGb_unfold.
  pose proof (Math_ceil_div_monotone _ _ GiB ltac:(unfold GiB; lia) H). lia.
Qed.

Lemma calculateVolumeSizeGb_monotone_witness :
  sum_sizes [3 * GiB; 4 * GiB] <= sum_sizes [8 * GiB]
  /\ calculateVolumeSizeGb [3 * GiB; 4 * GiB] <= calculateVolumeSizeGb [8 * GiB].
Proof.
  assert (H : sum_sizes [3 * GiB; 4 * GiB] <= sum_sizes [8 * GiB])
    by (vm_compute; discriminate).
  split; [exact H | exact (calculateVolumeSizeGb_monotone _ _ H)].
Defined.

(** X2. Up to a total of 95 GiB the volume holds the files and 5 GiB
    besides. *)
Theorem calculateVolumeSizeGb_holds_the_files (fileSizes : list Z) :
  sum_sizes fileSizes <= 95 * GiB ->
  sum_sizes fileSizes + 5 * GiB <= calculateVolumeSizeGb fileSizes * GiB.
Proof.
  intros H. rewrite calculateVolumeSizeGb_unfold.
  assert (HG : 0 < GiB) by (unfold GiB; lia).
  destruct (Math_ceil_div_is_ceiling (sum_sizes fileSizes) GiB HG) as [H1 H2].
  assert (Math_ceil_div (sum_sizes fileSizes) GiB <= 95) by nia.
  nia.
Qed.

Lemma calculateVolumeSizeGb_holds_the_files_witness :
  sum_sizes [40 * GiB; 1] <= 95 * GiB
  /\ sum_sizes [40 * GiB; 1] + 5 * GiB <= calculateVolumeSizeGb [40 * GiB; 1] * GiB.
Proof.
  assert (H : sum_sizes [40 * GiB; 1] <= 95 * GiB) by (vm_compute; discriminate).
  split; [exact H | exact (calculateVolumeSizeGb_holds_the_files _ H)].
Defined.

(** X3. The cap of 100 GB is applied whatever the files need: for a total
    above 100 GiB the volume is smaller than the files it is created for, and
    the size is computed without an error all the same. *)
Theorem calculateVolumeSizeGb_cap_below_total (fileSizes : list Z) :
  100 * GiB < sum_sizes fileSizes ->
  calculateVolumeSizeGb fileSizes = 100
  /\ calculateVolumeSizeGb fileSizes * GiB < sum_sizes fileSizes.
Proof.
  intros H. rewrite calculateVolumeSizeGb_unfold.
  assert (HG : 0 < GiB) by (unfold GiB; lia).
  destruct (Math_ceil_div_is_ceiling (sum_sizes fileSizes) GiB HG) as [H1 H2].
  assert (100 < Math_ceil_div (sum_sizes fileSizes) GiB + 5) by nia.
  split; lia.
Qed.

Lemma calculateVolumeSizeGb_cap_below_total_witness :
  100 * GiB < sum_sizes [60 * GiB; 60 * GiB]
  /\ calculateVolumeSizeGb [60 * GiB; 60 * GiB] = 100.
Proof.
  assert (H : 100 * GiB < sum_sizes [60 * GiB; 60 * GiB]) by (vm_compute; reflexivity).
  split; [exact H | exact (proj1 (calculateVolumeSizeGb_cap_below_total _ H))].
Defined.

(** ** FlyWorkerService: destroying and creating workers *)

(** X4. [destroyMachine] always makes the stop request and then the delete
    request; what the stop request answers is ignored, and the method ends
    as the delete request ends: it throws exactly when the delete request
    throws, and with the same error. *)
Theorem destroyMachine_outcome (env : Env) (w : World) (machineId : string) :
  let stop := respond env (log w) (FlyStopMachine machineId) in
  let w1 := add_log (Called (FlyStopMachine machineId) stop) w in
  let delete := respond env (log w1) (FlyDeleteMachine machineId) in
  destroyMachine machineId env w
  = (delete, add_log (Called (FlyDeleteMachine machineId) delete) w1).
Proof.
  cbv zeta. unfold destroyMachine, bind. rewrite try_request_stop.
  unfold try_catch, request_delete_machine, perform, throw. cbv zeta.
  destruct (respond env _ (FlyDeleteMachine machineId)) as [[]|e]; reflexivity.
Qed.

(** X5. [cleanupWorker] never throws, whatever the Fly API answers, and it
    always makes the same three requests in the same order: stop the
    machine, delete the machine, delete the volume.  The volume delete is
    attempted also when the machine could not be deleted. *)
Theorem cleanupWorker_best_effort (env : Env) (w : World) (machineId volumeId : string) :
  exists r1 r2 r3,
    cleanupWorker machineId volumeId env w
    = (Ok tt,
       add_log (Called (FlyDeleteVolume volumeId) r3)
         (add_log (Called (FlyDeleteMachine machineId) r2)
            (add_log (Called (FlyStopMachine machineId) r1) w))).
Proof.
  destruct (try_destroyMachine env w machineId) as (r1 & r2 & H1).
  exists r1, r2. eexists.
  unfold cleanupWorker, bind. rewrite H1, try_deleteVolume. reflexivity.
Qed.

(** X6. When [createWorker] returns, it has made two requests and no more:
    the volume was created with the computed size in the region (default
    [ord]), and the machine was created with that volume mounted; the ids
    returned are the ones the Fly API answered; nothing was deleted. *)
Theorem createWorker_success (env : Env) (w w' : World) (config : CreateWorkerConfig.t)
    (machineId volumeId : string) :
  createWorker config env w = (Ok (machineId, volumeId), w') ->
  let region := or_default (CreateWorkerConfig.region config) "ord" in
  let size := calculateVolumeSizeGb (CreateWorkerConfig.fileSizes config) in
  let machine := worker_machine_config config region volumeId in
  calls_between w w'
  = [ Called (FlyCreateVolume size region) (Ok volumeId);
      Called (FlyCreateMachine machine) (Ok machineId) ]
  /\ MachineConfig.volumeId machine = volumeId
  /\ 10 <= size <= 100
  /\ store w' = store w.
Proof.
  intros Hrun. cbv zeta. rewrite createWorker_run in Hrun. cbv zeta in Hrun.
  destruct (respond env (log w) (FlyCreateVolume _ _)) as [v|e]; [|discriminate].
  destruct (respond env _ (FlyCreateMachine _)) as [m|e]; [|discriminate].
  injection Hrun as <- <- <-.
  split; [|split; [reflexivity|split; [|reflexivity]]].
  - apply calls_between_app. cbn [log add_log]. rewrite <- app_assoc. reflexivity.
  - rewrite calculateVolumeSizeGb_unfold. lia.
Qed.

Lemma createWorker_success_witness :
  exists w',
    createWorker example_worker_config env_ok empty_world
    = (Ok ("machine_1", "vol_1"), w')
    /\ calls_between empty_world w'
       = [ Called (FlyCreateVolume 10 "ord") (Ok "vol_1");
           Called (FlyCreateMachine example_machine_config) (Ok "machine_1") ].
Proof.
  set (run := createWorker example_worker_config env_ok empty_world).
  assert (Hrun : run = (Ok ("machine_1", "vol_1"), snd run)) by (vm_compute; reflexivity).
  exists (snd run). split; [exact Hrun|].
  exact (proj1 (createWorker_success env_ok empty_world (snd run) example_worker_config
                  "machine_1" "vol_1" Hrun)).
Defined.

(** X7. When [createWorker] throws, then either the volume could not be
    created, and no other request was made, or the volume was created, the
    machine could not be, and the last request is the delete of that very
    volume; the error thrown is the one of the failed creation, also when
    the delete of the volume fails too.  So [createWorker] never fails while
    leaving a volume that it did not try to delete. *)
Theorem createWorker_failure (env : Env) (w w' : World) (config : CreateWorkerConfig.t)
    (error : exn) :
  createWorker config env w = (Throw error, w') ->
  let region := or_default (CreateWorkerConfig.region config) "ord" in
  let size := calculateVolumeSizeGb (CreateWorkerConfig.fileSizes config) in
  calls_between w w' = [ Called (FlyCreateVolume size region) (Throw error) ]
  \/ exists volumeId outcome,
       calls_between w w'
       = [ Called (FlyCreateVolume size region) (Ok volumeId);
           Called (FlyCreateMachine (worker_machine_config config region volumeId))
                  (Throw error);
           Called (FlyDeleteVolume volumeId) outcome ].
Proof.
  intros Hrun. cbv zeta. rewrite createWorker_run in Hrun. cbv zeta in Hrun.
  destruct (respond env (log w) (FlyCreateVolume _ _)) as [v|e].
  - destruct (respond env _ (FlyCreateMachine _)) as [m|e]; [discriminate|].
    injection Hrun as <- <-. right. eexists v, _.
    apply calls_between_app. cbn [log add_log]. rewrite <- !app_assoc. reflexivity.
  - injection Hrun as <- <-. left.
    apply calls_between_app. reflexivity.
Qed.

Lemma createWorker_failure_witness :
  exists w' volumeId outcome,
    createWorker example_worker_config env_no_machine empty_world
    = (Throw (Error "Fly API error: 422 insufficient capacity"), w')
    /\ last (calls_between empty_world w') = Some (Called (FlyDeleteVolume volumeId) outcome).
Proof.
  set (run := createWorker example_worker_config env_no_machine empty_world).
  assert (Hrun : run = (Throw (Error "Fly API error: 422 insufficient capacity"), snd run))
    by (vm_compute; reflexivity).
  exists (snd run).
  destruct (createWorker_failure env_no_machine empty_world (snd run)
              example_worker_config _ Hrun) as [H | (volumeId & outcome & H)].
  - vm_compute in H. discriminate H.
  - exists volumeId, outcome. split; [exact Hrun|]. rewrite H. reflexivity.
Defined.

(** ** Persistence helpers *)

Lemma job_key_inj (a b : string) : job_key a = job_key b -> a = b.
Proof.
  unfold job_key. intros H. exact (inj (String.app FLY_WORKER_JOB_PREFIX) a b H).
Qed.

(** ** Temporary API keys *)

(** X9. When [createTemporaryApiKey] returns, it has made three calls: it
    drew 32 random bytes as the secret, hashed the secret, and created an API
    key for the user whose stored key is the hash, never the secret itself,
    with the fixed name and the seven permissions of an import; the id
    returned is the one the repository answered and the secret returned is
    the one that was drawn. *)
Theorem createTemporaryApiKey_stores_hash (env : Env) (w w' : World)
    (userId id secret : string) :
  createTemporaryApiKey userId env w = (Ok (id, secret), w') ->
  exists hashed,
    calls_between w w'
    = [ Called (RandomBytesAsText 32) (Ok secret);
        Called (HashSha256 secret) (Ok hashed);
        Called (ApiKeyCreate userId hashed "Google Photos Import (temporary)" permissions)
               (Ok id) ]
    /\ store w' = store w.
Proof.
  intros Hrun.
  unfold createTemporaryApiKey, randomBytesAsText, hashSha256, apiKeyRepository_create
    in Hrun.
  rewrite (bind_perform (RandomBytesAsText _)) in Hrun.
  destruct (respond env _ (RandomBytesAsText 32)) as [token|e]; [|discriminate].
  rewrite (bind_perform (HashSha256 _)) in Hrun.
  destruct (respond env _ (HashSha256 token)) as [hashed|e]; [|discriminate].
  rewrite (bind_perform (ApiKeyCreate _ _ _ _)) in Hrun.
  destruct (respond env _ (ApiKeyCreate _ _ _ _)) as [keyId|e]; [|discriminate].
  injection Hrun as <- <- <-. exists hashed. split; [|reflexivity].
  apply calls_between_app. cbn [log add_log]. rewrite <- !app_assoc. reflexivity.
Qed.

Lemma createTemporaryApiKey_stores_hash_witness :
  exists w' hashed,
    createTemporaryApiKey "user-1" env_ok empty_world = (Ok ("key-1", "c2VjcmV0"), w')
    /\ Called (HashSha256 "c2VjcmV0") (Ok hashed) ∈ calls_between empty_world w'.
Proof.
  set (run := createTemporaryApiKey "user-1" env_ok empty_world).
  assert (Hrun : run = (Ok ("key-1", "c2VjcmV0"), snd run)) by (vm_compute; reflexivity).
  destruct (createTemporaryApiKey_stores_hash env_ok empty_world (snd run)
              "user-1" "key-1" "c2VjcmV0" Hrun) as (hashed & Hcalls & _).
  exists (snd run), hashed. split; [exact Hrun|].
  rewrite Hcalls. apply elem_of_cons. right. apply elem_of_cons. left. reflexivity.
Defined.

(** ** Cleaning up a worker job *)

Lemma cleanupWorkerJob_found env w jobId job :
  store w !! job_key jobId = Some job ->
  exists w',
    cleanupWorkerJob jobId env w = (Ok tt, w')
    /\ map event_call (calls_between w w') = cleanup_calls job
    /\ store w' = <[job_key (FlyWorkerJobMetadata.jobId job) := cleaned env w job]> (store w)
    /\ jobs w' = jobs w
    /\ background w' = background w
    /\ ticks w' = S (S (ticks w)).
Proof.
  intros Hjob.
  unfold cleanupWorkerJob, bind at 1, getWorkerJob. rewrite Hjob.
  unfold bind at 1, Date_now. unfold bind at 1, saveWorkerJob at 1.
  cbn [FlyWorkerJobMetadata.jobId FlyWorkerJobMetadata.set_updatedAt
       FlyWorkerJobMetadata.set_status FlyWorkerJobMetadata.tempApiKeyId
       FlyWorkerJobMetadata.userId FlyWorkerJobMetadata.machineId
       FlyWorkerJobMetadata.volumeId].
  set (w0 := set_store _ (tick w)).
  assert (Hstore0 : forall x, <[job_key (FlyWorkerJobMetadata.jobId job) := x]> (store w0)
                              = <[job_key (FlyWorkerJobMetadata.jobId job) := x]> (store w))
    by (intros x; unfold w0; cbn; apply insert_insert_eq).
  unfold cleanup_calls.
  destruct (truthy (FlyWorkerJobMetadata.tempApiKeyId job)) eqn:Hkey.
  - unfold bind at 1. rewrite try_apiKeyRepository_delete.
    set (rev := Called _ _).
    destruct (truthy (FlyWorkerJobMetadata.machineId job)
              && truthy (FlyWorkerJobMetadata.volumeId job)).
    + unfold bind at 1.
      destruct (try_cleanupWorker env (add_log rev w0)
                  (FlyWorkerJobMetadata.machineId job)
                  (FlyWorkerJobMetadata.volumeId job)) as (r1 & r2 & r3 & ->).
      eexists. split; [reflexivity|]. cbn. rewrite Hstore0.
      split; [|repeat split].
      unfold calls_between. cbn. rewrite <- !app_assoc, drop_app_length. reflexivity.
    + unfold bind at 1, ret at 1.
      eexists. split; [reflexivity|]. cbn. rewrite Hstore0.
      split; [|repeat split].
      unfold calls_between. cbn. rewrite drop_app_length. reflexivity.
  - unfold bind at 1, ret at 1.
    destruct (truthy (FlyWorkerJobMetadata.machineId job)
              && truthy (FlyWorkerJobMetadata.volumeId job)).
    + unfold bind at 1.
      destruct (try_cleanupWorker env w0
                  (FlyWorkerJobMetadata.machineId job)
                  (FlyWorkerJobMetadata.volumeId job)) as (r1 & r2 & r3 & ->).
      eexists. split; [reflexivity|]. cbn. rewrite Hstore0.
      split; [|repeat split].
      unfold calls_between. cbn. rewrite <- !app_assoc, drop_app_length. reflexivity.
    + unfold bind at 1, ret at 1.
      eexists. split; [reflexivity|]. cbn. rewrite Hstore0.
      split; [|repeat split].
      unfold calls_between. cbn. rewrite drop_all. reflexivity.
Qed.

(** X10. [cleanupWorkerJob] never throws, for any job id, any state of the
    store and any answers of the collaborators (failures of the key
    repository and of the Fly API are swallowed); it leaves the in-memory
    jobs alone and starts nothing in the background; and for a job id that
    the store does not know it does nothing at all. *)
Theorem cleanupWorkerJob_never_throws (env : Env) (w : World) (jobId : string) :
  exists w',
    cleanupWorkerJob jobId env w = (Ok tt, w')
    /\ jobs w' = jobs w
    /\ background w' = background w
    /\ (persisted_status w jobId = None -> w' = w).
Proof.
  unfold persisted_status.
  destruct (store w !! job_key jobId) as [job|] eqn:Hjob.
  - destruct (cleanupWorkerJob_found env w jobId job Hjob)
      as (w' & Hrun & _ & _ & Hjobs & Hbg & _).
    exists w'. repeat split; try assumption. discriminate.
  - exists w. rewrite (cleanupWorkerJob_unknown env w jobId Hjob). repeat split.
Qed.

(** X11. The requests of a cleanup, whatever each of them answers: first the
    revocation of the temporary API key, if the record holds a key id; then,
    if the record holds both a machine id and a volume id, stop the machine,
    delete the machine, delete the volume, in this order.  A record without
    a machine id or without a volume id (a job that failed while the worker
    was created) leads to no request to the Fly API. *)
Theorem cleanupWorkerJob_requests (env : Env) (w : World) (jobId : string)
    (job : FlyWorkerJobMetadata.t) :
  store w !! job_key jobId = Some job ->
  let userId := FlyWorkerJobMetadata.userId job in
  let keyId := FlyWorkerJobMetadata.tempApiKeyId job in
  let machineId := FlyWorkerJobMetadata.machineId job in
  let volumeId := FlyWorkerJobMetadata.volumeId job in
  exists w',
    cleanupWorkerJob jobId env w = (Ok tt, w')
    /\ map event_call (calls_between w w')
       = ((if truthy keyId then [ApiKeyDelete userId keyId] else [])
          ++ (if truthy machineId && truthy volumeId
              then [FlyStopMachine machineId; FlyDeleteMachine machineId;
                    FlyDeleteVolume volumeId]
              else []))%list.
Proof.
  intros Hjob. cbv zeta.
  destruct (cleanupWorkerJob_found env w jobId job Hjob) as (w' & Hrun & Hcalls & _).
  exists w'. split; [exact Hrun | exact Hcalls].
Qed.

Lemma cleanupWorkerJob_requests_witness :
  exists w',
    cleanupWorkerJob example_jobId env_ok (example_world st_complete) = (Ok tt, w')
    /\ map event_call (calls_between (example_world st_complete) w')
       = [ ApiKeyDelete "user-1" "key-1"; FlyStopMachine "machine_1";
           FlyDeleteMachine "machine_1"; FlyDeleteVolume "vol_1" ].
Proof.
  exact (cleanupWorkerJob_requests env_ok (example_world st_complete) example_jobId
           (example_job st_complete) (example_world_lookup st_complete)).
Defined.

(** X12. What a cleanup does to the store: the record of the job gets the
    status [cleanup] and a new [updatedAt], and nothing else in it changes:
    the progress with its timeline and errors, the machine and volume ids and
    the id of the temporary key all stay (so a later cleanup finds them
    again); the record is not removed; the records of other jobs stay as they
    were. *)
Theorem cleanupWorkerJob_frame (env : Env) (w : World) (jobId : string)
    (job : FlyWorkerJobMetadata.t) :
  store w !! job_key jobId = Some job ->
  FlyWorkerJobMetadata.jobId job = jobId ->
  exists w' job',
    cleanupWorkerJob jobId env w = (Ok tt, w')
    /\ store w' !! job_key jobId = Some job'
    /\ job' = FlyWorkerJobMetadata.set_updatedAt (FlyWorkerJobMetadata.updatedAt job')
                (FlyWorkerJobMetadata.set_status st_cleanup job)
    /\ FlyWorkerJobMetadata.updatedAt job' = clock env (S (ticks w))
    /\ (forall other, other <> jobId ->
          store w' !! job_key other = store w !! job_key other).
Proof.
  intros Hjob Hid.
  destruct (cleanupWorkerJob_found env w jobId job Hjob)
    as (w' & Hrun & _ & Hstore & _).
  rewrite Hid in Hstore.
  exists w', (cleaned env w job). split; [exact Hrun|].
  split; [rewrite Hstore; apply lookup_insert_eq|].
  split; [reflexivity|]. split; [reflexivity|].
  intros other Hne. rewrite Hstore. apply lookup_insert_ne.
  intros H. apply Hne. symmetry. apply job_key_inj, H.
Qed.

Lemma cleanupWorkerJob_frame_witness :
  exists w' job',
    cleanupWorkerJob example_jobId env_ok (example_world st_complete) = (Ok tt, w')
    /\ store w' !! job_key example_jobId = Some job'
    /\ FlyWorkerJobMetadata.tempApiKeyId job' = "key-1".
Proof.
  destruct (cleanupWorkerJob_frame env_ok (example_world st_complete) example_jobId
              (example_job st_complete) (example_world_lookup st_complete) eq_refl)
    as (w' & job' & Hrun & Hstore & Hjob & _).
  exists w', job'. split; [exact Hrun|]. split; [exact Hstore|].
  rewrite Hjob. reflexivity.
Defined.

(** ** Cancelling an in-memory job *)

Lemma cleanupJob_calls env w job :
  exists w',
    cleanupJob job env w = (Ok tt, w')
    /\ map event_call (calls_between w w')
       = (match ImportJob.tempApiKeyId job with
          | Some keyId =>
              if truthy keyId then [ApiKeyDelete (ImportJob.userId job) keyId] else []
          | None => []
          end ++ [RemoveDir (path_join tempDir (ImportJob.id job))])%list
    /\ store w' = store w /\ jobs w' = jobs w.
Proof.
  unfold cleanupJob, bind.
  destruct (ImportJob.tempApiKeyId job) as [keyId|]; [destruct (truthy keyId)|].
  - rewrite try_apiKeyRepository_delete, try_rm. eexists. split; [reflexivity|].
    split; [|split; reflexivity].
    unfold calls_between. cbn. rewrite <- !app_assoc, drop_app_length. reflexivity.
  - unfold ret at 1. rewrite try_rm. eexists. split; [reflexivity|].
    split; [|split; reflexivity].
    unfold calls_between. cbn. rewrite drop_app_length. reflexivity.
  - unfold ret at 1. rewrite try_rm. eexists. split; [reflexivity|].
    split; [|split; reflexivity].
    unfold calls_between. cbn. rewrite drop_app_length. reflexivity.
Qed.

(** X13. [cancelJob] on a job of the in-memory map never throws; the job
    stays in the map, marked [failed], with [Cancelled by user] appended to
    its errors and its abort signal raised if it has a controller; the
    temporary key of the job, if it has one, is revoked and then the
    temporary directory of the job is removed, whatever the revocation
    answered; the store of the worker jobs is not touched. *)
Theorem cancelJob_releases (env : Env) (w : World) (jobId : string) (job : ImportJob.t) :
  jobs w !! jobId = Some job ->
  exists w',
    cancelJob jobId env w = (Ok tt, w')
    /\ jobs w' !! jobId = Some (cancelled job)
    /\ ImportJob.status (cancelled job) = st_failed
    /\ GooglePhotosImportProgressDto.errors (ImportJob.progress (cancelled job))
       = (GooglePhotosImportProgressDto.errors (ImportJob.progress job)
          ++ ["Cancelled by user"])%list
    /\ (forall aborted, ImportJob.abortController job = Some aborted ->
          ImportJob.abortController (cancelled job) = Some true)
    /\ map event_call (calls_between w w')
       = (match ImportJob.tempApiKeyId job with
          | Some keyId =>
              if truthy keyId then [ApiKeyDelete (ImportJob.userId job) keyId] else []
          | None => []
          end ++ [RemoveDir (path_join tempDir (ImportJob.id job))])%list
    /\ store w' = store w.
Proof.
  intros Hjob.
  destruct (cleanupJob_calls env (set_jobs (insert jobId (cancelled job)) w)
              (cancelled job)) as (w' & Hrun & Hcalls & Hstore & Hjobs).
  exists w'. split; [|split; [|split; [|split; [|split; [|split]]]]].
  - rewrite <- Hrun. unfold cancelJob, bind at 1, jobs_get. rewrite Hjob. reflexivity.
  - rewrite Hjobs. apply lookup_insert_eq.
  - reflexivity.
  - reflexivity.
  - intros aborted Ha. cbn. rewrite Ha. reflexivity.
  - exact Hcalls.
  - exact Hstore.
Qed.

Lemma cancelJob_releases_witness :
  exists w',
    cancelJob example_jobId env_ok example_local_world = (Ok tt, w')
    /\ map event_call (calls_between example_local_world w')
       = [ ApiKeyDelete "user-1" "key-1";
           RemoveDir "/tmp/immich-google-photos-import/8f14e45f-ceea-467f-a9d5-0123456789ab" ].
Proof.
  destruct (cancelJob_releases env_ok example_local_world example_jobId example_import_job
              ltac:(vm_compute; reflexivity))
    as (w' & Hrun & _ & _ & _ & _ & Hcalls & _).
  exists w'. split; [exact Hrun | exact Hcalls].
Defined.

(** ** The timeline and the status that a webhook leaves *)

Lemma bind_ext_l {A B} (m m' : M A) (k : A -> M B) env w :
  m env w = m' env w -> bind m k env w = bind m' k env w.
Proof. intros H. unfold bind. rewrite H. reflexivity. Qed.

Lemma for_each_addEvents type (l : list string) job env w :
  for_each l (fun job error => addEvent job type error) job env w
  = addEvents (map (pair type) l) job env w.
Proof.
  unfold addEvents. revert job w. induction l as [|x l IH]; intros job w.
  - reflexivity.
  - cbn [map for_each fst snd]. unfold bind. rewrite addEvent_run. apply IH.
Qed.

Lemma bind_addEvents {B} l job (k : FlyWorkerJobMetadata.t -> M B) env w :
  bind (addEvents l job) k env w
  = k (with_events (push_events (stamped env (ticks w) l) (job_events job)) job) env
      (Nat.iter (length l) tick w).
Proof. unfold bind. rewrite addEvents_run. reflexivity. Qed.

Lemma stamped_app env t l1 l2 :
  stamped env t (l1 ++ l2) = (stamped env t l1 ++ stamped env (length l1 + t) l2)%list.
Proof.
  revert t. induction l1 as [|i l1 IH]; intros t; [reflexivity|].
  cbn [app stamped length]. rewrite IH. do 3 f_equal. lia.
Qed.

Lemma iter_tick_ticks n w : ticks (Nat.iter n tick w) = (n + ticks w)%nat.
Proof. induction n; simpl; [reflexivity | rewrite IHn; reflexivity]. Qed.

Lemma errors_stage payload job env w :
  match WorkerProgressDto.errors payload with
  | Some (e :: es) =>
      for_each (e :: es) (fun job error => addEvent job ev_error error) job
  | _ => ret job
  end env w
  = addEvents (error_inserts payload) job env w.
Proof.
  unfold error_inserts.
  destruct (WorkerProgressDto.errors payload) as [[|e es]|]; try reflexivity.
  apply for_each_addEvents.
Qed.

Lemma transition_stage prevPhase payload job env w :
  (if negb (phase_eqb (WorkerProgressDto.phase payload) prevPhase) then
     match WorkerProgressDto.phase payload with
     | ph_downloading =>
         addEvent job ev_info "Starting file downloads from Google Drive..."
     | ph_processing =>
         job <- addEvent job ev_success
                  ("Downloaded "
                   ++ pretty (WorkerProgressPayloadDto.total
                                (WorkerProgressDto.progress payload))
                   ++ " files");;
         addEvent job ev_info "Processing with immich-go..."
     | ph_complete =>
         addEvent job ev_success
           ("Import complete! "
            ++ pretty (GooglePhotosImportProgressDto.photosImported
                         (FlyWorkerJobMetadata.progress job))
            ++ " photos imported.")
     | ph_failed => addEvent job ev_error "Import failed"
     end
   else ret job) env w
  = addEvents (transition_inserts prevPhase
                 (GooglePhotosImportProgressDto.photosImported
                    (FlyWorkerJobMetadata.progress job)) payload) job env w.
Proof.
  unfold transition_inserts.
  destruct (negb (phase_eqb (WorkerProgressDto.phase payload) prevPhase));
    [|reflexivity].
  destruct (WorkerProgressDto.phase payload); reflexivity.
Qed.

Lemma download_stage prevCurrent payload job env w :
  match WorkerProgressPayloadDto.currentFile (WorkerProgressDto.progress payload) with
  | Some file =>
      if phase_eqb (WorkerProgressDto.phase payload) ph_downloading && truthy file
         && negb (WorkerProgressPayloadDto.current (WorkerProgressDto.progress payload)
                  =? prevCurrent)%Z
      then addEvent job ev_download ("Downloading " ++ file)
      else ret job
  | None => ret job
  end env w
  = addEvents (download_inserts prevCurrent payload) job env w.
Proof.
  unfold download_inserts.
  destruct (WorkerProgressPayloadDto.currentFile (WorkerProgressDto.progress payload))
    as [file|]; [|reflexivity].
  destruct (_ && _); reflexivity.
Qed.

(** The calls of [addEvent] in [handleWorkerWebhook], for a job in which the
    count of albums is already the one of the payload (as it is once the
    payload is merged). *)
Lemma recordEvents_run prevPhase prevCurrent payload job env w :
  (forall n, WorkerProgressDto.albumsFound payload = Some n ->
             GooglePhotosImportProgressDto.albumsFound (FlyWorkerJobMetadata.progress job)
             = n) ->
  recordEvents prevPhase prevCurrent payload job env w
  = addEvents (webhook_inserts prevPhase prevCurrent
                 (GooglePhotosImportProgressDto.photosImported
                    (FlyWorkerJobMetadata.progress job)) payload) job env w.
Proof.
  intros Halbums. unfold recordEvents, webhook_inserts. cbv zeta.
  rewrite addEvents_run.
  erewrite bind_ext_l by apply errors_stage. rewrite bind_addEvents. cbv beta.
  erewrite bind_ext_l by apply transition_stage. rewrite bind_addEvents. cbv beta.
  erewrite bind_ext_l by apply download_stage. rewrite bind_addEvents. cbv beta.
  rewrite !job_events_with_events, !with_events_with_events.
  change (GooglePhotosImportProgressDto.photosImported
            (FlyWorkerJobMetadata.progress (with_events ?evs job)))
    with (GooglePhotosImportProgressDto.photosImported (FlyWorkerJobMetadata.progress job)).
  assert (Hdone :
    forall j : FlyWorkerJobMetadata.t,
      GooglePhotosImportProgressDto.albumsFound (FlyWorkerJobMetadata.progress j)
      = GooglePhotosImportProgressDto.albumsFound (FlyWorkerJobMetadata.progress job) ->
      forall w0,
      match WorkerProgressDto.albumsFound payload with
      | Some n =>
          if (or_zero (GooglePhotosImportProgressDto.albumsFound
                         (FlyWorkerJobMetadata.progress j)) <? n)%Z
          then addEvent j ev_album ("Found " ++ pretty n ++ " albums")
          else ret j
      | None => ret j
      end env w0 = (Ok j, w0)).
  { intros j Hj w0.
    destruct (WorkerProgressDto.albumsFound payload) as [n|]; [|reflexivity].
    rewrite Hj, (Halbums n eq_refl).
    assert ((or_zero n <? n)%Z = false) as ->; [|reflexivity].
    unfold or_zero. destruct (Z.eqb_spec n 0); apply Z.ltb_ge; lia. }
  rewrite Hdone by reflexivity.
  rewrite !stamped_app, !iter_tick_ticks, !length_app, <- !Nat.iter_add.
  unfold push_events. rewrite !fold_left_app.
  f_equal. f_equal. lia.
Qed.

Lemma mergeProgress_albums payload job n :
  WorkerProgressDto.albumsFound payload = Some n ->
  GooglePhotosImportProgressDto.albumsFound
    (FlyWorkerJobMetadata.progress (mergeProgress payload job)) = n.
Proof. intros H. rewrite mergeProgress_albumsFound, H. reflexivity. Qed.

Lemma applyWorkerWebhook_timeline env w payload job :
  let prev := FlyWorkerJobMetadata.progress job in
  let inserts :=
    webhook_inserts (GooglePhotosImportProgressDto.phase prev)
      (GooglePhotosImportProgressDto.current prev)
      (default (GooglePhotosImportProgressDto.photosImported prev)
         (WorkerProgressDto.photosImported payload))
      payload in
  applyWorkerWebhook payload job env w
  = (Ok tt,
     (if is_terminal_phase (WorkerProgressDto.phase payload)
      then add_background (WorkerProgressDto.jobId payload) else id)
       (set_store
          (insert (job_key (FlyWorkerJobMetadata.jobId job))
             (webhook_result env w payload job (stamped env (S (ticks w)) inserts)))
          (Nat.iter (length inserts) tick (tick w)))).
Proof.
  cbv zeta. unfold applyWorkerWebhook. rewrite bind_Date_now.
  erewrite bind_ext_l
    by (apply recordEvents_run; intros n Hn; apply mergeProgress_albums, Hn).
  rewrite bind_addEvents, mergeProgress_photosImported, mergeProgress_events.
  rewrite bind_saveWorkerJob.
  cbn [FlyWorkerJobMetadata.jobId FlyWorkerJobMetadata.set_updatedAt with_events
       update_progress FlyWorkerJobMetadata.set_progress].
  rewrite mergeProgress_jobId.
  destruct (is_terminal_phase (WorkerProgressDto.phase payload)); reflexivity.
Qed.

Lemma webhook_inserts_no_album prevPhase prevCurrent photosImported payload :
  Forall (fun i => fst i <> ev_album)
    (webhook_inserts prevPhase prevCurrent photosImported payload).
Proof.
  unfold webhook_inserts, error_inserts, transition_inserts, download_inserts.
  rewrite !Forall_app. split; [|split].
  - apply Forall_forall. intros i Hi.
    apply list_elem_of_fmap in Hi as (e & -> & _). discriminate.
  - destruct (negb _); [destruct (WorkerProgressDto.phase payload)|];
      repeat constructor; discriminate.
  - destruct (WorkerProgressPayloadDto.currentFile _); [destruct (_ && _)|];
      repeat constructor; discriminate.
Qed.

Lemma handleWorkerWebhook_authentic env w payload rawBody job :
  store w !! job_key (WorkerProgressDto.jobId payload) = Some job ->
  handleWorkerWebhook
    (expectedSignature env (FlyWorkerJobMetadata.webhookSecret job) payload)
    payload rawBody env w
  = applyWorkerWebhook payload job env w.
Proof.
  intros Hjob. rewrite (handleWorkerWebhook_known _ _ _ _ _ _ Hjob). cbv zeta.
  rewrite !bool_decide_eq_true_2 by reflexivity. reflexivity.
Qed.

(** X14. The timeline after an authentic webhook: the events added are, in
    this order, one [error] event per error of the payload, then the events
    of a change of phase (none if the phase is the stored one), then one
    [download] event if the phase is [downloading], a current file is named
    and the counter moved; each is stamped with a later reading of the clock
    than [updatedAt], which holds the time at which the handler started.  An
    [album] event is never among them, whatever count of albums the payload
    reports: the count is stored before it is compared. *)
Theorem webhook_timeline (env : Env) (w : World) (payload : WorkerProgressDto.t)
    (rawBody : string) (job : FlyWorkerJobMetadata.t) :
  store w !! job_key (WorkerProgressDto.jobId payload) = Some job ->
  FlyWorkerJobMetadata.jobId job = WorkerProgressDto.jobId payload ->
  let prev := FlyWorkerJobMetadata.progress job in
  let inserts :=
    webhook_inserts (GooglePhotosImportProgressDto.phase prev)
      (GooglePhotosImportProgressDto.current prev)
      (default (GooglePhotosImportProgressDto.photosImported prev)
         (WorkerProgressDto.photosImported payload))
      payload in
  exists w' job',
    handleWorkerWebhook
      (expectedSignature env (FlyWorkerJobMetadata.webhookSecret job) payload)
      payload rawBody env w = (Ok tt, w')
    /\ store w' !! job_key (WorkerProgressDto.jobId payload) = Some job'
    /\ job_events job'
       = push_events (stamped env (S (ticks w)) inserts) (job_events job)
    /\ FlyWorkerJobMetadata.updatedAt job' = clock env (ticks w)
    /\ ticks w' = (length inserts + S (ticks w))%nat
    /\ Forall (fun i => fst i <> ev_album) inserts
    /\ (forall n, WorkerProgressDto.albumsFound payload = Some n ->
          GooglePhotosImportProgressDto.albumsFound (FlyWorkerJobMetadata.progress job')
          = n).
Proof.
  intros Hjob Hid. cbv zeta.
  rewrite (handleWorkerWebhook_authentic _ _ _ _ _ Hjob), applyWorkerWebhook_timeline.
  cbv zeta. rewrite Hid.
  eexists _, _. split; [reflexivity|].
  split; [|split; [|split; [|split; [|split]]]].
  - destruct (is_terminal_phase _); cbn [store add_background set_store id];
      apply lookup_insert_eq.
  - apply webhook_result_events.
  - reflexivity.
  - destruct (is_terminal_phase _); cbn [ticks add_background set_store id];
      rewrite iter_tick_ticks; reflexivity.
  - apply webhook_inserts_no_album.
  - intros n Hn. rewrite webhook_result_progress.
    cbn [GooglePhotosImportProgressDto.albumsFound GooglePhotosImportProgressDto.set_events].
    apply mergeProgress_albums, Hn.
Qed.

Lemma webhook_timeline_witness :
  exists w' job',
    handleWorkerWebhook (expectedSignature env_ok "c2VjcmV0" example_update)
      example_update EmptyString env_ok (example_world st_downloading) = (Ok tt, w')
    /\ store w' !! job_key example_jobId = Some job'
    /\ map ActivityEventDto.message (job_events job')
       = [ "Starting import job..."; "one file skipped";
           "Import complete! 120 photos imported." ].
Proof.
  destruct (webhook_timeline env_ok (example_world st_downloading) example_update
              EmptyString (example_job st_downloading)
              (example_world_lookup st_downloading) eq_refl)
    as (w' & job' & Hrun & Hstore & Hevents & _).
  exists w', job'. split; [exact Hrun|]. split; [exact Hstore|].
  rewrite Hevents. vm_compute. reflexivity.
Defined.

(** X15. What an authentic webhook changes besides the progress: the
    persisted status becomes the phase of the payload ([downloading],
    [processing], [complete] or [failed]; never [cleanup]); a cleanup of the
    job is started in the background exactly when the phase is [complete] or
    [failed], and the handler returns without waiting for it; the handler
    itself makes no call to a collaborator; the records of other jobs and
    the in-memory jobs stay as they were. *)
Theorem webhook_status_and_dispatch (env : Env) (w : World)
    (payload : WorkerProgressDto.t) (rawBody : string) (job : FlyWorkerJobMetadata.t) :
  store w !! job_key (WorkerProgressDto.jobId payload) = Some job ->
  FlyWorkerJobMetadata.jobId job = WorkerProgressDto.jobId payload ->
  exists w',
    handleWorkerWebhook
      (expectedSignature env (FlyWorkerJobMetadata.webhookSecret job) payload)
      payload rawBody env w = (Ok tt, w')
    /\ persisted_status w' (WorkerProgressDto.jobId payload)
       = Some (status_of_phase (WorkerProgressDto.phase payload))
    /\ status_of_phase (WorkerProgressDto.phase payload) <> st_cleanup
    /\ background w'
       = (if is_terminal_phase (WorkerProgressDto.phase payload)
          then background w ++ [WorkerProgressDto.jobId payload]
          else background w)%list
    /\ calls_between w w' = []
    /\ jobs w' = jobs w
    /\ (forall other, other <> WorkerProgressDto.jobId payload ->
          store w' !! job_key other = store w !! job_key other).
Proof.
  intros Hjob Hid.
  rewrite (handleWorkerWebhook_authentic _ _ _ _ _ Hjob), applyWorkerWebhook_timeline.
  cbv zeta. rewrite Hid.
  eexists. split; [reflexivity|].
  split; [|split; [|split; [|split; [|split]]]].
  - unfold persisted_status.
    destruct (is_terminal_phase _); cbn [store add_background set_store id];
      rewrite lookup_insert_eq; cbn [fmap option_fmap option_map];
      unfold webhook_result; cbn [FlyWorkerJobMetadata.status
        FlyWorkerJobMetadata.set_updatedAt with_events update_progress
        FlyWorkerJobMetadata.set_progress];
      rewrite mergeProgress_status; reflexivity.
  - destruct (WorkerProgressDto.phase payload); discriminate.
  - destruct (is_terminal_phase _); cbn [background add_background set_store id];
      rewrite iter_tick_background; reflexivity.
  - unfold calls_between.
    destruct (is_terminal_phase _); cbn [log add_background set_store id];
      rewrite iter_tick_log; apply drop_all.
  - destruct (is_terminal_phase _); cbn [jobs add_background set_store id];
      rewrite iter_tick_jobs; reflexivity.
  - intros other Hne.
    destruct (is_terminal_phase _); cbn [store add_background set_store id];
      rewrite iter_tick_store; apply lookup_insert_ne;
      intros H; apply Hne; symmetry; apply job_key_inj, H.
Qed.

Lemma webhook_status_and_dispatch_witness :
  exists w',
    handleWorkerWebhook (expectedSignature env_ok "c2VjcmV0" example_update)
      example_update EmptyString env_ok (example_world st_downloading) = (Ok tt, w')
    /\ persisted_status w' example_jobId = Some st_complete
    /\ background w' = [example_jobId].
Proof.
  destruct (webhook_status_and_dispatch env_ok (example_world st_downloading)
              example_update EmptyString (example_job st_downloading)
              (example_world_lookup st_downloading) eq_refl)
    as (w' & Hrun & Hstatus & _ & Hbg & _).
  exists w'. split; [exact Hrun|]. split; [exact Hstatus | exact Hbg].
Defined.

Lemma mergeProgress_resources payload job :
  FlyWorkerJobMetadata.userId (mergeProgress payload job) = FlyWorkerJobMetadata.userId job
  /\ FlyWorkerJobMetadata.tempApiKeyId (mergeProgress payload job)
     = FlyWorkerJobMetadata.tempApiKeyId job
  /\ FlyWorkerJobMetadata.machineId (mergeProgress payload job)
     = FlyWorkerJobMetadata.machineId job
  /\ FlyWorkerJobMetadata.volumeId (mergeProgress payload job)
     = FlyWorkerJobMetadata.volumeId job.
Proof. merge_cases payload; repeat split. Qed.

(** X16. A job that reports [complete] or [failed] does not keep that
    status: once the cleanup that the webhook started has run, the persisted
    status is [cleanup], while the phase of the progress still is the
    reported one; the cleanup returns without an error and makes the requests
    for the key, the machine and the volume that the record held before the
    webhook. *)
Theorem terminal_webhook_then_cleanup (env : Env) (w : World)
    (payload : WorkerProgressDto.t) (rawBody : string) (job : FlyWorkerJobMetadata.t) :
  store w !! job_key (WorkerProgressDto.jobId payload) = Some job ->
  FlyWorkerJobMetadata.jobId job = WorkerProgressDto.jobId payload ->
  is_terminal_phase (WorkerProgressDto.phase payload) = true ->
  exists w1 w2 job2,
    handleWorkerWebhook
      (expectedSignature env (FlyWorkerJobMetadata.webhookSecret job) payload)
      payload rawBody env w = (Ok tt, w1)
    /\ last (background w1) = Some (WorkerProgressDto.jobId payload)
    /\ cleanupWorkerJob (WorkerProgressDto.jobId payload) env w1 = (Ok tt, w2)
    /\ map event_call (calls_between w1 w2) = cleanup_calls job
    /\ store w2 !! job_key (WorkerProgressDto.jobId payload) = Some job2
    /\ FlyWorkerJobMetadata.status job2 = st_cleanup
    /\ GooglePhotosImportProgressDto.phase (FlyWorkerJobMetadata.progress job2)
       = WorkerProgressDto.phase payload.
Proof.
  intros Hjob Hid Hterm.
  rewrite (handleWorkerWebhook_authentic _ _ _ _ _ Hjob), applyWorkerWebhook_timeline.
  cbv zeta. rewrite Hid, Hterm.
  match goal with
  | |- context [webhook_result env w payload job ?a] =>
      set (job1 := webhook_result env w payload job a)
  end.
  match goal with
  | |- context [add_background ?j ?x] => set (w1 := add_background j x)
  end.
  assert (Hjob1 : store w1 !! job_key (WorkerProgressDto.jobId payload) = Some job1)
    by (unfold w1; cbn [store add_background set_store]; apply lookup_insert_eq).
  assert (Hid1 : FlyWorkerJobMetadata.jobId job1 = WorkerProgressDto.jobId payload)
    by (unfold job1; rewrite webhook_result_jobId; exact Hid).
  destruct (cleanupWorkerJob_found env w1 _ job1 Hjob1)
    as (w2 & Hrun & Hcalls & Hstore & _).
  rewrite Hid1 in Hstore.
  exists w1, w2, (cleaned env w1 job1).
  split; [reflexivity|].
  split; [unfold w1; cbn [background add_background]; apply last_snoc|].
  split; [exact Hrun|].
  split.
  { rewrite Hcalls. unfold cleanup_calls, job1, webhook_result.
    cbn [FlyWorkerJobMetadata.userId FlyWorkerJobMetadata.tempApiKeyId
         FlyWorkerJobMetadata.machineId FlyWorkerJobMetadata.volumeId
         FlyWorkerJobMetadata.set_updatedAt with_events update_progress
         FlyWorkerJobMetadata.set_progress].
    destruct (mergeProgress_resources payload job) as (-> & -> & -> & ->).
    reflexivity. }
  split; [rewrite Hstore; apply lookup_insert_eq|].
  split; [reflexivity|].
  unfold job1, webhook_result. cbn. merge_cases payload.
Qed.

Lemma terminal_webhook_then_cleanup_witness :
  exists w1 w2 job2,
    handleWorkerWebhook (expectedSignature env_ok "c2VjcmV0" example_update)
      example_update EmptyString env_ok (example_world st_downloading) = (Ok tt, w1)
    /\ cleanupWorkerJob example_jobId env_ok w1 = (Ok tt, w2)
    /\ store w2 !! job_key example_jobId = Some job2
    /\ FlyWorkerJobMetadata.status job2 = st_cleanup.
Proof.
  destruct (terminal_webhook_then_cleanup env_ok (example_world st_downloading)
              example_update EmptyString (example_job st_downloading)
              (example_world_lookup st_downloading) eq_refl eq_refl)
    as (w1 & w2 & job2 & Hrun & _ & Hclean & _ & Hstore & Hstatus & _).
  exists w1, w2, job2. split; [exact Hrun|]. split; [exact Hclean|].
  split; [exact Hstore | exact Hstatus].
Defined.

(** ** Starting a job: every way in which it ends *)

(** Runs [createImportJobWithFlyWorker] in the hypothesis [Hrun] up to each
    of the points at which it can end; one goal is left per such point, in
    the order of the source. *)
Ltac start_run_worker Hrun :=
  rewrite bind_Date_now, bind_saveWorkerJob, try_catch_bind, createWorker_run in Hrun;
  cbv zeta in Hrun;
  destruct (respond _ _ (FlyCreateVolume _ _)) as [volumeId|e0];
  [ destruct (respond _ _ (FlyCreateMachine _)) as [machineId|e0];
    [ cbv beta iota zeta delta [try_catch bind Date_now addEvent saveWorkerJob ret]
        in Hrun
    | rewrite bind_Date_now, bind_saveWorkerJob, bind_try_apiKeyRepository_delete
        in Hrun ]
  | rewrite bind_Date_now, bind_saveWorkerJob, bind_try_apiKeyRepository_delete
      in Hrun ].

Ltac start_run_url Hrun :=
  match type of Hrun with
  | context [truthy (SystemConfig.server_externalDomain ?c)] =>
      destruct (truthy (SystemConfig.server_externalDomain c)) eqn:Hdomain;
      [ rewrite bind_ret in Hrun;
        destruct (negb (truthy (or_default (Some (SystemConfig.server_externalDomain c))
                                  EmptyString))) eqn:Hurl;
        [ exfalso; unfold or_default in Hurl; rewrite !Hdomain in Hurl;
          discriminate Hurl
        | start_run_worker Hrun ]
      | rewrite (bind_perform (ProcessEnv _)) in Hrun;
        destruct (respond _ _ (ProcessEnv _)) as [serverUrl|e0];
        [ destruct (negb (truthy (or_default serverUrl EmptyString))) eqn:Hurl;
          [ | start_run_worker Hrun ]
        | ] ]
  end.

Ltac start_run Hrun :=
  unfold createImportJobWithFlyWorker, createTemporaryApiKey, randomUUID,
    randomBytesAsText, getGoogleDriveTokens, getConfig, hashSha256,
    apiKeyRepository_create, process_env in Hrun;
  rewrite (bind_perform RandomUUID) in Hrun;
  destruct (respond _ _ RandomUUID) as [jobId|e0];
  [ rewrite (bind_perform (RandomBytesAsText _)) in Hrun;
    destruct (respond _ _ (RandomBytesAsText 32)) as [secret|e0];
    [ rewrite (bind_perform (GetGoogleDriveTokens _)) in Hrun;
      destruct (respond _ _ (GetGoogleDriveTokens _)) as [[tokens|]|e0];
      [ rewrite (bind_perform GetConfig) in Hrun;
        destruct (respond _ _ GetConfig) as [cfg|e0];
        [ destruct (negb (SystemConfig.oauth_enabled cfg && _ && _)) eqn:Hoauth;
          [ | rewrite !bind_bind, (bind_perform (RandomBytesAsText _)) in Hrun;
              destruct (respond _ _ (RandomBytesAsText 32)) as [token|e0];
              [ rewrite !bind_bind, (bind_perform (HashSha256 _)) in Hrun;
                destruct (respond _ _ (HashSha256 token)) as [hashed|e0];
                [ rewrite !bind_bind, (bind_perform (ApiKeyCreate _ _ _ _)) in Hrun;
                  destruct (respond _ _ (ApiKeyCreate _ _ _ _)) as [keyId|e0];
                  [ rewrite bind_ret in Hrun; start_run_url Hrun | ]
                | ]
              | ] ]
        | ]
      | | ]
    | ]
  | ];
  unfold throw in Hrun.


(** The calls between the start and the end of a run, as a list. *)
Ltac calls_in_goal :=
  unfold calls_between;
  cbn [log add_log tick set_store store jobs ticks background];
  rewrite <- ?app_assoc; rewrite ?drop_app_length; cbn [app].

(** X17. When [createImportJobWithFlyWorker] returns, the record of the new
    job is in the store under the id that is returned: it holds the machine
    and volume ids that are returned, the status [downloading], a progress
    in phase [downloading] at 0 of as many files as were given, no errors,
    and a timeline of three events; [getWorkerJobProgress] for the returned
    id then gives this progress; the records of other jobs are as they
    were. *)
Theorem start_success_record (env : Env) (w w' : World) (userId : string)
    (fileIds : list string) (fileSizes : list Z) (response : FlyWorkerJobResponseDto.t) :
  createImportJobWithFlyWorker userId fileIds fileSizes env w = (Ok response, w') ->
  exists job,
    store w' = <[job_key (FlyWorkerJobResponseDto.id response) := job]> (store w)
    /\ FlyWorkerJobMetadata.jobId job = FlyWorkerJobResponseDto.id response
    /\ FlyWorkerJobMetadata.userId job = userId
    /\ FlyWorkerJobMetadata.machineId job = FlyWorkerJobResponseDto.machineId response
    /\ FlyWorkerJobMetadata.volumeId job = FlyWorkerJobResponseDto.volumeId response
    /\ FlyWorkerJobMetadata.status job = st_downloading
    /\ GooglePhotosImportProgressDto.phase (FlyWorkerJobMetadata.progress job)
       = ph_downloading
    /\ GooglePhotosImportProgressDto.current (FlyWorkerJobMetadata.progress job) = 0
    /\ GooglePhotosImportProgressDto.total (FlyWorkerJobMetadata.progress job)
       = Z.of_nat (length fileIds)
    /\ job_errors job = []
    /\ map (fun e => (ActivityEventDto.type e, ActivityEventDto.message e)) (job_events job)
       = [ (ev_info, "Starting import job...");
           (ev_success, "Worker started successfully");
           (ev_info, "Preparing to download " ++ pretty (length fileIds) ++ " files...") ]
    /\ getWorkerJobProgress (FlyWorkerJobResponseDto.id response) env w'
       = (Ok (Some (FlyWorkerJobMetadata.progress job)), w').
Proof.
  intros Hrun. start_run Hrun; try discriminate Hrun.
  all: injection Hrun as <- <-.
  all: eexists; split;
    [ cbn [store set_store tick add_log FlyWorkerJobResponseDto.id
           FlyWorkerJobMetadata.jobId update_progress
           FlyWorkerJobMetadata.set_progress FlyWorkerJobMetadata.set_updatedAt
           FlyWorkerJobMetadata.set_status FlyWorkerJobMetadata.set_volumeId
           FlyWorkerJobMetadata.set_machineId];
      apply insert_insert_eq | ].
  all: repeat (split; [reflexivity|]).
  all: unfold getWorkerJobProgress, bind, getWorkerJob;
    cbn [store set_store tick add_log FlyWorkerJobResponseDto.id
         FlyWorkerJobMetadata.jobId update_progress
         FlyWorkerJobMetadata.set_progress FlyWorkerJobMetadata.set_updatedAt
         FlyWorkerJobMetadata.set_status FlyWorkerJobMetadata.set_volumeId
         FlyWorkerJobMetadata.set_machineId];
    rewrite lookup_insert_eq; reflexivity.
Qed.

Lemma start_success_record_witness :
  exists w' job,
    createImportJobWithFlyWorker "user-1" ["file-1"] [GiB] env_ok empty_world
    = (Ok (FlyWorkerJobResponseDto.mk example_jobId "machine_1" "vol_1"), w')
    /\ store w' !! job_key example_jobId = Some job
    /\ FlyWorkerJobMetadata.status job = st_downloading
    /\ length (job_events job) = 3%nat.
Proof.
  set (run := createImportJobWithFlyWorker "user-1" ["file-1"] [GiB] env_ok empty_world).
  assert (Hrun : run = (Ok (FlyWorkerJobResponseDto.mk example_jobId "machine_1" "vol_1"),
                        snd run)) by (vm_compute; reflexivity).
  destruct (start_success_record env_ok empty_world (snd run) "user-1" ["file-1"] [GiB]
              _ Hrun)
    as (job & Hstore & _ & _ & _ & _ & Hstatus & _ & _ & _ & _ & Hevents & _).
  exists (snd run), job. split; [exact Hrun|].
  split; [rewrite Hstore; apply lookup_insert_eq|].
  split; [exact Hstatus|].
  rewrite <- (length_map (fun e => (ActivityEventDto.type e, ActivityEventDto.message e))),
    Hevents.
  reflexivity.
Defined.

(** X18. The requests of a run of [createImportJobWithFlyWorker] that
    returns: the job id that is returned was drawn in this run; a temporary
    API key was created for the user, stored as the hash of its secret, and
    its id is kept in the record; the volume was created in [ord] with the
    size computed from the file sizes; the machine was created with that
    volume mounted and is handed, in its environment, the job id, the
    webhook secret that the record holds, and the secret of the API key;
    nothing was stopped, deleted or revoked. *)
Theorem start_success_requests (env : Env) (w w' : World) (userId : string)
    (fileIds : list string) (fileSizes : list Z) (response : FlyWorkerJobResponseDto.t) :
  createImportJobWithFlyWorker userId fileIds fileSizes env w = (Ok response, w') ->
  exists job secret hashed config,
    store w' !! job_key (FlyWorkerJobResponseDto.id response) = Some job
    /\ Called RandomUUID (Ok (FlyWorkerJobResponseDto.id response)) ∈ calls_between w w'
    /\ Called (HashSha256 secret) (Ok hashed) ∈ calls_between w w'
    /\ Called (ApiKeyCreate userId hashed "Google Photos Import (temporary)" permissions)
              (Ok (FlyWorkerJobMetadata.tempApiKeyId job)) ∈ calls_between w w'
    /\ Called (FlyCreateVolume (calculateVolumeSizeGb fileSizes) "ord")
              (Ok (FlyWorkerJobResponseDto.volumeId response)) ∈ calls_between w w'
    /\ Called (FlyCreateMachine config)
              (Ok (FlyWorkerJobResponseDto.machineId response)) ∈ calls_between w w'
    /\ MachineConfig.volumeId config = FlyWorkerJobResponseDto.volumeId response
    /\ ("WORKER_JOB_ID", FlyWorkerJobResponseDto.id response) ∈ MachineConfig.env config
    /\ ("WEBHOOK_SECRET", FlyWorkerJobMetadata.webhookSecret job) ∈ MachineConfig.env config
    /\ ("IMMICH_API_KEY", secret) ∈ MachineConfig.env config
    /\ Forall (fun e => is_release (event_call e) = false) (calls_between w w').
Proof.
  intros Hrun. start_run Hrun; try discriminate Hrun.
  all: injection Hrun as <- <-.
  all: eexists _, token, hashed, _.
  all: split;
    [ cbn [store set_store tick add_log FlyWorkerJobResponseDto.id];
      apply lookup_insert_eq | ].
  all: calls_in_goal.
  all: cbn [FlyWorkerJobResponseDto.id FlyWorkerJobResponseDto.machineId
            FlyWorkerJobResponseDto.volumeId fst snd].
  all: repeat (split; [solve [ repeat first [ apply list_elem_of_here
                                            | apply list_elem_of_further ] ]|]).
  all: split; [reflexivity|].
  all: repeat (split; [solve [ repeat first [ apply list_elem_of_here
                                            | apply list_elem_of_further ] ]|]).
  all: repeat constructor.
Qed.

Lemma start_success_requests_witness :
  exists w',
    createImportJobWithFlyWorker "user-1" ["file-1"] [GiB] env_ok empty_world
    = (Ok (FlyWorkerJobResponseDto.mk example_jobId "machine_1" "vol_1"), w')
    /\ Forall (fun e => is_release (event_call e) = false) (calls_between empty_world w').
Proof.
  set (run := createImportJobWithFlyWorker "user-1" ["file-1"] [GiB] env_ok empty_world).
  assert (Hrun : run = (Ok (FlyWorkerJobResponseDto.mk example_jobId "machine_1" "vol_1"),
                        snd run)) by (vm_compute; reflexivity).
  destruct (start_success_requests env_ok empty_world (snd run) "user-1" ["file-1"] [GiB]
              _ Hrun)
    as (job & secret & hashed & config & _ & _ & _ & _ & _ & _ & _ & _ & _ & _ & Hnone).
  exists (snd run). split; [exact Hrun | exact Hnone].
Defined.

(** X19. Every way in which [createImportJobWithFlyWorker] throws is one of
    two.  Either it threw before the record of the job was saved: then
    nothing is persisted, no request went to the Fly API, and nothing was
    revoked, not even a temporary API key that had already been created.
    Or the worker could not be created: then the record of the job of this
    run is in the store with status [failed], the one error [Failed to
    create worker: <error>], and no machine or volume id; the error thrown
    is the one of the worker; and the last call of the run is the revocation
    of the temporary API key of the record. *)
Theorem start_failure (env : Env) (w w' : World) (userId : string)
    (fileIds : list string) (fileSizes : list Z) (error : exn) :
  createImportJobWithFlyWorker userId fileIds fileSizes env w = (Throw error, w') ->
  (store w' = store w
   /\ Forall (fun e => is_fly_call (event_call e) = false
                       /\ is_release (event_call e) = false) (calls_between w w'))
  \/ (exists job outcome,
        store w' = <[job_key (FlyWorkerJobMetadata.jobId job) := job]> (store w)
        /\ Called RandomUUID (Ok (FlyWorkerJobMetadata.jobId job)) ∈ calls_between w w'
        /\ FlyWorkerJobMetadata.status job = st_failed
        /\ job_errors job = ["Failed to create worker: " ++ exn_to_string error]
        /\ FlyWorkerJobMetadata.machineId job = EmptyString
        /\ FlyWorkerJobMetadata.volumeId job = EmptyString
        /\ last (calls_between w w')
           = Some (Called (ApiKeyDelete userId (FlyWorkerJobMetadata.tempApiKeyId job))
                     outcome)).
Proof.
  intros Hrun. start_run Hrun; try discriminate Hrun.
  all: injection Hrun as <- <-.
  all: lazymatch goal with
       | |- context [set_store] =>
           right; cbn [store set_store tick add_log];
           lazymatch goal with
           | |- context [insert _ ?j (insert _ _ (store _))] => exists j
           end;
           eexists; split; [apply insert_insert_eq|];
           calls_in_goal;
           split; [apply list_elem_of_here|];
           repeat (split; [reflexivity|]);
           reflexivity
       | |- _ =>
           left; split; [reflexivity|]; calls_in_goal; repeat constructor
       end.
Qed.

Lemma start_failure_witness :
  exists w' job outcome,
    createImportJobWithFlyWorker "user-1" ["file-1"] [GiB] env_no_machine empty_world
    = (Throw (Error "Fly API error: 422 insufficient capacity"), w')
    /\ store w' !! job_key (FlyWorkerJobMetadata.jobId job) = Some job
    /\ last (calls_between empty_world w')
       = Some (Called (ApiKeyDelete "user-1" (FlyWorkerJobMetadata.tempApiKeyId job))
                 outcome).
Proof.
  set (run := createImportJobWithFlyWorker "user-1" ["file-1"] [GiB] env_no_machine
                empty_world).
  assert (Hrun : run = (Throw (Error "Fly API error: 422 insufficient capacity"), snd run))
    by (vm_compute; reflexivity).
  exists (snd run).
  destruct (start_failure env_no_machine empty_world (snd run) "user-1" ["file-1"] [GiB]
              _ Hrun) as [[_ Hnone] | (job & outcome & Hstore & _ & _ & _ & _ & _ & Hlast)].
  - exfalso. revert Hnone. vm_compute. intros Hnone.
    repeat match goal with
           | H : Forall _ (_ :: _) |- _ => apply Forall_cons in H as [[? ?] H]
           end; discriminate.
  - exists job, outcome. split; [exact Hrun|]. split; [|exact Hlast].
    rewrite Hstore. apply lookup_insert_eq.
Defined.

(** X20. A user without Google Drive tokens, or a server without OAuth
    settings, is turned away before anything is created: the run throws
    [Google Drive not connected], respectively [OAuth not configured ...],
    having only drawn the job id and the webhook secret and read the tokens
    and the configuration; no API key was created, no request went to the
    Fly API, and nothing is persisted. *)
Theorem start_refused (env : Env) (w w' : World) (userId : string)
    (fileIds : list string) (fileSizes : list Z) (r : Result FlyWorkerJobResponseDto.t) :
  createImportJobWithFlyWorker userId fileIds fileSizes env w = (r, w') ->
  (exists e, e ∈ calls_between w w'
             /\ (tokens_answer e = Some None
                 \/ exists config, config_answer e = Some config
                                   /\ oauth_configured config = false)) ->
  (r = Throw (Error "Google Drive not connected")
   \/ r = Throw (Error
             "OAuth not configured. Please set up OAuth in Administration > Settings."))
  /\ store w' = store w
  /\ Forall (fun e => match event_call e with
                      | RandomUUID | RandomBytesAsText _ | GetGoogleDriveTokens _
                      | GetConfig => True
                      | _ => False
                      end) (calls_between w w').
Proof.
  intros Hrun (e & He & Hanswer). start_run Hrun.
  all: injection Hrun as <- <-.
  all: revert He; calls_in_goal; intros He.
  all: try solve
    [ exfalso;
      repeat (apply elem_of_cons in He as [->|He];
              [ destruct Hanswer as [Ht|(config & Hc & Ho)];
                [ discriminate Ht
                | cbn [config_answer] in Hc; try discriminate Hc;
                  injection Hc as <-; unfold oauth_configured in Ho;
                  rewrite Ho in Hoauth; discriminate Hoauth ] | ]);
      inversion He ].
  all: split; [auto|]; split; [reflexivity|]; repeat constructor.
Qed.

Lemma start_refused_witness :
  exists w',
    createImportJobWithFlyWorker "user-1" ["file-1"] [GiB] env_no_tokens empty_world
    = (Throw (Error "Google Drive not connected"), w')
    /\ store w' = store empty_world.
Proof.
  set (run := createImportJobWithFlyWorker "user-1" ["file-1"] [GiB] env_no_tokens
                empty_world).
  assert (Hrun : run = (Throw (Error "Google Drive not connected"), snd run))
    by (vm_compute; reflexivity).
  exists (snd run). split; [exact Hrun|].
  refine (proj1 (proj2 (start_refused env_no_tokens empty_world (snd run) "user-1"
                          ["file-1"] [GiB] _ Hrun _))).
  exists (Called (GetGoogleDriveTokens "user-1") (Ok None)).
  split; [|left; reflexivity].
  apply list_elem_of_In. vm_compute. auto.
Defined.

(** X21. When neither the configuration nor the process environment names
    the URL of the server, [createImportJobWithFlyWorker] throws [IMMICH_URL
    not configured] after it has created the temporary API key: the key is in
    the repository, it is not revoked by the run, and no record of the job is
    persisted that a later cleanup could find the key in. *)
Theorem start_without_server_url_leaves_key (env : Env) (w w' : World) (userId : string)
    (fileIds : list string) (fileSizes : list Z) (r : Result FlyWorkerJobResponseDto.t)
    (e : event) (answer : option string) :
  createImportJobWithFlyWorker userId fileIds fileSizes env w = (r, w') ->
  e ∈ calls_between w w' ->
  process_env_answer e = Some answer ->
  truthy (or_default answer EmptyString) = false ->
  r = Throw (Error "IMMICH_URL not configured")
  /\ store w' = store w
  /\ (exists hashed keyId,
        Called (ApiKeyCreate userId hashed "Google Photos Import (temporary)" permissions)
               (Ok keyId) ∈ calls_between w w')
  /\ Forall (fun e => is_release (event_call e) = false) (calls_between w w').
Proof.
  intros Hrun He Hanswer Hfalsy. start_run Hrun.
  all: injection Hrun as <- <-.
  all: revert He; calls_in_goal; intros He.
  all: try solve
    [ exfalso;
      repeat (apply elem_of_cons in He as [->|He];
              [ cbn [process_env_answer] in Hanswer; try discriminate Hanswer;
                injection Hanswer as <-; rewrite Hfalsy in Hurl; discriminate Hurl | ]);
      inversion He ].
  split; [reflexivity|]. split; [reflexivity|]. split.
  - eexists _, _.
    repeat first [ apply list_elem_of_here | apply list_elem_of_further ].
  - repeat constructor.
Qed.

Lemma start_without_server_url_leaves_key_witness :
  exists w' hashed keyId,
    createImportJobWithFlyWorker "user-1" ["file-1"] [GiB] env_no_url empty_world
    = (Throw (Error "IMMICH_URL not configured"), w')
    /\ Called (ApiKeyCreate "user-1" hashed "Google Photos Import (temporary)" permissions)
              (Ok keyId) ∈ calls_between empty_world w'
    /\ Forall (fun e => is_release (event_call e) = false) (calls_between empty_world w').
Proof.
  set (run := createImportJobWithFlyWorker "user-1" ["file-1"] [GiB] env_no_url
                empty_world).
  assert (Hrun : run = (Throw (Error "IMMICH_URL not configured"), snd run))
    by (vm_compute; reflexivity).
  assert (Henv : Called (ProcessEnv "IMMICH_URL") (Ok None)
                 ∈ calls_between empty_world (snd run))
    by (apply list_elem_of_In; vm_compute; auto 20).
  destruct (start_without_server_url_leaves_key env_no_url empty_world (snd run) "user-1"
              ["file-1"] [GiB] _ _ None Hrun Henv eq_refl eq_refl)
    as (_ & _ & (hashed & keyId & Hkey) & Hnone).
  exists (snd run), hashed, keyId. split; [exact Hrun|]. split; [exact Hkey | exact Hnone].
Defined.

(** ** The text that is signed *)

Lemma json_wf_strings (l : list string) : json_wf (JArray (map JString l)).
Proof. induction l as [|s l IH]; simpl; [exact I | split; [exact I | exact IH]]. Qed.

Ltac distinct_keys :=
  cbn [map fst app opt_prop]; apply (bool_decide_unpack _); vm_compute; exact I.

Lemma WorkerProgressPayloadDto_json_wf (p : WorkerProgressPayloadDto.t) :
  json_wf (WorkerProgressPayloadDto_json p).
Proof.
  destruct p as [current total [file|]]; apply json_wf_object;
    (split; [distinct_keys | repeat constructor]).
Qed.

Lemma WorkerProgressDto_json_wf (p : WorkerProgressDto.t) :
  json_wf (WorkerProgressDto_json p).
Proof.
  pose proof (WorkerProgressPayloadDto_json_wf (WorkerProgressDto.progress p)) as Hp.
  destruct p as [jobId phase progress [bytes|] [totalBytes|] [photos|] [albums|] [errors|]];
    cbn [WorkerProgressDto.progress] in Hp;
    apply json_wf_object;
    (split;
     [ distinct_keys
     | cbn [app opt_prop];
       repeat (apply Forall_cons; split;
               [first [exact I | exact Hp | apply json_wf_strings]|]);
       apply Forall_nil; exact I ]).
Qed.

(** X22. The signature that the handler expects does not depend on the
    order in which the properties of the payload are listed, at any depth:
    for every JSON value that is the payload up to the order of object keys,
    the keyed digest of its canonical text is the expected signature.  (The
    JSON of a payload has each key once.) *)
Theorem payload_signature_ignores_property_order (env : Env) (secret : string)
    (payload : WorkerProgressDto.t) (sent : json) :
  same_up_to_key_order (WorkerProgressDto_json payload) sent ->
  stableStringify sent = stableStringify (WorkerProgressDto_json payload)
  /\ hmac_sha256_hex env secret (stableStringify sent)
     = expectedSignature env secret payload.
Proof.
  intros Hsame.
  assert (Heq : stableStringify sent = stableStringify (WorkerProgressDto_json payload)).
  { symmetry. apply stableStringify_key_order; [apply WorkerProgressDto_json_wf|].
    exact Hsame. }
  split; [exact Heq|]. unfold expectedSignature. rewrite Heq. reflexivity.
Qed.

Lemma payload_signature_ignores_property_order_witness :
  stableStringify
    (JObject [ ("progress", JObject [("total", JNumber 10); ("current", JNumber 5)]);
               ("phase", JString "downloading");
               ("jobId", JString example_jobId) ])
  = stableStringify (WorkerProgressDto_json (example_payload 5 10)).
Proof.
  refine (proj1 (payload_signature_ignores_property_order env_ok "c2VjcmV0"
                   (example_payload 5 10) _ _)).
  apply (same_object _
           [ ("jobId", JString example_jobId);
             ("phase", JString "downloading");
             ("progress", JObject [("total", JNumber 10); ("current", JNumber 5)]) ]).
  - repeat constructor.
    apply (same_object _ [("current", JNumber 5); ("total", JNumber 10)]).
    + repeat constructor.
    + apply perm_swap.
  - apply Permutation_rev.
Defined.



Lemma Sorted_filter_trans {A} (R : relation A) `{!Transitive R}
    (P : A -> Prop) `{!forall x, Decision (P x)} (l : list A) :
  Sorted R l -> Sorted R (filter P l).
Proof.
  intros Hs. apply Sorted_StronglySorted in Hs; [|assumption].
  apply StronglySorted_Sorted.
  induction Hs as [|x l Hl IH Hx]; [constructor|].
  rewrite filter_cons. destruct (decide (P x)); [|exact IH].
  constructor; [exact IH|].
  apply Forall_forall. intros y Hy. apply list_elem_of_filter in Hy as [_ Hy].
  rewrite Forall_forall in Hx. apply Hx, Hy.
Qed.

Lemma filter_sort_keys_proto (ks : list string) :
  filter (fun k => k <> proto_key) (sort_keys (own_property_keys (proto_key :: ks)))
  = filter (fun k => k <> proto_key) (sort_keys (own_property_keys ks)).
Proof.
  apply (Sorted_unique String.le).
  - apply Sorted_filter_trans; [apply _|]. apply Sorted_merge_sort. apply _.
  - apply Sorted_filter_trans; [apply _|]. apply Sorted_merge_sort. apply _.
  - unfold sort_keys. rewrite !merge_sort_Permutation, !own_property_keys_Permutation.
    rewrite filter_cons, decide_False by (intros H; apply H; reflexivity).
    reflexivity.
Qed.

(** X24. A property named [__proto__] never reaches the canonical text:
    whatever its value, an object with it and the object without it get the
    same text, hence the same signature. *)
Theorem stableStringify_drops_proto (value : json) (props : list (string * json)) :
  stableStringify (JObject ((proto_key, value) :: props))
  = stableStringify (JObject props).
Proof.
  cbn [stableStringify]. do 2 f_equal. f_equal.
  assert (Hkeys : sorted_own_keys ((proto_key, value) :: props) = sorted_own_keys props).
  { unfold sorted_own_keys, Object_keys. cbn [map fst].
    rewrite filter_sort_keys_proto. reflexivity. }
  rewrite Hkeys. apply map_ext_elem. intros k Hk. do 2 f_equal.
  cbn [map fst snd lookup_rendered].
  rewrite bool_decide_eq_false_2; [reflexivity|].
  intros ->. unfold sorted_own_keys in Hk.
  rewrite own_property_keys_Permutation in Hk.
  apply list_elem_of_filter in Hk as [Hne _]. apply Hne. reflexivity.
Qed.

(** ** The output of immich-go *)

Lemma split_lines_nonempty (output : string) : split_lines output <> [].
Proof.
  destruct output as [|c output]; [discriminate|]. cbn [split_lines].
  destruct (N_of_ascii c =? 10)%N; [discriminate|].
  unfold push_char. destruct (split_lines output); discriminate.
Qed.

Lemma push_char_app (c : ascii) (l1 l2 : list string) :
  l1 <> [] -> push_char c (l1 ++ l2) = (push_char c l1 ++ l2)%list.
Proof. destruct l1; [congruence | reflexivity]. Qed.

Lemma split_lines_app (a b : string) :
  split_lines (a ++ newline ++ b) = (split_lines a ++ split_lines b)%list.
Proof.
  induction a as [|c a IH]; [reflexivity|].
  change (String c a ++ newline ++ b) with (String c (a ++ newline ++ b)).
  cbn [split_lines]. rewrite IH.
  destruct (N_of_ascii c =? 10)%N; [reflexivity|].
  apply push_char_app, split_lines_nonempty.
Qed.

Ltac parse_line_cases line :=
  unfold parse_line;
  destruct (match_fraction line) as [[? ?]|], (match_file line), (match_album line),
    (includes "error" (toLowerCase line));
  try reflexivity.

Lemma parse_line_errors progress line :
  GooglePhotosImportProgressDto.errors (parse_line progress line)
  = (GooglePhotosImportProgressDto.errors progress
     ++ (if includes "error" (toLowerCase line) then [trim line] else []))%list.
Proof. parse_line_cases line; cbn; rewrite app_nil_r; reflexivity. Qed.

Lemma parse_line_albumsFound progress line :
  GooglePhotosImportProgressDto.albumsFound (parse_line progress line)
  = GooglePhotosImportProgressDto.albumsFound progress
    + (if match_album line then 1 else 0).
Proof. parse_line_cases line; cbn; lia. Qed.

Lemma parse_line_current progress line :
  GooglePhotosImportProgressDto.current (parse_line progress line)
  = match match_fraction line with
    | Some groups => parseInt (fst groups)
    | None => GooglePhotosImportProgressDto.current progress
    end.
Proof. parse_line_cases line. Qed.

Lemma parse_line_total progress line :
  GooglePhotosImportProgressDto.total (parse_line progress line)
  = match match_fraction line with
    | Some groups => parseInt (snd groups)
    | None => GooglePhotosImportProgressDto.total progress
    end.
Proof. parse_line_cases line. Qed.

Lemma parse_line_currentFile progress line :
  GooglePhotosImportProgressDto.currentFile (parse_line progress line)
  = match match_file line with
    | Some file => Some (trim file)
    | None => GooglePhotosImportProgressDto.currentFile progress
    end.
Proof. parse_line_cases line. Qed.

Lemma parse_line_frame progress line :
  GooglePhotosImportProgressDto.phase (parse_line progress line)
  = GooglePhotosImportProgressDto.phase progress
  /\ GooglePhotosImportProgressDto.photosImported (parse_line progress line)
     = GooglePhotosImportProgressDto.photosImported progress
  /\ GooglePhotosImportProgressDto.bytesDownloaded (parse_line progress line)
     = GooglePhotosImportProgressDto.bytesDownloaded progress
  /\ GooglePhotosImportProgressDto.totalBytes (parse_line progress line)
     = GooglePhotosImportProgressDto.totalBytes progress
  /\ GooglePhotosImportProgressDto.events (parse_line progress line)
     = GooglePhotosImportProgressDto.events progress.
Proof. parse_line_cases line; repeat split. Qed.

(** X25. [parseImmichGoOutput] never loses an error that the job already
    holds: the errors afterwards are the errors before, followed by the
    lines of the output that contain [error] in any case, trimmed, in the
    order of the output; and the count of albums grows by the number of
    lines that announce an album ([Created album] or [Found album], in any
    case), so it never decreases. *)
Theorem parseImmichGoOutput_errors_and_albums (job : ImportJob.t) (output : string) :
  let before := ImportJob.progress job in
  let after := ImportJob.progress (parseImmichGoOutput job output) in
  GooglePhotosImportProgressDto.errors after
  = (GooglePhotosImportProgressDto.errors before
     ++ map trim (filter (fun line => includes "error" (toLowerCase line) = true)
                    (split_lines output)))%list
  /\ GooglePhotosImportProgressDto.albumsFound after
     = GooglePhotosImportProgressDto.albumsFound before
       + Z.of_nat (length (filter (fun line => match_album line = true)
                             (split_lines output)))
  /\ GooglePhotosImportProgressDto.albumsFound before
     <= GooglePhotosImportProgressDto.albumsFound after.
Proof.
  cbv zeta. unfold parseImmichGoOutput. cbn [ImportJob.progress set_job_progress].
  generalize (ImportJob.progress job) as progress.
  induction (split_lines output) as [|line lines IH]; intros progress.
  - cbn. rewrite app_nil_r. repeat split; lia.
  - cbn [fold_left]. destruct (IH (parse_line progress line)) as (He & Ha & _).
    rewrite He, Ha, parse_line_errors, parse_line_albumsFound, !filter_cons.
    destruct (includes "error" (toLowerCase line)), (match_album line);
      repeat case_decide; try discriminate; try congruence;
      cbn [map length app]; rewrite ?Nat2Z.inj_succ, <- ?app_assoc, ?app_nil_r;
      repeat split; try reflexivity; lia.
Qed.

(** X26. [parseImmichGoOutput] changes nothing of the job but four fields
    of its progress (the counter, the total, the current file, the count of
    albums) and the errors: whatever the output says, the status of the job,
    the phase, the timeline, the byte counters and the count of imported
    photos stay as they were. *)
Theorem parseImmichGoOutput_frame (job : ImportJob.t) (output : string) :
  let before := ImportJob.progress job in
  let after := ImportJob.progress (parseImmichGoOutput job output) in
  set_job_progress before (parseImmichGoOutput job output) = job
  /\ GooglePhotosImportProgressDto.phase after = GooglePhotosImportProgressDto.phase before
  /\ GooglePhotosImportProgressDto.photosImported after
     = GooglePhotosImportProgressDto.photosImported before
  /\ GooglePhotosImportProgressDto.bytesDownloaded after
     = GooglePhotosImportProgressDto.bytesDownloaded before
  /\ GooglePhotosImportProgressDto.totalBytes after
     = GooglePhotosImportProgressDto.totalBytes before
  /\ GooglePhotosImportProgressDto.events after
     = GooglePhotosImportProgressDto.events before.
Proof.
  cbv zeta. split; [destruct job; reflexivity|].
  unfold parseImmichGoOutput. cbn [ImportJob.progress set_job_progress].
  generalize (ImportJob.progress job) as progress.
  induction (split_lines output) as [|line lines IH]; intros progress.
  - repeat split.
  - cbn [fold_left].
    destruct (IH (parse_line progress line)) as (-> & -> & -> & -> & ->).
    apply parse_line_frame.
Qed.

(** X27. The result does not depend on how the output arrives in chunks, as
    long as every chunk ends where a line ends: parsing a chunk and then the
    next is parsing the two joined by a line feed. *)
Theorem parseImmichGoOutput_chunks (job : ImportJob.t) (first next : string) :
  parseImmichGoOutput (parseImmichGoOutput job first) next
  = parseImmichGoOutput job (first ++ newline ++ next).
Proof.
  unfold parseImmichGoOutput. rewrite split_lines_app, fold_left_app.
  destruct job; reflexivity.
Qed.

Lemma fold_parse_line_last lines progress :
  let final := fold_left parse_line lines progress in
  GooglePhotosImportProgressDto.current final
  = match last (omap match_fraction lines) with
    | Some groups => parseInt (fst groups)
    | None => GooglePhotosImportProgressDto.current progress
    end
  /\ GooglePhotosImportProgressDto.total final
     = match last (omap match_fraction lines) with
       | Some groups => parseInt (snd groups)
       | None => GooglePhotosImportProgressDto.total progress
       end
  /\ GooglePhotosImportProgressDto.currentFile final
     = match last (omap match_file lines) with
       | Some file => Some (trim file)
       | None => GooglePhotosImportProgressDto.currentFile progress
       end.
Proof.
  cbv zeta. revert progress.
  induction lines as [|line lines IH] using rev_ind; intros progress.
  - repeat split.
  - rewrite fold_left_app. cbn [fold_left].
    rewrite parse_line_current, parse_line_total, parse_line_currentFile.
    rewrite !omap_app. cbn [omap list_omap].
    destruct (IH progress) as (Hc & Ht & Hf). rewrite Hc, Ht, Hf.
    destruct (match_fraction line) as [groups|], (match_file line) as [file|];
      cbn; rewrite ?last_snoc, ?app_nil_r; repeat split.
Qed.

Lemma parseInt_nonneg (digits : string) : 0 <= parseInt digits.
Proof. unfold parseInt. destruct (digits_value 0 digits); lia. Qed.

(** X28. Of the lines of one output, the last one that shows a fraction
    decides the counter and the total, and the last one that names a file
    decides the current file; a field for which no line has a match stays as
    it was; the counter and the total are never negative afterwards if they
    were not before. *)
Theorem parseImmichGoOutput_last_line_wins (job : ImportJob.t) (output : string) :
  let before := ImportJob.progress job in
  let after := ImportJob.progress (parseImmichGoOutput job output) in
  let fractions := omap match_fraction (split_lines output) in
  let files := omap match_file (split_lines output) in
  GooglePhotosImportProgressDto.current after
  = match last fractions with
    | Some groups => parseInt (fst groups)
    | None => GooglePhotosImportProgressDto.current before
    end
  /\ GooglePhotosImportProgressDto.total after
     = match last fractions with
       | Some groups => parseInt (snd groups)
       | None => GooglePhotosImportProgressDto.total before
       end
  /\ GooglePhotosImportProgressDto.currentFile after
     = match last files with
       | Some file => Some (trim file)
       | None => GooglePhotosImportProgressDto.currentFile before
       end
  /\ (0 <= GooglePhotosImportProgressDto.current before ->
      0 <= GooglePhotosImportProgressDto.current after)
  /\ (0 <= GooglePhotosImportProgressDto.total before ->
      0 <= GooglePhotosImportProgressDto.total after).
Proof.
  cbv zeta. unfold parseImmichGoOutput. cbn [ImportJob.progress set_job_progress].
  destruct (fold_parse_line_last (split_lines output) (ImportJob.progress job))
    as (Hc & Ht & Hf).
  cbv zeta in Hc, Ht, Hf. rewrite Hc, Ht, Hf.
  split; [reflexivity|]. split; [reflexivity|]. split; [reflexivity|].
  destruct (last (omap match_fraction (split_lines output))) as [groups|];
    split; intros H; try exact H; apply parseInt_nonneg.
Qed.

Example parseImmichGoOutput_example :
  let progress := ImportJob.progress (parseImmichGoOutput example_import_job example_output) in
  GooglePhotosImportProgressDto.current progress = 3
  /\ GooglePhotosImportProgressDto.total progress = 10
  /\ GooglePhotosImportProgressDto.currentFile progress = Some "IMG_0001.jpg"
  /\ GooglePhotosImportProgressDto.albumsFound progress = 1
  /\ GooglePhotosImportProgressDto.errors progress = ["ERROR: upload failed"].
Proof. vm_compute. repeat split. Qed.

(** ** The URL of the server on the local path *)

(** X29. [getServerUrl] reads the configuration and nothing else; it throws
    only what the read of the configuration throws; and the URL it returns
    is never empty: it is the external domain of the configuration if that
    is set and [http://localhost:2283] otherwise.  (The worker path, which
    cannot fall back on [localhost], refuses to start instead.) *)
Theorem getServerUrl_never_empty (env : Env) (w : World) :
  (exists config url,
      getServerUrl env w = (Ok url, add_log (Called GetConfig (Ok config)) w)
      /\ truthy url = true
      /\ (truthy (SystemConfig.server_externalDomain config) = true ->
          url = SystemConfig.server_externalDomain config)
      /\ (truthy (SystemConfig.server_externalDomain config) = false ->
          url = "http://localhost:2283"))
  \/ (exists error,
        getServerUrl env w = (Throw error, add_log (Called GetConfig (Throw error)) w)).
Proof.
  unfold getServerUrl, getConfig. rewrite (bind_perform GetConfig).
  destruct (respond env (log w) GetConfig) as [config|error].
  - left. exists config. eexists. split; [reflexivity|].
    unfold or_default.
    destruct (truthy (SystemConfig.server_externalDomain config)) eqn:Hd.
    + split; [exact Hd|]. split; [reflexivity | discriminate].
    + split; [reflexivity|]. split; [discriminate | reflexivity].
  - right. exists error. reflexivity.
Qed.

(** ** What the progress endpoint shows after a cancel *)

(** X30. After [cancelWorkerJob] on a persisted job, [getWorkerJobProgress]
    returns the progress that the job had with [Cancelled by user] appended
    to its errors and nothing else changed: the phase that a client reads is
    still the one of the last update of the worker (a job cancelled while
    downloading still reads [downloading]), while the persisted status is
    [cleanup]. *)
Theorem progress_after_cancel (env : Env) (w : World) (jobId : string)
    (job : FlyWorkerJobMetadata.t) :
  store w !! job_key jobId = Some job ->
  FlyWorkerJobMetadata.jobId job = jobId ->
  exists w',
    cancelWorkerJob jobId env w = (Ok tt, w')
    /\ getWorkerJobProgress jobId env w'
       = (Ok (Some (GooglePhotosImportProgressDto.set_errors
                      (job_errors job ++ ["Cancelled by user"])%list
                      (FlyWorkerJobMetadata.progress job))), w')
    /\ persisted_status w' jobId = Some st_cleanup.
Proof.
  intros Hjob Hid.
  rewrite (cancelWorkerJob_known _ _ _ _ Hjob), Hid.
  set (w0 := set_store _ (tick w)).
  destruct (cleanupWorkerJob_found env w0 jobId (cancelled_worker (clock env (ticks w)) job))
    as (w' & Hrun & _ & Hstore & _); [apply lookup_insert_eq|].
  cbn [cancelled_worker FlyWorkerJobMetadata.jobId FlyWorkerJobMetadata.set_updatedAt
       update_progress FlyWorkerJobMetadata.set_progress FlyWorkerJobMetadata.set_status]
    in Hstore.
  rewrite Hid in Hstore.
  exists w'. split; [exact Hrun|]. split.
  - unfold getWorkerJobProgress, bind, getWorkerJob.
    rewrite Hstore, lookup_insert_eq. reflexivity.
  - unfold persisted_status. rewrite Hstore, lookup_insert_eq. reflexivity.
Qed.

Lemma progress_after_cancel_witness :
  exists w' progress,
    cancelWorkerJob example_jobId env_ok (example_world st_downloading) = (Ok tt, w')
    /\ getWorkerJobProgress example_jobId env_ok w' = (Ok (Some progress), w')
    /\ GooglePhotosImportProgressDto.phase progress = ph_downloading
    /\ GooglePhotosImportProgressDto.errors progress = ["Cancelled by user"].
Proof.
  destruct (progress_after_cancel env_ok (example_world st_downloading) example_jobId
              (example_job st_downloading) (example_world_lookup st_downloading) eq_refl)
    as (w' & Hrun & Hprogress & _).
  exists w'. eexists. split; [exact Hrun|]. split; [exact Hprogress|].
  split; reflexivity.
Defined.

(** * The canonical text of a payload, and two webhooks in a row *)

(** ** [stableStringify] and the canonical text of the specification *)

(** ** The canonical text of the payloads *)

Lemma json_plain_array items :
  json_plain (JArray items) <-> Forall json_plain items.
Proof.
  simpl. induction items as [|x items IH]; simpl.
  - split; [constructor | trivial].
  - rewrite Forall_cons, IH. reflexivity.
Qed.

Lemma json_plain_object props :
  json_plain (JObject props)
  <-> Forall (fun p => is_array_index (fst p) = false /\ fst p <> proto_key
                       /\ json_plain (snd p)) props.
Proof.
  simpl. induction props as [|x props IH]; simpl.
  - split; [constructor | trivial].
  - rewrite Forall_cons, IH. reflexivity.
Qed.

Lemma lookup_rendered_member (rendered : list (string * string)) (k s : string) :
  NoDup (map fst rendered) -> (k, s) ∈ rendered -> lookup_rendered k rendered = s.
Proof.
  induction rendered as [|[k' s'] rendered IH]; intros Hnd Hin.
  - inversion Hin.
  - simpl in *. apply NoDup_cons in Hnd as [Hk Hnd].
    apply elem_of_cons in Hin as [Heq|Hin].
    + inversion Heq; subst. rewrite bool_decide_eq_true_2 by reflexivity. reflexivity.
    + rewrite bool_decide_eq_false_2; [apply IH; assumption|].
      intros ->. apply Hk. apply list_elem_of_fmap. exists (k', s). auto.
Qed.

(** Sorting the rendered members by key lists them as the sorted keys do. *)
Lemma sorted_members (rendered : list (string * string)) :
  NoDup (map fst rendered) ->
  map (fun member => JSON_quote (fst member) ++ ":" ++ snd member)
      (merge_sort (fun a b => String.le (fst a) (fst b)) rendered)
  = map (fun k => JSON_quote k ++ ":" ++ lookup_rendered k rendered)
        (sort_keys (map fst rendered)).
Proof.
  intros Hnd.
  set (R := fun a b : string * string => String.le (fst a) (fst b)).
  assert (HT : Total R) by (intros a b; apply (total String.le)).
  set (S := merge_sort R rendered).
  assert (Hperm : S ≡ₚ rendered) by apply merge_sort_Permutation.
  assert (Hkeys : map fst S = sort_keys (map fst rendered)).
  { apply (Sorted_unique String.le).
    - apply (Sorted_fmap fst R String.le); [auto|]. apply Sorted_merge_sort. exact HT.
    - apply Sorted_merge_sort. apply _.
    - unfold sort_keys. rewrite merge_sort_Permutation.
      change (fst <$> S ≡ₚ fst <$> rendered). rewrite Hperm. reflexivity. }
  rewrite <- Hkeys, map_map. apply map_ext_elem. intros [k s] Hin.
  cbn [fst snd]. do 2 f_equal. symmetry.
  apply lookup_rendered_member; [exact Hnd|]. rewrite <- Hperm. exact Hin.
Qed.

Lemma stableStringify_is_canonicalize (v : json) :
  json_wf v -> json_plain v -> stableStringify v = canonicalize v.
Proof.
  induction v as [ | [|] | | | items IH | props IH ] using json_induction;
    intros Hwf Hplain; try reflexivity.
  - cbn [stableStringify canonicalize]. do 2 f_equal. f_equal.
    apply json_wf_array in Hwf. apply json_plain_array in Hplain.
    apply map_ext_elem. intros x Hx.
    rewrite Forall_forall in IH, Hwf, Hplain. auto.
  - apply json_wf_object in Hwf as [Hnd Hwf].
    apply json_plain_object in Hplain.
    cbn [stableStringify canonicalize]. do 2 f_equal. f_equal.
    assert (Hsame : map (fun p => (fst p, canonicalize (snd p))) props
                    = map (fun p => (fst p, stableStringify (snd p))) props).
    { apply map_ext_elem. intros p Hp. f_equal. symmetry.
      rewrite Forall_forall in IH, Hwf, Hplain.
      apply IH; [exact Hp | apply Hwf, Hp | apply (Hplain p Hp)]. }
    rewrite Hsame.
    set (rendered := map (fun p => (fst p, stableStringify (snd p))) props).
    assert (Hfst : map fst rendered = map fst props)
      by (unfold rendered; rewrite map_map; reflexivity).
    rewrite sorted_members by (rewrite Hfst; exact Hnd).
    rewrite Hfst.
    assert (sorted_own_keys props = sort_keys (map fst props)) as ->; [|reflexivity].
    apply sorted_own_keys_lexicographic.
    rewrite Forall_fmap. eapply Forall_impl; [exact Hplain|].
    intros p (H1 & H2 & _). split; assumption.
Qed.

Lemma WorkerProgressDto_json_plain (p : WorkerProgressDto.t) :
  json_plain (WorkerProgressDto_json p).
Proof.
  assert (Hstrings : forall l, json_plain (JArray (map JString l))).
  { intros l. apply json_plain_array. apply Forall_fmap.
    apply Forall_forall. intros ? _. exact I. }
  destruct p as [jobId phase [current total [file|]] [bytes|] [totalBytes|] [photos|]
                 [albums|] [errors|]];
    apply json_plain_object; cbn [WorkerProgressDto_json WorkerProgressPayloadDto_json
      WorkerProgressDto.jobId WorkerProgressDto.phase WorkerProgressDto.progress
      WorkerProgressDto.bytesDownloaded WorkerProgressDto.totalBytes
      WorkerProgressDto.photosImported WorkerProgressDto.albumsFound
      WorkerProgressDto.errors WorkerProgressPayloadDto.current
      WorkerProgressPayloadDto.total WorkerProgressPayloadDto.currentFile app opt_prop];
    repeat (apply Forall_cons; split;
            [ split; [vm_compute; reflexivity|]; split; [discriminate|];
              first [ exact I | apply Hstrings
                    | apply json_plain_object;
                      repeat (apply Forall_cons; split;
                              [ split; [vm_compute; reflexivity|];
                                split; [discriminate | exact I] |]);
                      apply Forall_nil; exact I ] |]);
    apply Forall_nil; exact I.
Qed.

(** C4. [stableStringify] is the canonicalisation of the specification on
    what the service signs.  For every pair of JSON values that are the same
    up to the order of object keys at any depth (each object having each key
    once), the two texts are byte-identical.  When no key of the value is an
    array index or [__proto__], the text is the one in which the members of
    every object, at every depth, come in the lexicographic order of their
    keys and the elements of every array in their own order
    ([canonicalize]); this is so for every webhook payload, whose keys are
    the names of the properties of [WorkerProgressDto]. *)
Theorem stableStringify_canonical (a b : json) :
  json_wf a ->
  same_up_to_key_order a b ->
  stableStringify a = stableStringify b
  /\ (json_plain a -> stableStringify b = canonicalize a)
  /\ (forall payload : WorkerProgressDto.t,
        a = WorkerProgressDto_json payload -> stableStringify b = canonicalize a)
  /\ (forall items : list json,
        stableStringify (JArray items)
        = "[" ++ join "," (map stableStringify items) ++ "]").
Proof.
  intros Hwf Hsame.
  assert (Heq : stableStringify a = stableStringify b)
    by (apply stableStringify_key_order; assumption).
  split; [exact Heq|]. split; [|split].
  - intros Hplain. rewrite <- Heq. apply stableStringify_is_canonicalize; assumption.
  - intros payload ->. rewrite <- Heq.
    apply stableStringify_is_canonicalize; [exact Hwf|].
    apply WorkerProgressDto_json_plain.
  - intros items. reflexivity.
Qed.

Lemma stableStringify_canonical_witness :
  stableStringify
    (JObject [ ("progress", JObject [("total", JNumber 10); ("current", JNumber 5)]);
               ("phase", JString "downloading");
               ("jobId", JString example_jobId) ])
  = canonicalize (WorkerProgressDto_json (example_payload 5 10))
  /\ canonicalize (WorkerProgressDto_json (example_payload 5 10))
     = "{" ++ JSON_quote "jobId" ++ ":" ++ JSON_quote example_jobId ++ ","
       ++ JSON_quote "phase" ++ ":" ++ JSON_quote "downloading" ++ ","
       ++ JSON_quote "progress" ++ ":{" ++ JSON_quote "current" ++ ":5,"
       ++ JSON_quote "total" ++ ":10}}".
Proof.
  split; [|vm_compute; reflexivity].
  refine (proj1 (proj2 (proj2
            (stableStringify_canonical (WorkerProgressDto_json (example_payload 5 10)) _
               (WorkerProgressDto_json_wf _) _))) (example_payload 5 10) eq_refl).
  apply (same_object _
           [ ("jobId", JString example_jobId);
             ("phase", JString "downloading");
             ("progress", JObject [("total", JNumber 10); ("current", JNumber 5)]) ]).
  - repeat constructor.
    apply (same_object _ [("current", JNumber 5); ("total", JNumber 10)]).
    + repeat constructor.
    + apply perm_swap.
  - apply Permutation_rev.
Defined.

(** ** Two webhooks, and the cleanup between them *)

Lemma bind_run {A B} (m : M A) (k : A -> M B) env w a w' :
  m env w = (Ok a, w') -> bind m k env w = k a env w'.
Proof. intros H. unfold bind. rewrite H. reflexivity. Qed.

Lemma bind_eq_run {A B} (m m' : M A) (k : A -> M B) env w :
  m env w = m' env w -> bind m k env w = bind m' k env w.
Proof. intros H. unfold bind. rewrite H. reflexivity. Qed.

(** The steps are those of [cleanupWorkerJob]. *)
Lemma cleanupWorkerJob_steps env w jobId :
  cleanupWorkerJob jobId env w
  = (found <- getWorkerJob jobId;;
     match found with
     | None => ret tt
     | Some job =>
         job <- cleanup_mark job;;
         cleanup_release job;;
         cleanup_finish job
     end) env w.
Proof.
  unfold cleanupWorkerJob.
  rewrite !(bind_run (getWorkerJob jobId) _ env w _ w eq_refl).
  destruct (store w !! job_key jobId) as [job|]; [|reflexivity].
  unfold cleanup_mark, cleanup_release, cleanup_finish.
  rewrite !bind_bind.
  rewrite !(bind_run Date_now _ env w _ _ eq_refl).
  rewrite !bind_bind.
  rewrite !(bind_run (saveWorkerJob _) _ env _ _ _ eq_refl).
  rewrite (bind_run (ret _) _ env _ _ _ eq_refl).
  rewrite !bind_bind. reflexivity.
Qed.






(** A request that does nothing, handled while the cleanup runs, leaves the
    run of [cleanupWorkerJob]. *)
Lemma while_cleanup_runs_idle env w :
  while_cleanup_runs (ret tt) env w
  = (started <- next_background;;
     match started with
     | Some jobId => cleanupWorkerJob jobId;; ret (Ok tt)
     | None => ret (Ok tt)
     end) env w.
Proof.
  unfold while_cleanup_runs.
  destruct (background w) as [|jobId rest] eqn:Hbg.
  - rewrite !(bind_run next_background _ env w None w)
      by (unfold next_background; rewrite Hbg; reflexivity).
    reflexivity.
  - rewrite !(bind_run next_background _ env w (Some jobId) (set_background rest w))
      by (unfold next_background; rewrite Hbg; reflexivity).
    cbv beta iota.
    rewrite (bind_eq_run _ _ _ _ _ (cleanupWorkerJob_steps _ _ _)), bind_bind.
    rewrite !(bind_run (getWorkerJob jobId) _ env _ _ _ eq_refl).
    destruct (store (set_background rest w) !! job_key jobId) as [job|];
      [|reflexivity].
    cbv beta iota.
    rewrite !bind_bind.
    rewrite !(bind_run (cleanup_mark job) _ env _ _ _ eq_refl).
    rewrite (bind_run (handled (ret tt)) _ env _ _ _ eq_refl).
    rewrite !bind_bind. reflexivity.
Qed.



(** The same two payloads, the second handled while the cleanup that the
    first one started waits for the key, the machine and the volume: the
    handler of the second payload saves its record, and the last save of
    the cleanup puts back the record of the first. *)
Example overlapping_run :
  exists w' job2,
    overlapping
      (handleWorkerWebhook
         (expectedSignature env_ok
            (FlyWorkerJobMetadata.webhookSecret (example_job st_downloading))
            example_complete_payload) example_complete_payload EmptyString)
      (handleWorkerWebhook
         (expectedSignature env_ok
            (FlyWorkerJobMetadata.webhookSecret (example_job st_downloading))
            example_late_payload) example_late_payload EmptyString)
      env_ok (example_world st_downloading) = (Ok (Ok tt, Ok tt), w')
    /\ store w' !! job_key example_jobId = Some job2
    /\ GooglePhotosImportProgressDto.phase (FlyWorkerJobMetadata.progress job2)
       = ph_complete
    /\ GooglePhotosImportProgressDto.current (FlyWorkerJobMetadata.progress job2) = 5
    /\ job_errors job2 = []
    /\ FlyWorkerJobMetadata.status job2 = st_cleanup
    /\ background w' = [].
Proof.
  eexists _, _.
  split; [vm_compute; reflexivity|].
  split; [vm_compute; reflexivity|].
  vm_compute. repeat split.
Qed.

